(** * decision_tree: a shallow embedding of [lib/decision_tree.py]

    The development follows the Python class [DecisionTree]: the frequency
    tables built by [load_data], the entropy based statistics and the
    recursive tree builder [_build_tree].

    Modelling conventions.
    - Python [int] is [Z]; list positions and attribute indices, which only
      ever come from [range], are [nat].
    - Python [float] is idealised as a real number ([R]); [math.log2 x] is
      [ln x / ln 2].
    - A [dict] is an association list in insertion order (the order Python
      iterates it in); assigning to an existing key keeps its position.
    - A [set] of strings is iterated in an order that depends on the string
      hashes of the interpreter run; the order is a parameter ([PySet]).
    - A raised exception is the [Raise] outcome of [result]; methods that
      assign to fields of [self] live in the state monad [M]. *)

From Stdlib Require Import String Ascii DecimalString.
From Stdlib Require Import ZArith Reals Lra Lia Bool Arith.
From Stdlib Require Import List Permutation Sorted.
Import ListNotations.

(** ** Outcomes of fallible code *)

Inductive exn : Type :=
| IndexError
| KeyError
| ZeroDivisionError
| ValueError.

(** [Diverge] is only produced when the recursion budget of the tree builder
    is used up; [build_tree_never_diverges] shows that it never is. *)
Inductive result (A : Type) : Type :=
| Ok (a : A)
| Raise (e : exn)
| Diverge.

Arguments Ok {A} a.
Arguments Raise {A} e.
Arguments Diverge {A}.

Definition rbind {A B : Type} (r : result A) (k : A -> result B) : result B :=
  match r with
  | Ok a => k a
  | Raise e => Raise e
  | Diverge => Diverge
  end.

Declare Scope res_scope.
Delimit Scope res_scope with res.
Notation "x <- c ;; k" := (rbind c (fun x => k))
  (at level 61, c at next level, right associativity) : res_scope.

(** [[f x for x in xs]] with a fallible [f]. *)
Fixpoint rmap {A B : Type} (f : A -> result B) (xs : list A) : result (list B) :=
  match xs with
  | [] => Ok []
  | x :: xs' => (y <- f x ;; ys <- rmap f xs' ;; Ok (y :: ys))%res
  end.

(** A [for] loop that threads a local accumulator. *)
Fixpoint rfold {A S : Type} (body : S -> A -> result S) (xs : list A) (s : S)
  : result S :=
  match xs with
  | [] => Ok s
  | x :: xs' => (s' <- body s x ;; rfold body xs' s')%res
  end.

(** [[x for x in xs if f x]] with a fallible [f]. *)
Fixpoint rfilter {A : Type} (f : A -> result bool) (xs : list A)
  : result (list A) :=
  match xs with
  | [] => Ok []
  | x :: xs' =>
      (b <- f x ;; ys <- rfilter f xs' ;; Ok (if b then x :: ys else ys))%res
  end.

(** [xs[i]] *)
Definition index {A : Type} (xs : list A) (i : nat) : result A :=
  match nth_error xs i with
  | Some x => Ok x
  | None => Raise IndexError
  end.

(** [xs[-1]] *)
Definition index_last {A : Type} (xs : list A) : result A :=
  match xs with
  | [] => Raise IndexError
  | x :: xs' => Ok (last xs' x)
  end.

(** ** Dictionaries *)

Class Key (K : Type) : Type := {
  key_eqb : K -> K -> bool;
  key_eqb_eq : forall x y, key_eqb x y = true <-> x = y
}.

#[export] Instance nat_Key : Key nat :=
  {| key_eqb := Nat.eqb; key_eqb_eq := Nat.eqb_eq |}.

#[export] Instance string_Key : Key string :=
  {| key_eqb := String.eqb; key_eqb_eq := String.eqb_eq |}.

Definition dict (K V : Type) : Type := list (K * V).

Section Dict.
Context {K V : Type} `{Key K}.

(** [d.get(k)] *)
Fixpoint dict_get (d : dict K V) (k : K) : option V :=
  match d with
  | [] => None
  | (k', v) :: d' => if key_eqb k k' then Some v else dict_get d' k
  end.

(** [d.get(k, dflt)] *)
Definition dict_get_default (d : dict K V) (k : K) (dflt : V) : V :=
  match dict_get d k with
  | Some v => v
  | None => dflt
  end.

(** [d[k]] *)
Definition dict_lookup (d : dict K V) (k : K) : result V :=
  match dict_get d k with
  | Some v => Ok v
  | None => Raise KeyError
  end.

(** [d[k] = v]: an existing key keeps its place, a new one goes last. *)
Fixpoint dict_set (d : dict K V) (k : K) (v : V) : dict K V :=
  match d with
  | [] => [(k, v)]
  | (k', v') :: d' =>
      if key_eqb k k' then (k', v) :: d' else (k', v') :: dict_set d' k v
  end.

Definition dict_keys (d : dict K V) : list K := map fst d.
Definition dict_values (d : dict K V) : list V := map snd d.

(** [k in d] *)
Definition dict_mem (d : dict K V) (k : K) : bool :=
  match dict_get d k with
  | Some _ => true
  | None => false
  end.
End Dict.

(** [sum(d.values())] *)
Definition sum_values {K : Type} (d : dict K Z) : Z :=
  fold_left Z.add (dict_values d) 0%Z.

(** ** Sets of strings *)

(** [list(set(l))]: the distinct members of [l], in an order fixed by the
    interpreter run (string hashing is seeded per process). *)
Class PySet : Type := {
  set_iter : list string -> list string;
  set_iter_NoDup : forall l, NoDup (set_iter l);
  set_iter_In : forall l x, In x (set_iter l) <-> In x l
}.

(** [l.count(x)] *)
Definition count (l : list string) (x : string) : Z :=
  Z.of_nat (count_occ string_dec l x).

(** [max(xs, key=key)]: the first element whose key is not exceeded later. *)
Definition py_max (xs : list string) (key : string -> Z) : result string :=
  match xs with
  | [] => Raise ValueError
  | x :: xs' =>
      Ok (fold_left (fun best y => if (key best <? key y)%Z then y else best)
                    xs' x)
  end.

(** ** Tree nodes *)

(** [DecisionTreeNode]; [children] is the anytree child list, in the order
    in which the children were given this node as parent. *)
Local Unset Elimination Schemes.

Inductive DecisionTreeNode : Type :=
| mkNode (name : string) (attribute_index : option nat)
         (decision : option string) (children : list DecisionTreeNode).

Inductive shape : Type :=
| Shape (attribute : option nat) (kids : list shape).

Local Set Elimination Schemes.

Definition name (n : DecisionTreeNode) : string :=
  match n with mkNode s _ _ _ => s end.
Definition attribute_index (n : DecisionTreeNode) : option nat :=
  match n with mkNode _ a _ _ => a end.
Definition decision (n : DecisionTreeNode) : option string :=
  match n with mkNode _ _ d _ => d end.
Definition children (n : DecisionTreeNode) : list DecisionTreeNode :=
  match n with mkNode _ _ _ c => c end.

(** [node.name = s] *)
Definition set_name (n : DecisionTreeNode) (s : string) : DecisionTreeNode :=
  match n with mkNode _ a d c => mkNode s a d c end.

(** The separator of ["{value} ➔ {child.name}"]. *)
Definition arrow : string := " ➔ "%string.

(** [str(n)] for a non-negative [n]. *)
Definition str (n : nat) : string := NilEmpty.string_of_uint (Nat.to_uint n).

(** ** The [DecisionTree] object *)

Record DecisionTree : Type := mkDecisionTree {
  tree_root : option DecisionTreeNode;
  data : list (list string);
  attributes : list (list string);
  decisions : list string;
  unique_attributes_values : dict nat Z;
  value_occurrences : dict nat (dict string Z);
  decision_counts : dict string Z;
  attribute_decision_counts : dict nat (dict string (dict string Z))
}.

(** [DecisionTree.__init__] *)
Definition init : DecisionTree :=
  {| tree_root := None; data := []; attributes := []; decisions := [];
     unique_attributes_values := []; value_occurrences := [];
     decision_counts := []; attribute_decision_counts := [] |}.


Definition set_tree_root (x : option DecisionTreeNode) (s : DecisionTree) :=
  {| tree_root := x; data := data s; attributes := attributes s;
     decisions := decisions s;
     unique_attributes_values := unique_attributes_values s;
     value_occurrences := value_occurrences s;
     decision_counts := decision_counts s;
     attribute_decision_counts := attribute_decision_counts s |}.

Definition set_data (x : list (list string)) (s : DecisionTree) :=
  {| tree_root := tree_root s; data := x; attributes := attributes s;
     decisions := decisions s;
     unique_attributes_values := unique_attributes_values s;
     value_occurrences := value_occurrences s;
     decision_counts := decision_counts s;
     attribute_decision_counts := attribute_decision_counts s |}.

Definition set_attributes (x : list (list string)) (s : DecisionTree) :=
  {| tree_root := tree_root s; data := data s; attributes := x;
     decisions := decisions s;
     unique_attributes_values := unique_attributes_values s;
     value_occurrences := value_occurrences s;
     decision_counts := decision_counts s;
     attribute_decision_counts := attribute_decision_counts s |}.

Definition set_decisions (x : list string) (s : DecisionTree) :=
  {| tree_root := tree_root s; data := data s; attributes := attributes s;
     decisions := x;
     unique_attributes_values := unique_attributes_values s;
     value_occurrences := value_occurrences s;
     decision_counts := decision_counts s;
     attribute_decision_counts := attribute_decision_counts s |}.

Definition set_unique_attributes_values (x : dict nat Z) (s : DecisionTree) :=
  {| tree_root := tree_root s; data := data s; attributes := attributes s;
     decisions := decisions s;
     unique_attributes_values := x;
     value_occurrences := value_occurrences s;
     decision_counts := decision_counts s;
     attribute_decision_counts := attribute_decision_counts s |}.

Definition set_value_occurrences (x : dict nat (dict string Z))
  (s : DecisionTree) :=
  {| tree_root := tree_root s; data := data s; attributes := attributes s;
     decisions := decisions s;
     unique_attributes_values := unique_attributes_values s;
     value_occurrences := x;
     decision_counts := decision_counts s;
     attribute_decision_counts := attribute_decision_counts s |}.

Definition set_decision_counts (x : dict string Z) (s : DecisionTree) :=
  {| tree_root := tree_root s; data := data s; attributes := attributes s;
     decisions := decisions s;
     unique_attributes_values := unique_attributes_values s;
     value_occurrences := value_occurrences s;
     decision_counts := x;
     attribute_decision_counts := attribute_decision_counts s |}.

Definition set_attribute_decision_counts
  (x : dict nat (dict string (dict string Z))) (s : DecisionTree) :=
  {| tree_root := tree_root s; data := data s; attributes := attributes s;
     decisions := decisions s;
     unique_attributes_values := unique_attributes_values s;
     value_occurrences := value_occurrences s;
     decision_counts := decision_counts s;
     attribute_decision_counts := x |}.

(** ** Methods that assign to [self]: state and exceptions *)

Definition M (A : Type) : Type := DecisionTree -> result A * DecisionTree.

Definition ret {A : Type} (a : A) : M A := fun s => (Ok a, s).

Definition bind {A B : Type} (m : M A) (k : A -> M B) : M B :=
  fun s =>
    match m s with
    | (Ok a, s') => k a s'
    | (Raise e, s') => (Raise e, s')
    | (Diverge, s') => (Diverge, s')
    end.

(** Reading a field of [self]. *)
Definition gets {A : Type} (f : DecisionTree -> A) : M A :=
  fun s => (Ok (f s), s).

(** Evaluating an expression over [self] that may raise. *)
Definition getsr {A : Type} (f : DecisionTree -> result A) : M A :=
  fun s => (f s, s).

(** Assigning to a field of [self]. *)
Definition modify (f : DecisionTree -> DecisionTree) : M unit :=
  fun s => (Ok tt, f s).

Declare Scope m_scope.
Delimit Scope m_scope with M.
Notation "x <- c ;; k" := (bind c (fun x => k))
  (at level 61, c at next level, right associativity) : m_scope.
Notation "c ;; k" := (bind c (fun _ => k))
  (at level 61, right associativity) : m_scope.

(** A [for] loop whose body assigns to [self]. *)
Fixpoint for_each {A : Type} (xs : list A) (body : A -> M unit) : M unit :=
  match xs with
  | [] => ret tt
  | x :: xs' => (body x ;; for_each xs' body)%M
  end.

(** ** Frequency tables *)

(** [set(row[i] for row in self.attributes)], stored under key [i] of the
    local [unique_values]. *)
Definition unique_values_step `{PySet} (rows : list (list string))
  (unique_values : dict nat (list string)) (i : nat)
  : result (dict nat (list string)) :=
  (col <- rmap (fun row => index row i) rows ;;
   Ok (dict_set unique_values i (set_iter col)))%res.

(** [_count_unique_attributes_values] *)
Definition _count_unique_attributes_values `{PySet} : M unit :=
  (row0 <- getsr (fun s => index (attributes s) 0) ;;
   unique_values <- getsr (fun s =>
     rfold (unique_values_step (attributes s)) (seq 0 (length row0)) []) ;;
   modify (set_unique_attributes_values
     (fold_left (fun (d : dict nat Z) kv =>
                   dict_set d (fst kv) (Z.of_nat (length (snd kv))))
                unique_values [])))%M.

(** Body of the inner loop of [_count_value_occurrences]. *)
Definition count_value (i : nat) (row : list string) : M unit :=
  (value <- getsr (fun _ => index row i) ;;
   seen <- getsr (fun s => dict_lookup (value_occurrences s) i) ;;
   target <- getsr (fun s => dict_lookup (value_occurrences s) i) ;;
   modify (fun s =>
     set_value_occurrences
       (dict_set (value_occurrences s) i
          (dict_set target value (dict_get_default seen value 0 + 1)%Z))
       s))%M.

(** Body of the outer loop of [_count_value_occurrences]. *)
Definition count_values_of (i : nat) : M unit :=
  (modify (fun s =>
     set_value_occurrences (dict_set (value_occurrences s) i []) s) ;;
   rows <- gets attributes ;;
   for_each rows (count_value i))%M.

(** [_count_value_occurrences] *)
Definition _count_value_occurrences : M unit :=
  (modify (set_value_occurrences []) ;;
   row0 <- getsr (fun s => index (attributes s) 0) ;;
   for_each (seq 0 (length row0)) count_values_of)%M.

(** Body of the loop of [_calculate_decision_counts]. *)
Definition count_decision (d : string) : M unit :=
  modify (fun s =>
    set_decision_counts
      (dict_set (decision_counts s) d
         (dict_get_default (decision_counts s) d 0 + 1)%Z)
      s).

(** [_calculate_decision_counts] *)
Definition _calculate_decision_counts : M unit :=
  (modify (set_decision_counts []) ;;
   ds <- gets decisions ;;
   for_each ds count_decision)%M.

(** Body of the inner loop of [_calculate_attribute_decision_counts]. *)
Definition count_value_decision (i : nat) (vd : string * string) : M unit :=
  (let value := fst vd in
   let decision := snd vd in
   by_value <- getsr (fun s => dict_lookup (attribute_decision_counts s) i) ;;
   (if dict_mem by_value value then ret tt
    else modify (fun s =>
      set_attribute_decision_counts
        (dict_set (attribute_decision_counts s) i
           (dict_set by_value value [])) s)) ;;
   by_value' <- getsr (fun s => dict_lookup (attribute_decision_counts s) i) ;;
   by_label <- getsr (fun _ => dict_lookup by_value' value) ;;
   modify (fun s =>
     set_attribute_decision_counts
       (dict_set (attribute_decision_counts s) i
          (dict_set by_value' value
             (dict_set by_label decision
                (dict_get_default by_label decision 0 + 1)%Z))) s))%M.

(** Body of the outer loop of [_calculate_attribute_decision_counts]. *)
Definition count_decisions_of (i : nat) : M unit :=
  (modify (fun s =>
     set_attribute_decision_counts
       (dict_set (attribute_decision_counts s) i []) s) ;;
   col <- getsr (fun s => rmap (fun row => index row i) (attributes s)) ;;
   ds <- gets decisions ;;
   for_each (combine col ds) (count_value_decision i))%M.

(** [_calculate_attribute_decision_counts] *)
Definition _calculate_attribute_decision_counts : M unit :=
  (modify (set_attribute_decision_counts []) ;;
   row0 <- getsr (fun s => index (attributes s) 0) ;;
   for_each (seq 0 (length row0)) count_decisions_of)%M.

(** ** Statistics *)

(** [math.log2] *)
Definition log2 (x : R) : R := (ln x / ln 2)%R.

(** [x > y] and [x == y] on floats. *)
Definition Rgtb (x y : R) : bool := if Rgt_dec x y then true else false.
Definition Reqb (x y : R) : bool := if Req_dec_T x y then true else false.

(** [_calculate_entropy_from_counts]; no path of it raises. *)
Definition _calculate_entropy_from_counts (decision_counts : dict string Z)
  : R :=
  let total := sum_values decision_counts in
  if (total =? 0)%Z then 0%R
  else
    fold_left
      (fun entropy count =>
         let probability := (IZR count / IZR total)%R in
         if Rgtb probability 0 then (entropy - probability * log2 probability)%R
         else entropy)
      (dict_values decision_counts) 0%R.

(** [calculate_entropy] *)
Definition calculate_entropy (self : DecisionTree) : R :=
  _calculate_entropy_from_counts (decision_counts self).

(** Body of the loop of [calculate_conditional_entropy]; [total] is
    [len(self.decisions)]. *)
Definition conditional_entropy_step (total : Z) (conditional_entropy : R)
  (item : string * dict string Z) : result R :=
  let decision_counts := snd item in
  if (total =? 0)%Z then Raise ZeroDivisionError
  else
    let value_probability :=
      (IZR (sum_values decision_counts) / IZR total)%R in
    let value_entropy := _calculate_entropy_from_counts decision_counts in
    Ok (conditional_entropy + value_probability * value_entropy)%R.

(** [calculate_conditional_entropy] *)
Definition calculate_conditional_entropy (self : DecisionTree)
  (attribute_index : nat) : result R :=
  let total := Z.of_nat (length (decisions self)) in
  (by_value <- dict_lookup (attribute_decision_counts self) attribute_index ;;
   rfold (conditional_entropy_step total) by_value 0%R)%res.

(** [calculate_information_gain] *)
Definition calculate_information_gain (self : DecisionTree)
  (attribute_index : nat) : result R :=
  (let entropy := calculate_entropy self in
   conditional <- calculate_conditional_entropy self attribute_index ;;
   Ok (entropy - conditional)%R)%res.

(** [calculate_split_information] *)
Definition calculate_split_information (self : DecisionTree)
  (attribute_index : nat) : result R :=
  (value_counts <- dict_lookup (value_occurrences self) attribute_index ;;
   Ok (_calculate_entropy_from_counts value_counts))%res.

(** [calculate_gain_ratio] *)
Definition calculate_gain_ratio (self : DecisionTree) (attribute_index : nat)
  : result R :=
  (information_gain <- calculate_information_gain self attribute_index ;;
   split_info <- calculate_split_information self attribute_index ;;
   if Reqb split_info 0 then Ok 0%R
   else Ok (information_gain / split_info)%R)%res.

(** ** The tree builder *)

(** [attr in used_attributes] *)
Definition in_used (used_attributes : list nat) (attr : nat) : bool :=
  existsb (Nat.eqb attr) used_attributes.

(** One round of the candidate loop of [_build_tree], on the pair
    [(best_attr, best_gain)]. *)
Definition select_step (self : DecisionTree) (used_attributes : list nat)
  (best : option nat * R) (attr : nat) : result (option nat * R) :=
  if in_used used_attributes attr then Ok best
  else
    (gain <- calculate_gain_ratio self attr ;;
     if Rgtb gain (snd best) then Ok (Some attr, gain) else Ok best)%res.

(** The candidate loop of [_build_tree]: the pair [(best_attr, best_gain)]
    after the loop over the keys of [unique_attributes_values]. *)
Definition select_best (self : DecisionTree) (used_attributes : list nat)
  : result (option nat * R) :=
  rfold (select_step self used_attributes)
        (dict_keys (unique_attributes_values self)) (None, (-1)%R).

(** [DecisionTreeNode(name=f"Decision: {d}", decision=d, parent=parent)] *)
Definition decision_node (d : string) : DecisionTreeNode :=
  mkNode ("Decision: " ++ d)%string None (Some d) [].

(** [max(set(decisions), key=decisions.count)] *)
Definition majority `{PySet} (decisions : list string) : result string :=
  py_max (set_iter decisions) (count decisions).

(** [[i for i in data_indices if self.attributes[i][best_attr] == value]] *)
Definition subset_indices (self : DecisionTree) (data_indices : list nat)
  (best_attr : nat) (value : string) : result (list nat) :=
  rfilter
    (fun i =>
       (row <- index (attributes self) i ;;
        x <- index row best_attr ;;
        Ok (String.eqb x value))%res)
    data_indices.

(** The body of [_build_tree], with the recursive call as the parameter
    [recur]. *)
Definition build_body `{PySet}
  (recur : list nat -> list nat -> result DecisionTreeNode)
  (self : DecisionTree) (data_indices used_attributes : list nat)
  : result DecisionTreeNode :=
  (decisions <- rmap (index (decisions self)) data_indices ;;
   if (length (set_iter decisions) =? 1)%nat then
     d0 <- index decisions 0 ;;
     Ok (decision_node d0)
   else
     best <- select_best self used_attributes ;;
     match fst best with
     | None =>
         m <- majority decisions ;;
         Ok (decision_node m)
     | Some best_attr =>
         values <- dict_lookup (value_occurrences self) best_attr ;;
         kids <- rmap
           (fun value =>
              subset <- subset_indices self data_indices best_attr value ;;
              match subset with
              | _ :: _ =>
                  child <- recur subset (best_attr :: used_attributes) ;;
                  Ok (set_name child (value ++ arrow ++ name child)%string)
              | [] =>
                  m <- majority decisions ;;
                  Ok (mkNode (value ++ arrow ++ "Decision: " ++ m)%string
                             None (Some m) [])
              end)
           (dict_keys values) ;;
         Ok (mkNode ("Attribute a" ++ str (best_attr + 1))%string
                    (Some best_attr) None kids)
     end)%res.

(** [_build_tree] with a bound on the depth of the recursion. *)
Fixpoint build_tree_budget `{PySet} (budget : nat) (self : DecisionTree)
  (data_indices used_attributes : list nat) : result DecisionTreeNode :=
  match budget with
  | O => Diverge
  | S budget' =>
      build_body (build_tree_budget budget' self) self data_indices
                 used_attributes
  end.

(** [_build_tree]: every recursive call adds a key of
    [unique_attributes_values] to [used_attributes], so one more level than
    there are keys is enough: any larger budget gives the same result
    ([build_tree_budget_stable]), the function obeys the equation of the
    Python one ([build_tree_unfold]) and the budget is never used up
    ([build_tree_never_diverges]). *)
Definition _build_tree `{PySet} (self : DecisionTree)
  (data_indices used_attributes : list nat) : result DecisionTreeNode :=
  build_tree_budget (S (length (unique_attributes_values self))) self
                    data_indices used_attributes.

(** [load_data], from the rows read from the file (one list of fields per
    line). *)
Definition load_data `{PySet} (rows : list (list string)) : M unit :=
  (modify (set_data rows) ;;
   modify (fun s => set_attributes (map (@removelast string) (data s)) s) ;;
   ds <- getsr (fun s => rmap (@index_last string) (data s)) ;;
   modify (set_decisions ds) ;;
   _count_unique_attributes_values ;;
   _count_value_occurrences ;;
   _calculate_decision_counts ;;
   _calculate_attribute_decision_counts ;;
   root <- getsr (fun s => _build_tree s (seq 0 (length (decisions s))) []) ;;
   modify (set_tree_root (Some root)))%M.

(** ** The lines of the file *)

(** [c.isspace()] for a character below 256: the controls 9 to 13 and 28 to
    31, the space, the next-line control 133 and the no-break space 160. *)
Definition isspace (c : ascii) : bool :=
  let n := nat_of_ascii c in
  ((9 <=? n) && (n <=? 13)) || ((28 <=? n) && (n <=? 32))
  || (n =? 133) || (n =? 160).

(** [s.lstrip()] *)
Fixpoint lstrip (s : string) : string :=
  match s with
  | EmptyString => EmptyString
  | String c s' => if isspace c then lstrip s' else s
  end.

(** [s.rstrip()] *)
Fixpoint rstrip (s : string) : string :=
  match s with
  | EmptyString => EmptyString
  | String c s' =>
      match rstrip s' with
      | EmptyString => if isspace c then EmptyString else String c EmptyString
      | String c' t => String c (String c' t)
      end
  end.

(** [s.strip()] *)
Definition strip (s : string) : string := rstrip (lstrip s).

(** The piece before the first separator, and the pieces after it. *)
Fixpoint split_pieces (sep : ascii) (s : string) : string * list string :=
  match s with
  | EmptyString => (EmptyString, [])
  | String c s' =>
      let (piece, rest) := split_pieces sep s' in
      if Ascii.eqb c sep then (EmptyString, piece :: rest)
      else (String c piece, rest)
  end.

(** [s.split(sep)] for a separator of one character. *)
Definition str_split (sep : ascii) (s : string) : list string :=
  let (piece, rest) := split_pieces sep s in piece :: rest.

(** [line.strip().split(",")] *)
Definition parse_line (line : string) : list string :=
  str_split "," (strip line).

(** [[line.strip().split(",") for line in file.readlines()]] *)
Definition read_rows (lines : list string) : list (list string) :=
  map parse_line lines.

(** [load_data], from the lines that [file.readlines()] returns. *)
Definition load_file `{PySet} (lines : list string) : M unit :=
  load_data (read_rows lines).

(** ** The caller in [main.py] *)

(** One round of [max(keys, key=calculate_gain_ratio)] in [main]: the key of
    the element is computed, and the element replaces the best one so far
    when its key is larger. *)
Definition max_gain_step (self : DecisionTree) (best : nat * R) (attr : nat)
  : result (nat * R) :=
  (gain <- calculate_gain_ratio self attr ;;
   Ok (if Rgtb gain (snd best) then (attr, gain) else best))%res.

(** [max(dt.unique_attributes_values.keys(),
         key=lambda x: dt.calculate_gain_ratio(x))] of [main]. *)
Definition main_best_attr (self : DecisionTree) : result nat :=
  match dict_keys (unique_attributes_values self) with
  | [] => Raise ValueError
  | attr :: rest =>
      (gain <- calculate_gain_ratio self attr ;;
       best <- rfold (max_gain_step self) rest (attr, gain) ;;
       Ok (fst best))%res
  end.

(** ** Closed forms used in the statements *)

(** The values of attribute [i], row by row. *)
Definition column (rows : list (list string)) (i : nat) : list string :=
  map (fun row => nth i row EmptyString) rows.

(** The labels, row by row. *)
Definition labels (rows : list (list string)) : list string :=
  map (fun row => last row EmptyString) rows.

(** The distinct members of a list, in order of first occurrence. *)
Definition first_seen_step (acc : list string) (x : string) : list string :=
  if existsb (String.eqb x) acc then acc else acc ++ [x].

Definition first_seen (l : list string) : list string :=
  fold_left first_seen_step l [].

(** One counting step [d[x] = d.get(x, 0) + 1] and the table it builds. *)
Definition tally_step (d : dict string Z) (x : string) : dict string Z :=
  dict_set d x (dict_get_default d x 0 + 1)%Z.

Definition tally (xs : list string) : dict string Z :=
  fold_left tally_step xs [].

(** The same, one level deeper: label counts per attribute value. *)
Definition tally2_step (d : dict string (dict string Z)) (p : string * string)
  : dict string (dict string Z) :=
  dict_set d (fst p) (tally_step (dict_get_default d (fst p) []) (snd p)).

Definition tally2 (ps : list (string * string)) : dict string (dict string Z) :=
  fold_left tally2_step ps [].

(** [c in s] for a character [c]. *)
Fixpoint has_char (c : ascii) (s : string) : bool :=
  match s with
  | EmptyString => false
  | String c' s' => Ascii.eqb c' c || has_char c s'
  end.

(** [s.count(c)] for a character [c]. *)
Fixpoint count_char (c : ascii) (s : string) : nat :=
  match s with
  | EmptyString => 0
  | String c' s' => (if Ascii.eqb c' c then 1 else 0) + count_char c s'
  end.

(** A line of whitespace only. *)
Definition blank (line : string) : bool :=
  forallb isspace (list_ascii_of_string line).

(** The line that holds the fields of a row: [",".join(row) + "\n"]. *)
Definition line_of (row : list string) : string :=
  (String.concat "," row ++ String (ascii_of_nat 10) EmptyString)%string.

(** Number of attribute values of the first row. *)
Definition n_attributes (rows : list (list string)) : nat :=
  length (removelast (hd [] rows)).

(** The object after the four counting passes over [rows]. *)
Definition tables `{PySet} (rows : list (list string))
  (root : option DecisionTreeNode) : DecisionTree :=
  let attrs := map (@removelast string) rows in
  let n := n_attributes rows in
  {| tree_root := root;
     data := rows;
     attributes := attrs;
     decisions := labels rows;
     unique_attributes_values :=
       map (fun i => (i, Z.of_nat (length (set_iter (column attrs i)))))
           (seq 0 n);
     value_occurrences := map (fun i => (i, tally (column attrs i))) (seq 0 n);
     decision_counts := tally (labels rows);
     attribute_decision_counts :=
       map (fun i => (i, tally2 (combine (column attrs i) (labels rows))))
           (seq 0 n) |}.

(** A table the loader accepts: at least one row, every row with a label and
    with as many fields as the first. *)
Definition wf_rows (rows : list (list string)) : bool :=
  match rows with
  | [] => false
  | row0 :: _ =>
      (1 <=? length row0)%nat
      && forallb (fun row => (length row =? length row0)%nat) rows
  end.

(** Attribute indices tested along each root-to-leaf path. *)
Fixpoint paths (t : DecisionTreeNode) : list (list nat) :=
  match t with
  | mkNode _ a _ kids =>
      let here := match a with Some i => [i] | None => [] end in
      match kids with
      | [] => [here]
      | _ :: _ => map (app here) (flat_map paths kids)
      end
  end.

(** Number of edges on the longest root-to-leaf path. *)
Fixpoint depth (t : DecisionTreeNode) : nat :=
  match t with
  | mkNode _ _ _ kids =>
      fold_right (fun kid d => Nat.max (S (depth kid)) d) 0%nat kids
  end.

(** The nodes of a tree, root first. *)
Fixpoint nodes (t : DecisionTreeNode) : list DecisionTreeNode :=
  t :: flat_map nodes (children t).

(** The labels of the rows whose attribute value is [v], given the pairs
    [(value, label)]. *)
Definition labels_of (v : string) (ps : list (string * string)) : list string :=
  map snd (filter (fun p => (fst p =? v)%string) ps).

(** Every stored count is a positive integer. *)
Definition all_positive {K : Type} (d : dict K Z) : Prop :=
  Forall (fun c => (0 < c)%Z) (dict_values d).

(** The gain ratio of an attribute as a number (0 where the call raises). *)
Definition gain_ratio (self : DecisionTree) (attr : nat) : R :=
  match calculate_gain_ratio self attr with
  | Ok g => g
  | _ => 0%R
  end.

(** How [build_body] makes the child for one branch value. *)
Definition child_of `{PySet}
  (recur : list nat -> list nat -> result DecisionTreeNode)
  (self : DecisionTree) (data_indices used_attributes : list nat)
  (decisions : list string) (best_attr : nat)
  (value : string) (kid : DecisionTreeNode) : Prop :=
  exists subset,
    subset_indices self data_indices best_attr value = Ok subset /\
    ((subset = [] /\
      exists m, majority decisions = Ok m /\
        kid = mkNode (value ++ arrow ++ "Decision: " ++ m)%string
                     None (Some m) [])
     \/
     (subset <> [] /\
      exists child, recur subset (best_attr :: used_attributes) = Ok child /\
        kid = set_name child (value ++ arrow ++ name child)%string)).

(** Candidates still open to [select_best]. *)
Definition open_attributes (self : DecisionTree) (used_attributes : list nat)
  : list nat :=
  filter (fun attr => negb (in_used used_attributes attr))
         (dict_keys (unique_attributes_values self)).

(** What the claims ask of one node of a tree built from [rows]: an
    attribute node tests an attribute of the table and has one child per
    distinct value of that attribute, each named after its value; any other
    node is a leaf whose label occurs in the table. *)
Definition node_ok (rows : list (list string)) (n : DecisionTreeNode) : Prop :=
  match attribute_index n with
  | Some a =>
      decision n = None /\ (a < n_attributes rows)%nat /\
      Forall2 (fun value kid =>
                 exists rest, name kid = (value ++ arrow ++ rest)%string)
              (first_seen (column (map (@removelast string) rows) a))
              (children n)
  | None =>
      children n = [] /\
      exists d, decision n = Some d /\ In d (labels rows)
  end.

(** The attributes [select_best] picks one after the other, each added to
    the used ones before the next round; at most [k] of them. *)
Fixpoint selection_order (k : nat) (self : DecisionTree) (used : list nat)
  : list nat :=
  match k with
  | O => []
  | S k' =>
      match select_best self used with
      | Ok (Some b, _) => b :: selection_order k' self (b :: used)
      | _ => []
      end
  end.

(** [a] is preferred to [b]: a larger gain ratio, or the same and a smaller
    index. *)
Definition preferred (self : DecisionTree) (a b : nat) : Prop :=
  (gain_ratio self a > gain_ratio self b)%R \/
  (gain_ratio self a = gain_ratio self b /\ (a < b)%nat).

(** ** Tables used as examples *)

(** The four-row table of the end-to-end scenario. *)
Definition scenario_rows : list (list string) :=
  [["a"; "x"; "yes"]; ["a"; "y"; "no"]; ["b"; "x"; "no"]; ["b"; "y"; "no"]]%string.

(** The label is decided by attributes 0 and 2 together; attribute 1 is
    constant. *)
Definition xor_rows : list (list string) :=
  [["x"; "p"; "u"; "yes"]; ["x"; "p"; "v"; "no"];
   ["y"; "p"; "u"; "no"]; ["y"; "p"; "v"; "yes"]]%string.

(** Attribute 1 has the value [y] in the last row only, and the first three
    rows carry [yes] once and [no] twice. *)
Definition vote_rows : list (list string) :=
  [["a"; "x"; "yes"]; ["a"; "x"; "no"]; ["a"; "x"; "no"];
   ["b"; "y"; "yes"]]%string.

(** Two rows that agree on the only attribute and differ in the label. *)
Definition tie_rows : list (list string) :=
  [["a"; "yes"]; ["a"; "no"]]%string.

(** Shannon entropy in bits of a table of counts, as the formula reads:
    minus the sum of [(c/T) * log2 (c/T)] over the counts [c > 0], for the
    total [T] of the counts. *)
Definition shannon_entropy (counts : dict string Z) : R :=
  let T := sum_values counts in
  (- fold_right
       (fun c acc => (IZR c / IZR T * log2 (IZR c / IZR T) + acc)%R) 0%R
       (filter (fun c => (0 <? c)%Z) (dict_values counts)))%R.

(** The rows with the given indices, as a table of their own. *)
Definition restrict (rows : list (list string)) (idx : list nat)
  : list (list string) :=
  map (fun i => nth i rows []) idx.

(** The gain ratio of an attribute with every statistic recomputed over the
    rows [idx] only: the engine run on the tables of the restricted table. *)
Definition subset_gain_ratio `{PySet} (rows : list (list string))
  (idx : list nat) (attr : nat) : result R :=
  calculate_gain_ratio (tables (restrict rows idx) None) attr.

(** The shape of a tree with the attribute tested at each node ([shape]):
    names and decisions are left out. *)
Fixpoint skeleton (t : DecisionTreeNode) : shape :=
  match t with
  | mkNode _ a _ kids => Shape a (map skeleton kids)
  end.

(** The sum of [f x] over the members [x] of a list. *)
Definition Rsum {A : Type} (f : A -> R) (l : list A) : R :=
  fold_right (fun x acc => (f x + acc)%R) 0%R l.

(** * Properties *)

(** ** Induction on trees *)

Lemma DecisionTreeNode_ind (P : DecisionTreeNode -> Prop) :
  (forall s a d kids, Forall P kids -> P (mkNode s a d kids)) ->
  forall t, P t.
Proof.
  intros step. fix IH 1. intros [s a d kids]. apply step.
  induction kids as [|kid kids IHkids]; constructor; [apply IH | exact IHkids].
Qed.

(** ** Dictionaries *)

Section DictFacts.
Context {K V : Type} `{Key K}.

Lemma key_eqb_refl (k : K) : key_eqb k k = true.
Proof. now apply key_eqb_eq. Qed.

Lemma key_eqb_neq (k k' : K) : k <> k' -> key_eqb k k' = false.
Proof.
  intros Hne. destruct (key_eqb k k') eqn:E; [|reflexivity].
  apply key_eqb_eq in E. contradiction.
Qed.

Lemma dict_get_set_same (d : dict K V) k v :
  dict_get (dict_set d k v) k = Some v.
Proof.
  induction d as [|[k' v'] d IH]; simpl.
  - now rewrite key_eqb_refl.
  - destruct (key_eqb k k') eqn:E; simpl; rewrite E; auto.
Qed.

Lemma dict_get_set_other (d : dict K V) k k' v :
  k <> k' -> dict_get (dict_set d k v) k' = dict_get d k'.
Proof.
  intros Hne. induction d as [|[k0 v0] d IH]; simpl.
  - rewrite key_eqb_neq; auto.
  - destruct (key_eqb k k0) eqn:E; simpl.
    + apply key_eqb_eq in E. subst k0.
      rewrite key_eqb_neq; auto.
    + now rewrite IH.
Qed.

Lemma dict_set_set (d : dict K V) k v v' :
  dict_set (dict_set d k v) k v' = dict_set d k v'.
Proof.
  induction d as [|[k0 v0] d IH]; simpl.
  - now rewrite key_eqb_refl.
  - destruct (key_eqb k k0) eqn:E; simpl; rewrite E; [reflexivity|].
    now rewrite IH.
Qed.

Lemma dict_set_get_id (d : dict K V) k v :
  dict_get d k = Some v -> dict_set d k v = d.
Proof.
  induction d as [|[k0 v0] d IH]; simpl; [discriminate|].
  destruct (key_eqb k k0) eqn:E.
  - now intros [= ->].
  - intros Hg. now rewrite IH.
Qed.

Lemma dict_get_None_keys (d : dict K V) k :
  dict_get d k = None <-> ~ In k (dict_keys d).
Proof.
  induction d as [|[k0 v0] d IH]; simpl.
  - tauto.
  - destruct (key_eqb k k0) eqn:E.
    + apply key_eqb_eq in E. subst. split; [discriminate|]. intros Hn.
      exfalso. apply Hn. now left.
    + rewrite IH. split.
      * intros Hn [Heq|Hin]; [|tauto]. subst.
        now rewrite key_eqb_refl in E.
      * tauto.
Qed.

Lemma dict_get_Some_In (d : dict K V) k v :
  dict_get d k = Some v -> In (k, v) d.
Proof.
  induction d as [|[k0 v0] d IH]; simpl; [discriminate|].
  destruct (key_eqb k k0) eqn:E.
  - apply key_eqb_eq in E. subst. intros [= ->]. now left.
  - auto.
Qed.

Lemma dict_set_fresh (d : dict K V) k v :
  dict_get d k = None -> dict_set d k v = d ++ [(k, v)].
Proof.
  induction d as [|[k0 v0] d IH]; simpl; [reflexivity|].
  destruct (key_eqb k k0) eqn:E; [discriminate|].
  intros Hg. now rewrite IH.
Qed.

Lemma dict_get_app (d1 d2 : dict K V) k :
  dict_get (d1 ++ d2) k =
  match dict_get d1 k with Some v => Some v | None => dict_get d2 k end.
Proof.
  induction d1 as [|[k0 v0] d1 IH]; simpl; [reflexivity|].
  destruct (key_eqb k k0); auto.
Qed.

Lemma dict_keys_set (d : dict K V) k v :
  dict_keys (dict_set d k v) =
  if dict_mem d k then dict_keys d else dict_keys d ++ [k].
Proof.
  unfold dict_mem, dict_keys.
  induction d as [|[k0 v0] d IH]; simpl; [reflexivity|].
  destruct (key_eqb k k0) eqn:E; simpl; [reflexivity|].
  rewrite IH. destruct (dict_get d k); reflexivity.
Qed.

Lemma dict_keys_NoDup_set (d : dict K V) k v :
  NoDup (dict_keys d) -> NoDup (dict_keys (dict_set d k v)).
Proof.
  intros Hnd. rewrite dict_keys_set. unfold dict_mem.
  destruct (dict_get d k) eqn:E; [exact Hnd|].
  apply dict_get_None_keys in E.
  apply NoDup_app; [exact Hnd | constructor; [tauto | constructor] |].
  intros x Hx [<-|[]]. contradiction.
Qed.
End DictFacts.

(** ** Counting tables *)

Lemma fold_left_Zadd (l : list Z) (a : Z) :
  fold_left Z.add l a = (a + fold_left Z.add l 0)%Z.
Proof.
  revert a. induction l as [|x l IH]; intros a; simpl; [lia|].
  rewrite (IH (a + x)%Z), (IH x). lia.
Qed.

Lemma sum_values_cons {K : Type} (k : K) (v : Z) (d : dict K Z) :
  sum_values ((k, v) :: d) = (v + sum_values d)%Z.
Proof. unfold sum_values. simpl. now rewrite fold_left_Zadd. Qed.

Lemma sum_values_set (d : dict string Z) k v :
  sum_values (dict_set d k v) = (sum_values d - dict_get_default d k 0 + v)%Z.
Proof.
  unfold dict_get_default.
  induction d as [|[k0 v0] d IH]; simpl.
  - rewrite sum_values_cons. unfold sum_values. simpl. lia.
  - destruct (k =? k0)%string eqn:E; rewrite !sum_values_cons; [lia|].
    rewrite IH. lia.
Qed.

Lemma sum_values_tally_step (d : dict string Z) x :
  sum_values (tally_step d x) = (sum_values d + 1)%Z.
Proof. unfold tally_step. rewrite sum_values_set. lia. Qed.

Lemma sum_values_tally_fold (xs : list string) (d : dict string Z) :
  sum_values (fold_left tally_step xs d) =
  (sum_values d + Z.of_nat (length xs))%Z.
Proof.
  revert d. induction xs as [|x xs IH]; intros d; simpl fold_left.
  - simpl. lia.
  - rewrite IH, sum_values_tally_step. simpl length. lia.
Qed.

Lemma sum_values_tally (xs : list string) :
  sum_values (tally xs) = Z.of_nat (length xs).
Proof. unfold tally. now rewrite sum_values_tally_fold. Qed.

Lemma all_positive_get (d : dict string Z) k c :
  all_positive d -> dict_get d k = Some c -> (0 < c)%Z.
Proof.
  unfold all_positive. intros Hall Hg. apply dict_get_Some_In in Hg.
  rewrite Forall_forall in Hall. apply Hall.
  unfold dict_values. now apply (in_map snd) in Hg.
Qed.

Lemma all_positive_set (d : dict string Z) k v :
  all_positive d -> (0 < v)%Z -> all_positive (dict_set d k v).
Proof.
  unfold all_positive, dict_values. intros Hall Hv.
  induction d as [|[k0 v0] d IH]; simpl.
  - constructor; [exact Hv | constructor].
  - inversion Hall; subst.
    destruct (k =? k0)%string; simpl; constructor; auto.
Qed.

Lemma all_positive_tally_step (d : dict string Z) x :
  all_positive d -> all_positive (tally_step d x).
Proof.
  intros Hall. apply all_positive_set; [exact Hall|].
  unfold dict_get_default. destruct (dict_get d x) as [c|] eqn:E; [|lia].
  apply (all_positive_get _ _ _ Hall) in E. lia.
Qed.

Lemma all_positive_tally_fold (xs : list string) (d : dict string Z) :
  all_positive d -> all_positive (fold_left tally_step xs d).
Proof.
  revert d. induction xs as [|x xs IH]; intros d Hd; simpl; [exact Hd|].
  apply IH. now apply all_positive_tally_step.
Qed.

Lemma all_positive_tally (xs : list string) : all_positive (tally xs).
Proof. apply all_positive_tally_fold. constructor. Qed.

Lemma count_cons (xs : list string) (a x : string) :
  count (a :: xs) x = ((if (a =? x)%string then 1 else 0) + count xs x)%Z.
Proof.
  unfold count. simpl. destruct (string_dec a x) as [->|Hne].
  - rewrite String.eqb_refl. lia.
  - apply String.eqb_neq in Hne. rewrite Hne. lia.
Qed.

Lemma count_nonneg (xs : list string) x : (0 <= count xs x)%Z.
Proof. unfold count. lia. Qed.

Lemma count_pos_In (xs : list string) x : (0 < count xs x)%Z <-> In x xs.
Proof.
  unfold count. rewrite (count_occ_In string_dec). lia.
Qed.

Lemma tally_step_get (d : dict string Z) a x :
  dict_get (tally_step d a) x =
  if (a =? x)%string then Some (dict_get_default d x 0 + 1)%Z
  else dict_get d x.
Proof.
  unfold tally_step. destruct (a =? x)%string eqn:E.
  - apply String.eqb_eq in E. subst. apply dict_get_set_same.
  - apply String.eqb_neq in E. now apply dict_get_set_other.
Qed.

Lemma tally_fold_get (xs : list string) (d : dict string Z) x :
  dict_get (fold_left tally_step xs d) x =
  match dict_get d x with
  | Some c => Some (c + count xs x)%Z
  | None => if (0 <? count xs x)%Z then Some (count xs x) else None
  end.
Proof.
  revert d. induction xs as [|a xs IH]; intros d; simpl fold_left.
  - unfold count. simpl. destruct (dict_get d x); [f_equal; lia | reflexivity].
  - rewrite IH, tally_step_get, count_cons. unfold dict_get_default.
    pose proof (count_nonneg xs x) as Hc.
    destruct (a =? x)%string; destruct (dict_get d x) as [c|].
    + f_equal. lia.
    + replace (0 <? 1 + count xs x)%Z with true
        by (symmetry; apply Z.ltb_lt; lia).
      reflexivity.
    + reflexivity.
    + reflexivity.
Qed.

Lemma tally_get (xs : list string) x :
  dict_get (tally xs) x =
  if (0 <? count xs x)%Z then Some (count xs x) else None.
Proof. unfold tally. now rewrite tally_fold_get. Qed.

Lemma tally_get_In (xs : list string) x :
  In x xs -> dict_get (tally xs) x = Some (count xs x).
Proof.
  intros Hin. rewrite tally_get. apply count_pos_In in Hin.
  apply Z.ltb_lt in Hin. now rewrite Hin.
Qed.

Lemma existsb_eqb_In (x : string) (l : list string) :
  existsb (String.eqb x) l = true <-> In x l.
Proof.
  rewrite existsb_exists. split.
  - intros [y [Hin Heq]]. apply String.eqb_eq in Heq. now subst.
  - intros Hin. exists x. split; [exact Hin | apply String.eqb_refl].
Qed.

Lemma first_seen_fold_facts (l acc : list string) :
  NoDup acc ->
  NoDup (fold_left first_seen_step l acc) /\
  (forall x, In x (fold_left first_seen_step l acc) <-> In x acc \/ In x l).
Proof.
  revert acc. induction l as [|a l IH]; intros acc Hnd; simpl.
  - split; [exact Hnd | intros x; tauto].
  - assert (Hnd' : NoDup (first_seen_step acc a)).
    { unfold first_seen_step. destruct (existsb (String.eqb a) acc) eqn:E.
      - exact Hnd.
      - apply NoDup_app; [exact Hnd | constructor; [intros [] | constructor] |].
        intros x Hx [<-|[]]. apply existsb_eqb_In in Hx. congruence. }
    destruct (IH _ Hnd') as [H1 H2]. split; [exact H1|].
    intros x. rewrite H2. unfold first_seen_step.
    destruct (existsb (String.eqb a) acc) eqn:E.
    + apply existsb_eqb_In in E. split; [tauto|].
      intros [Hx|[<-|Hx]]; tauto.
    + rewrite in_app_iff. simpl. tauto.
Qed.

Lemma dict_mem_keys (V : Type) (d : dict string V) (k : string) :
  dict_mem d k = existsb (String.eqb k) (dict_keys d).
Proof.
  unfold dict_mem. induction d as [|[k0 v0] d IH]; simpl; [reflexivity|].
  destruct (k =? k0)%string; simpl; [reflexivity | exact IH].
Qed.

Lemma tally_fold_keys (xs : list string) (d : dict string Z) :
  dict_keys (fold_left tally_step xs d) =
  fold_left first_seen_step xs (dict_keys d).
Proof.
  revert d. induction xs as [|x xs IH]; intros d; simpl; [reflexivity|].
  rewrite IH. f_equal. unfold tally_step, first_seen_step.
  now rewrite dict_keys_set, dict_mem_keys.
Qed.
Lemma first_seen_NoDup (l : list string) : NoDup (first_seen l).
Proof. apply first_seen_fold_facts. constructor. Qed.

Lemma first_seen_In (l : list string) x : In x (first_seen l) <-> In x l.
Proof.
  unfold first_seen.
  destruct (first_seen_fold_facts l [] (@NoDup_nil string)) as [_ H].
  rewrite H. simpl. tauto.
Qed.

Lemma tally_keys (xs : list string) : dict_keys (tally xs) = first_seen xs.
Proof. unfold tally. now rewrite tally_fold_keys. Qed.

Lemma tally2_step_get (d : dict string (dict string Z)) p v :
  dict_get (tally2_step d p) v =
  if (fst p =? v)%string
  then Some (tally_step (dict_get_default d v []) (snd p))
  else dict_get d v.
Proof.
  unfold tally2_step. destruct (fst p =? v)%string eqn:E.
  - apply String.eqb_eq in E. subst. apply dict_get_set_same.
  - apply String.eqb_neq in E. now apply dict_get_set_other.
Qed.

Lemma tally2_fold_get (ps : list (string * string)) d v :
  dict_get (fold_left tally2_step ps d) v =
  match dict_get d v with
  | Some by_label => Some (fold_left tally_step (labels_of v ps) by_label)
  | None =>
      if existsb (fun p => (fst p =? v)%string) ps
      then Some (tally (labels_of v ps))
      else None
  end.
Proof.
  revert d. induction ps as [|p ps IH]; intros d; simpl fold_left.
  - simpl. destruct (dict_get d v); reflexivity.
  - rewrite IH, tally2_step_get. unfold labels_of, dict_get_default. simpl.
    destruct (fst p =? v)%string; simpl.
    + destruct (dict_get d v); reflexivity.
    + destruct (dict_get d v); reflexivity.
Qed.

Lemma tally2_get (ps : list (string * string)) v by_label :
  dict_get (tally2 ps) v = Some by_label ->
  by_label = tally (labels_of v ps) /\ In v (map fst ps).
Proof.
  unfold tally2. rewrite tally2_fold_get. simpl.
  destruct (existsb _ ps) eqn:E; [|discriminate].
  intros [= <-]. split; [reflexivity|].
  apply existsb_exists in E. destruct E as [p [Hin Heq]].
  apply String.eqb_eq in Heq. subst. now apply in_map.
Qed.

Lemma labels_of_length (v : string) (xs ds : list string) :
  length xs = length ds ->
  Z.of_nat (length (labels_of v (combine xs ds))) = count xs v.
Proof.
  unfold labels_of. rewrite length_map. revert ds.
  induction xs as [|x xs IH]; intros [|d ds] Hlen; try discriminate.
  - reflexivity.
  - simpl in Hlen. injection Hlen as Hlen. rewrite count_cons.
    simpl. destruct (x =? v)%string; simpl length; rewrite <- (IH ds Hlen); lia.
Qed.
(** ** The counting passes of [load_data] *)

Lemma index_nth (l : list string) (i : nat) :
  (i < length l)%nat -> index l i = Ok (nth i l EmptyString).
Proof.
  intros Hlt. unfold index.
  destruct (nth_error l i) eqn:E.
  - now rewrite (nth_error_nth _ _ _ E).
  - apply nth_error_None in E. lia.
Qed.

Lemma rmap_index_column (rows : list (list string)) (i : nat) :
  Forall (fun row => (i < length row)%nat) rows ->
  rmap (fun row => index row i) rows = Ok (column rows i).
Proof.
  induction 1 as [|row rows Hrow _ IH]; simpl; [reflexivity|].
  now rewrite (index_nth _ _ Hrow), IH.
Qed.

Lemma set_value_occurrences_same (s : DecisionTree) :
  set_value_occurrences (value_occurrences s) s = s.
Proof. now destruct s. Qed.

Lemma set_decision_counts_same (s : DecisionTree) :
  set_decision_counts (decision_counts s) s = s.
Proof. now destruct s. Qed.

Lemma set_attribute_decision_counts_same (s : DecisionTree) :
  set_attribute_decision_counts (attribute_decision_counts s) s = s.
Proof. now destruct s. Qed.

Lemma count_value_loop (i : nat) (rows : list (list string)) :
  Forall (fun row => (i < length row)%nat) rows ->
  forall (d : dict string Z) (s : DecisionTree),
    dict_get (value_occurrences s) i = Some d ->
    for_each rows (count_value i) s =
    (Ok tt,
     set_value_occurrences
       (dict_set (value_occurrences s) i
          (fold_left tally_step (column rows i) d)) s).
Proof.
  induction 1 as [|row rows Hrow _ IH]; intros d s Hd; simpl.
  - unfold ret. now rewrite (dict_set_get_id _ _ _ Hd), set_value_occurrences_same.
  - unfold bind at 1. unfold count_value at 1.
    unfold bind, getsr, modify, dict_lookup.
    rewrite (index_nth _ _ Hrow), Hd.
    rewrite (IH (tally_step d (nth i row EmptyString))).
    + cbn [value_occurrences set_value_occurrences].
      now rewrite dict_set_set.
    + cbn [value_occurrences set_value_occurrences].
      apply dict_get_set_same.
Qed.

Lemma count_values_of_loop (len a : nat) (s : DecisionTree) :
  (forall k, In k (dict_keys (value_occurrences s)) -> (k < a)%nat) ->
  Forall (fun row => (a + len <= length row)%nat) (attributes s) ->
  for_each (seq a len) count_values_of s =
  (Ok tt,
   set_value_occurrences
     (value_occurrences s ++
      map (fun i => (i, tally (column (attributes s) i))) (seq a len)) s).
Proof.
  revert a s. induction len as [|len IH]; intros a s Hkeys Hrows; simpl.
  - unfold ret. now rewrite app_nil_r, set_value_occurrences_same.
  - unfold bind at 1. unfold count_values_of at 1.
    unfold bind, modify, gets.
    cbn [attributes set_value_occurrences].
    rewrite (count_value_loop a (attributes s)) with (d := []).
    + cbn [value_occurrences set_value_occurrences].
      rewrite dict_set_set.
      assert (Hfresh : dict_get (value_occurrences s) a = None).
      { apply dict_get_None_keys. intros Hin. apply Hkeys in Hin. lia. }
      rewrite (dict_set_fresh _ _ _ Hfresh).
      rewrite IH.
      * cbn [value_occurrences attributes set_value_occurrences].
        now rewrite <- app_assoc.
      * cbn [value_occurrences set_value_occurrences].
        intros k Hin. unfold dict_keys in Hin. rewrite map_app in Hin.
        apply in_app_or in Hin. destruct Hin as [Hin|[<-|[]]]; [|simpl; lia].
        apply Hkeys in Hin. lia.
      * cbn [attributes set_value_occurrences].
        eapply Forall_impl; [|exact Hrows]. simpl. intros; lia.
    + eapply Forall_impl; [|exact Hrows]. simpl. intros; lia.
    + cbn [value_occurrences set_value_occurrences].
      apply dict_get_set_same.
Qed.

Lemma count_decision_loop (ds : list string) (s : DecisionTree) :
  for_each ds count_decision s =
  (Ok tt, set_decision_counts (fold_left tally_step ds (decision_counts s)) s).
Proof.
  revert s. induction ds as [|d ds IH]; intros s; simpl.
  - unfold ret. now rewrite set_decision_counts_same.
  - unfold bind at 1. unfold count_decision at 1. unfold modify.
    now rewrite IH.
Qed.

Lemma count_value_decision_loop (i : nat) (ps : list (string * string)) :
  forall (d : dict string (dict string Z)) (s : DecisionTree),
    dict_get (attribute_decision_counts s) i = Some d ->
    for_each ps (count_value_decision i) s =
    (Ok tt,
     set_attribute_decision_counts
       (dict_set (attribute_decision_counts s) i (fold_left tally2_step ps d))
       s).
Proof.
  induction ps as [|[value decision] ps IH]; intros d s Hd; simpl.
  - unfold ret.
    now rewrite (dict_set_get_id _ _ _ Hd), set_attribute_decision_counts_same.
  - unfold bind at 1. unfold count_value_decision at 1.
    cbn [fst snd]. unfold bind at 1. unfold getsr at 1. unfold dict_lookup at 1.
    rewrite Hd. unfold bind at 1, dict_mem, tally2_step, dict_get_default.
    cbn [fst snd].
    destruct (dict_get d value) as [by_label|] eqn:Ev.
    + unfold ret, bind, getsr, modify, dict_lookup. rewrite Hd, Ev.
      rewrite (IH (dict_set d value (tally_step by_label decision))).
      * cbn [attribute_decision_counts set_attribute_decision_counts].
        now rewrite dict_set_set.
      * cbn [attribute_decision_counts set_attribute_decision_counts].
        apply dict_get_set_same.
    + unfold ret, bind, getsr, modify, dict_lookup.
      cbn [attribute_decision_counts set_attribute_decision_counts].
      rewrite !dict_get_set_same.
      rewrite (IH (dict_set d value (tally_step [] decision))).
      * cbn [attribute_decision_counts set_attribute_decision_counts].
        now rewrite !dict_set_set.
      * cbn [attribute_decision_counts set_attribute_decision_counts].
        rewrite !dict_set_set. apply dict_get_set_same.
Qed.

Lemma count_decisions_of_loop (len a : nat) (s : DecisionTree) :
  (forall k, In k (dict_keys (attribute_decision_counts s)) -> (k < a)%nat) ->
  Forall (fun row => (a + len <= length row)%nat) (attributes s) ->
  for_each (seq a len) count_decisions_of s =
  (Ok tt,
   set_attribute_decision_counts
     (attribute_decision_counts s ++
      map (fun i => (i, tally2 (combine (column (attributes s) i) (decisions s))))
          (seq a len)) s).
Proof.
  revert a s. induction len as [|len IH]; intros a s Hkeys Hrows; simpl.
  - unfold ret. now rewrite app_nil_r, set_attribute_decision_counts_same.
  - unfold bind at 1. unfold count_decisions_of at 1.
    unfold bind, modify, gets, getsr.
    cbn [attributes decisions set_attribute_decision_counts].
    rewrite rmap_index_column
      by (eapply Forall_impl; [|exact Hrows]; simpl; intros; lia).
    rewrite (count_value_decision_loop a _ []).
    + cbn [attribute_decision_counts set_attribute_decision_counts].
      rewrite dict_set_set.
      assert (Hfresh : dict_get (attribute_decision_counts s) a = None).
      { apply dict_get_None_keys. intros Hin. apply Hkeys in Hin. lia. }
      rewrite (dict_set_fresh _ _ _ Hfresh).
      rewrite IH.
      * cbn [attribute_decision_counts attributes decisions
             set_attribute_decision_counts].
        now rewrite <- app_assoc.
      * cbn [attribute_decision_counts set_attribute_decision_counts].
        intros k Hin. unfold dict_keys in Hin. rewrite map_app in Hin.
        apply in_app_or in Hin.
        destruct Hin as [Hin|[<-|[]]]; [|simpl; lia].
        apply Hkeys in Hin. lia.
      * cbn [attributes set_attribute_decision_counts].
        eapply Forall_impl; [|exact Hrows]. simpl. intros; lia.
    + cbn [attribute_decision_counts set_attribute_decision_counts].
      apply dict_get_set_same.
Qed.

Lemma unique_values_loop `{PySet} (rows : list (list string)) (len a : nat)
  (uv : dict nat (list string)) :
  (forall k, In k (dict_keys uv) -> (k < a)%nat) ->
  Forall (fun row => (a + len <= length row)%nat) rows ->
  rfold (unique_values_step rows) (seq a len) uv =
  Ok (uv ++ map (fun i => (i, set_iter (column rows i))) (seq a len)).
Proof.
  revert a uv. induction len as [|len IH]; intros a uv Hkeys Hrows; simpl.
  - now rewrite app_nil_r.
  - unfold unique_values_step at 1.
    rewrite rmap_index_column
      by (eapply Forall_impl; [|exact Hrows]; simpl; intros; lia).
    simpl.
    assert (Hfresh : dict_get uv a = None).
    { apply dict_get_None_keys. intros Hin. apply Hkeys in Hin. lia. }
    rewrite (dict_set_fresh _ _ _ Hfresh), IH.
    + now rewrite <- app_assoc.
    + intros k Hin. unfold dict_keys in Hin. rewrite map_app in Hin.
      apply in_app_or in Hin.
      destruct Hin as [Hin|[<-|[]]]; [|simpl; lia].
      apply Hkeys in Hin. lia.
    + eapply Forall_impl; [|exact Hrows]. simpl. intros; lia.
Qed.

Lemma unique_counts_fold (g : nat -> list string) (len a : nat)
  (d : dict nat Z) :
  (forall k, In k (dict_keys d) -> (k < a)%nat) ->
  fold_left (fun (d : dict nat Z) kv =>
               dict_set d (fst kv) (Z.of_nat (length (snd kv))))
            (map (fun i => (i, g i)) (seq a len)) d =
  d ++ map (fun i => (i, Z.of_nat (length (g i)))) (seq a len).
Proof.
  revert a d. induction len as [|len IH]; intros a d Hkeys; simpl.
  - now rewrite app_nil_r.
  - assert (Hfresh : dict_get d a = None).
    { apply dict_get_None_keys. intros Hin. apply Hkeys in Hin. lia. }
    rewrite (dict_set_fresh _ _ _ Hfresh), IH.
    + now rewrite <- app_assoc.
    + intros k Hin. unfold dict_keys in Hin. rewrite map_app in Hin.
      apply in_app_or in Hin.
      destruct Hin as [Hin|[<-|[]]]; [|simpl; lia].
      apply Hkeys in Hin. lia.
Qed.

(** ** [load_data] up to the tree builder *)

Lemma last_cons (x : string) (xs : list string) (d : string) :
  last (x :: xs) d = last xs x.
Proof.
  revert x d. induction xs as [|y ys IH]; intros x d; [reflexivity|].
  change (last (x :: y :: ys) d) with (last (y :: ys) d).
  now rewrite !IH.
Qed.

Lemma length_removelast_pred (l : list string) :
  length (removelast l) = pred (length l).
Proof.
  induction l as [|x [|y l] IH]; try reflexivity.
  change (removelast (x :: y :: l)) with (x :: removelast (y :: l)).
  simpl length in *. now rewrite IH.
Qed.

Lemma wf_rows_inv (rows : list (list string)) :
  wf_rows rows = true ->
  rows <> [] /\
  Forall (fun row => length row = S (n_attributes rows)) rows.
Proof.
  destruct rows as [|row0 rest]; [discriminate|].
  unfold wf_rows, n_attributes. cbn [hd].
  rewrite andb_true_iff, forallb_forall, Nat.leb_le.
  intros [Hpos Hall]. split; [discriminate|].
  rewrite Forall_forall. intros row Hin. apply Hall in Hin.
  apply Nat.eqb_eq in Hin. rewrite length_removelast_pred. lia.
Qed.

Lemma rmap_index_last (rows : list (list string)) :
  Forall (fun row => row <> []) rows ->
  rmap (@index_last string) rows = Ok (labels rows).
Proof.
  induction 1 as [|row rows Hrow _ IH]; simpl; [reflexivity|].
  rewrite IH. destruct row as [|x xs]; [contradiction|].
  simpl rbind. now rewrite last_cons.
Qed.

Lemma load_data_tables `{PySet} (rows : list (list string))
  (s0 : DecisionTree) :
  wf_rows rows = true ->
  load_data rows s0 =
  match _build_tree (tables rows (tree_root s0)) (seq 0 (length rows)) [] with
  | Ok root => (Ok tt, tables rows (Some root))
  | Raise e => (Raise e, tables rows (tree_root s0))
  | Diverge => (Diverge, tables rows (tree_root s0))
  end.
Proof.
  intros Hwf. destruct (wf_rows_inv rows Hwf) as [Hne Hlen].
  assert (Hattrs : Forall (fun row => length row = n_attributes rows)
                          (map (@removelast string) rows)).
  { rewrite Forall_map. eapply Forall_impl; [|exact Hlen]. simpl.
    intros row Hrow. rewrite length_removelast_pred. lia. }
  assert (Hle : forall a len, (a + len <= n_attributes rows)%nat ->
            Forall (fun row => (a + len <= length row)%nat)
                   (map (@removelast string) rows)).
  { intros a len Hal. eapply Forall_impl; [|exact Hattrs]. simpl.
    intros row Hrow. lia. }
  assert (Hlast : rmap (@index_last string) rows = Ok (labels rows)).
  { apply rmap_index_last. eapply Forall_impl; [|exact Hlen]. simpl.
    intros row Hrow ->. discriminate. }
  assert (Hrow0 : exists row0, index (map (@removelast string) rows) 0 = Ok row0
                               /\ length row0 = n_attributes rows).
  { destruct rows as [|row0 rest]; [contradiction|].
    exists (removelast row0). split; reflexivity. }
  destruct Hrow0 as [row0 [Hrow0 Hn]].
  unfold load_data.
  unfold bind at 1. unfold modify at 1.
  unfold bind at 1. unfold modify at 1.
  unfold bind at 1. unfold getsr at 1.
  cbn [data set_data set_attributes]. rewrite Hlast.
  unfold bind at 1. unfold modify at 1.
  (* unique values *)
  unfold bind at 1. unfold _count_unique_attributes_values.
  unfold bind at 1. unfold getsr at 1.
  cbn [attributes set_decisions set_attributes set_data]. rewrite Hrow0.
  unfold bind at 1. unfold getsr at 1.
  cbn [attributes set_decisions set_attributes set_data]. rewrite Hn.
  rewrite unique_values_loop; [|intros k []|apply Hle; lia].
  unfold modify at 1. rewrite app_nil_l.
  rewrite unique_counts_fold; [|intros k []]. rewrite app_nil_l.
  (* value occurrences *)
  unfold bind at 1. unfold _count_value_occurrences.
  unfold bind at 1. unfold modify at 1.
  unfold bind at 1. unfold getsr at 1.
  cbn [attributes set_decisions set_attributes set_data
       set_unique_attributes_values set_value_occurrences].
  rewrite Hrow0, Hn.
  rewrite count_values_of_loop;
    [|intros k []
     |cbn [attributes set_decisions set_attributes set_data
           set_unique_attributes_values set_value_occurrences];
      apply Hle; lia].
  cbn [attributes value_occurrences set_decisions set_attributes set_data
       set_unique_attributes_values set_value_occurrences].
  rewrite app_nil_l.
  (* decision counts *)
  unfold bind at 1. unfold _calculate_decision_counts.
  unfold bind at 1. unfold modify at 1.
  unfold bind at 1. unfold gets at 1.
  rewrite count_decision_loop.
  cbn [decisions decision_counts set_decisions set_attributes set_data
       set_unique_attributes_values set_value_occurrences set_decision_counts].
  (* attribute decision counts *)
  unfold bind at 1. unfold _calculate_attribute_decision_counts.
  unfold bind at 1. unfold modify at 1.
  unfold bind at 1. unfold getsr at 1.
  cbn [attributes set_decisions set_attributes set_data
       set_unique_attributes_values set_value_occurrences set_decision_counts
       set_attribute_decision_counts].
  rewrite Hrow0, Hn.
  rewrite count_decisions_of_loop;
    [|intros k []
     |cbn [attributes set_decisions set_attributes set_data
           set_unique_attributes_values set_value_occurrences
           set_decision_counts set_attribute_decision_counts];
      apply Hle; lia].
  cbn [attributes decisions attribute_decision_counts set_decisions
       set_attributes set_data set_unique_attributes_values
       set_value_occurrences set_decision_counts
       set_attribute_decision_counts].
  rewrite app_nil_l.
  (* the tree *)
  unfold bind at 1. unfold getsr at 1. unfold modify.
  cbn [decisions set_decisions set_attributes set_data
       set_unique_attributes_values set_value_occurrences set_decision_counts
       set_attribute_decision_counts].
  assert (Hlabels : length (labels rows) = length rows)
    by (unfold labels; apply length_map).
  rewrite Hlabels.
  match goal with
  | |- match _build_tree ?s _ _ with _ => _ end = _ =>
      change s with (tables rows (tree_root s0))
  end.
  destruct (_build_tree _ _ _); reflexivity.
Qed.

(** ** Fallible list traversals *)

Lemma rmap_Ok_Forall2 {A B : Type} (f : A -> result B) (xs : list A)
  (ys : list B) :
  rmap f xs = Ok ys -> Forall2 (fun x y => f x = Ok y) xs ys.
Proof.
  revert ys. induction xs as [|x xs IH]; intros ys; simpl.
  - intros [= <-]. constructor.
  - destruct (f x) as [y| |] eqn:Ex; simpl; try discriminate.
    destruct (rmap f xs) as [ys'| |]; simpl; try discriminate.
    intros [= <-]. constructor; auto.
Qed.

Lemma rmap_Ok_intro {A B : Type} (f : A -> result B) (xs : list A) :
  Forall (fun x => exists y, f x = Ok y) xs -> exists ys, rmap f xs = Ok ys.
Proof.
  induction 1 as [|x xs [y Hy] _ [ys IH]]; simpl.
  - now exists [].
  - rewrite Hy, IH. simpl. now exists (y :: ys).
Qed.

Lemma rmap_ext_in {A B : Type} (f g : A -> result B) (xs : list A) :
  (forall x, In x xs -> f x = g x) -> rmap f xs = rmap g xs.
Proof.
  induction xs as [|x xs IH]; intros Hfg; simpl; [reflexivity|].
  rewrite (Hfg x) by now left.
  rewrite IH; [reflexivity|]. intros y Hy. apply Hfg. now right.
Qed.

Lemma rmap_length {A B : Type} (f : A -> result B) (xs : list A)
  (ys : list B) :
  rmap f xs = Ok ys -> length ys = length xs.
Proof.
  intros Hok. apply rmap_Ok_Forall2 in Hok.
  symmetry. eapply Forall2_length; eauto.
Qed.

Lemma rfilter_Ok_incl {A : Type} (f : A -> result bool) (xs ys : list A) :
  rfilter f xs = Ok ys -> incl ys xs.
Proof.
  revert ys. induction xs as [|x xs IH]; intros ys; simpl.
  - intros [= <-]. apply incl_refl.
  - destruct (f x) as [b| |]; simpl; try discriminate.
    destruct (rfilter f xs) as [ys'| |]; simpl; try discriminate.
    intros [= <-]. specialize (IH _ eq_refl).
    destruct b; [apply incl_cons; [now left|] |]; now apply incl_tl.
Qed.

Lemma rfilter_Ok_intro {A : Type} (f : A -> result bool) (xs : list A) :
  Forall (fun x => exists b, f x = Ok b) xs -> exists ys, rfilter f xs = Ok ys.
Proof.
  induction 1 as [|x xs [b Hb] _ [ys IH]]; simpl.
  - now exists [].
  - rewrite Hb, IH. simpl. eauto.
Qed.

Lemma index_Ok_In {A : Type} (xs : list A) (i : nat) (x : A) :
  index xs i = Ok x -> In x xs.
Proof.
  unfold index. destruct (nth_error xs i) eqn:E; [|discriminate].
  intros [= <-]. eapply nth_error_In; eauto.
Qed.

Lemma index_Ok_lt {A : Type} (xs : list A) (i : nat) :
  (i < length xs)%nat -> exists x, index xs i = Ok x.
Proof.
  intros Hlt. unfold index. destruct (nth_error xs i) eqn:E; [eauto|].
  apply nth_error_None in E. lia.
Qed.

(** ** [max] and the majority label *)

Lemma py_max_fold_In (key : string -> Z) (xs : list string) (x : string) :
  In (fold_left (fun best y => if (key best <? key y)%Z then y else best) xs x)
     (x :: xs).
Proof.
  revert x. induction xs as [|y ys IH]; intros x; simpl; [now left|].
  destruct (key x <? key y)%Z.
  - right. apply IH.
  - destruct (IH x) as [Heq|Hin]; [now left | now right; right].
Qed.

Lemma py_max_In (xs : list string) (key : string -> Z) (m : string) :
  py_max xs key = Ok m -> In m xs.
Proof.
  destruct xs as [|x xs]; simpl; [discriminate|].
  intros [= <-]. apply py_max_fold_In.
Qed.

Lemma majority_In `{PySet} (decs : list string) (m : string) :
  majority decs = Ok m -> In m decs.
Proof.
  unfold majority. intros Hm. apply py_max_In in Hm.
  exact (proj1 (set_iter_In _ _) Hm).
Qed.

Lemma majority_Ok `{PySet} (decs : list string) :
  decs <> [] -> exists m, majority decs = Ok m.
Proof.
  intros Hne. unfold majority, py_max.
  destruct (set_iter decs) as [|x xs] eqn:E; [|eauto].
  destruct decs as [|d ds]; [contradiction|].
  assert (Hin : In d (set_iter (d :: ds))) by (apply set_iter_In; now left).
  rewrite E in Hin. contradiction.
Qed.

Lemma py_max_fold_spec (key : string -> Z) (xs : list string) :
  forall x,
    let m := fold_left (fun best y => if (key best <? key y)%Z then y else best)
                       xs x in
    (key x <= key m)%Z /\
    (forall y, In y xs -> (key y <= key m)%Z) /\
    (m = x \/
     exists l1 l2, xs = l1 ++ m :: l2 /\ (key x < key m)%Z /\
       forall y, In y l1 -> (key y < key m)%Z).
Proof.
  induction xs as [|a xs IH]; intros x; cbn zeta; cbn [fold_left].
  - split; [lia|]. split; [intros y []|]. now left.
  - destruct (key x <? key a)%Z eqn:E.
    + apply Z.ltb_lt in E.
      destruct (IH a) as [H1 [H2 H3]]. cbn zeta in *.
      split; [lia|]. split.
      * intros y [<-|Hy]; [exact H1 | now apply H2].
      * right. destruct H3 as [->|[l1 [l2 [Hl [Hlt Hb]]]]].
        -- exists [], xs. repeat split; auto. intros y [].
        -- exists (a :: l1), l2. split; [now rewrite Hl at 1|].
           split; [lia|]. intros y [<-|Hy]; [exact Hlt | now apply Hb].
    + apply Z.ltb_ge in E.
      destruct (IH x) as [H1 [H2 H3]]. cbn zeta in *.
      split; [exact H1|]. split.
      * intros y [<-|Hy]; [lia | now apply H2].
      * destruct H3 as [Heq|[l1 [l2 [Hl [Hlt Hb]]]]]; [now left|].
        right. exists (a :: l1), l2. split; [now rewrite Hl at 1|].
        split; [exact Hlt|]. intros y [<-|Hy]; [lia | now apply Hb].
Qed.

(** What the majority vote returns: a label of the list that no label of
    the list occurs more often than, the first such label in the iteration
    order of the set. *)
Lemma majority_most_frequent `{PySet} (decs : list string) (m : string) :
  majority decs = Ok m ->
  In m decs /\
  (forall x, In x decs -> (count decs x <= count decs m)%Z) /\
  exists l1 l2,
    set_iter decs = l1 ++ m :: l2 /\
    forall x, In x l1 -> (count decs x < count decs m)%Z.
Proof.
  intros Hm. pose proof (majority_In _ _ Hm) as Hin.
  split; [exact Hin|].
  unfold majority, py_max in Hm.
  destruct (set_iter decs) as [|x xs] eqn:E; [discriminate|].
  injection Hm as Hm.
  destruct (py_max_fold_spec (count decs) xs x) as [H1 [H2 H3]].
  cbn zeta in *. rewrite Hm in *.
  split.
  - intros y Hy. apply (proj2 (set_iter_In _ _)) in Hy. rewrite E in Hy.
    destruct Hy as [<-|Hy]; [exact H1 | now apply H2].
  - destruct H3 as [->|[l1 [l2 [Hl [Hlt Hb]]]]].
    + exists [], xs. split; [reflexivity | intros y []].
    + exists (x :: l1), l2. split; [now rewrite Hl|].
      intros y [<-|Hy]; [exact Hlt | now apply Hb].
Qed.

(** ** The candidate loop *)

Lemma Rgtb_true (x y : R) : Rgtb x y = true <-> (x > y)%R.
Proof. unfold Rgtb. destruct (Rgt_dec x y); split; auto; discriminate. Qed.

Lemma Rgtb_false (x y : R) : Rgtb x y = false <-> (x <= y)%R.
Proof.
  unfold Rgtb. destruct (Rgt_dec x y); split; auto; try discriminate; lra.
Qed.

Lemma Reqb_true (x y : R) : Reqb x y = true <-> x = y.
Proof. unfold Reqb. destruct (Req_dec_T x y); split; auto; discriminate. Qed.

Lemma gain_ratio_Ok (self : DecisionTree) (attr : nat) (g : R) :
  calculate_gain_ratio self attr = Ok g -> gain_ratio self attr = g.
Proof. unfold gain_ratio. now intros ->. Qed.

(** What the loop leaves in [(best_attr, best_gain)]: either the pair it
    started from, or the first candidate that reaches the largest gain. *)
Lemma select_fold_inv (self : DecisionTree) (used : list nat) (l : list nat) :
  forall (acc : option nat * R) (best : option nat) (g : R),
    rfold (select_step self used) l acc = Ok (best, g) ->
    (snd acc <= g)%R /\
    (forall a, In a l -> in_used used a = false ->
       exists ga, calculate_gain_ratio self a = Ok ga /\ (ga <= g)%R) /\
    ((best, g) = acc \/
     exists b l1 l2,
       best = Some b /\ l = l1 ++ b :: l2 /\ in_used used b = false /\
       calculate_gain_ratio self b = Ok g /\ (snd acc < g)%R /\
       forall a, In a l1 -> in_used used a = false ->
         (gain_ratio self a < g)%R).
Proof.
  induction l as [|a l IH]; intros acc best g; simpl.
  - intros [= ->]. split; [simpl; lra|]. split; [intros a []|]. now left.
  - unfold select_step at 1.
    destruct (in_used used a) eqn:Eu; simpl.
    + intros Hok. destruct (IH _ _ _ Hok) as [Hle [Hall Hsel]].
      split; [exact Hle|]. split.
      * intros x [<-|Hx] Hux; [congruence | now apply Hall].
      * destruct Hsel as [Hsame|[b [l1 [l2 [Hb [Hl [Hub [Hgb [Hlt Hbefore]]]]]]]]];
          [now left|].
        right. exists b, (a :: l1), l2. repeat split; auto.
        -- now rewrite Hl.
        -- intros x [<-|Hx] Hux; [congruence | now apply Hbefore].
    + destruct (calculate_gain_ratio self a) as [ga| |] eqn:Ega; simpl;
        try discriminate.
      destruct (Rgtb ga (snd acc)) eqn:Egt.
      * apply Rgtb_true in Egt.
        intros Hok. destruct (IH _ _ _ Hok) as [Hle [Hall Hsel]].
        simpl in Hle. split; [lra|]. split.
        -- intros x [<-|Hx] Hux; [exists ga; split; [exact Ega | exact Hle]|].
           now apply Hall.
        -- right.
           destruct Hsel as [Hsame|[b [l1 [l2 [Hb [Hl [Hub [Hgb [Hlt Hbefore]]]]]]]]].
           ++ injection Hsame as -> ->.
              exists a, [], l. repeat split; auto. intros x [].
           ++ exists b, (a :: l1), l2. simpl in Hlt. repeat split; auto.
              ** now rewrite Hl.
              ** lra.
              ** intros x [<-|Hx] Hux; [|now apply Hbefore].
                 rewrite (gain_ratio_Ok _ _ _ Ega). lra.
      * apply Rgtb_false in Egt.
        intros Hok. destruct (IH _ _ _ Hok) as [Hle [Hall Hsel]].
        split; [exact Hle|]. split.
        -- intros x [<-|Hx] Hux; [exists ga; split; [exact Ega | lra]|].
           now apply Hall.
        -- destruct Hsel as [Hsame|[b [l1 [l2 [Hb [Hl [Hub [Hgb [Hlt Hbefore]]]]]]]]];
             [now left|].
           right. exists b, (a :: l1), l2. repeat split; auto.
           ++ now rewrite Hl.
           ++ intros x [<-|Hx] Hux; [|now apply Hbefore].
              rewrite (gain_ratio_Ok _ _ _ Ega). lra.
Qed.

Lemma select_fold_Ok (self : DecisionTree) (used : list nat) (l : list nat) :
  Forall (fun a => exists g, calculate_gain_ratio self a = Ok g) l ->
  forall acc, exists r, rfold (select_step self used) l acc = Ok r.
Proof.
  induction 1 as [|a l [g Hg] _ IH]; intros acc; simpl; [eauto|].
  unfold select_step at 1. rewrite Hg.
  destruct (in_used used a); simpl; [apply IH|].
  destruct (Rgtb g (snd acc)); apply IH.
Qed.

Lemma in_used_false (used : list nat) (a : nat) :
  in_used used a = false <-> ~ In a used.
Proof.
  unfold in_used. split.
  - intros Hf Hin. assert (Ht : existsb (Nat.eqb a) used = true).
    { apply existsb_exists. exists a. split; [exact Hin | apply Nat.eqb_refl]. }
    congruence.
  - intros Hn. destruct (existsb (Nat.eqb a) used) eqn:E; [|reflexivity].
    apply existsb_exists in E. destruct E as [x [Hin Heq]].
    apply Nat.eqb_eq in Heq. subst. contradiction.
Qed.

(** The attribute chosen by the loop. *)
Lemma select_best_Some (self : DecisionTree) (used : list nat) (b : nat)
  (g : R) :
  select_best self used = Ok (Some b, g) ->
  exists l1 l2,
    dict_keys (unique_attributes_values self) = l1 ++ b :: l2 /\
    ~ In b used /\
    calculate_gain_ratio self b = Ok g /\ (-1 < g)%R /\
    (forall a, In a (dict_keys (unique_attributes_values self)) ->
       ~ In a used -> (gain_ratio self a <= g)%R) /\
    (forall a, In a l1 -> ~ In a used -> (gain_ratio self a < g)%R).
Proof.
  unfold select_best. intros Hok.
  destruct (select_fold_inv _ _ _ _ _ _ Hok) as [_ [Hall Hsel]].
  destruct Hsel as [[=]|[b' [l1 [l2 [Hb [Hl [Hub [Hgb [Hlt Hbefore]]]]]]]]].
  injection Hb as <-. exists l1, l2. simpl in Hlt.
  repeat split; auto.
  - now apply in_used_false.
  - intros a Ha Hua. apply in_used_false in Hua.
    destruct (Hall a Ha Hua) as [ga [Hga Hle]].
    now rewrite (gain_ratio_Ok _ _ _ Hga).
  - intros a Ha Hua. apply Hbefore; [exact Ha | now apply in_used_false].
Qed.

(** No attribute is chosen only when no unused attribute has a gain ratio
    above the initial [-1]. *)
Lemma select_best_None (self : DecisionTree) (used : list nat) (g : R) :
  select_best self used = Ok (None, g) ->
  g = (-1)%R /\
  forall a, In a (dict_keys (unique_attributes_values self)) ->
    ~ In a used -> (gain_ratio self a <= -1)%R.
Proof.
  unfold select_best. intros Hok.
  destruct (select_fold_inv _ _ _ _ _ _ Hok) as [_ [Hall Hsel]].
  destruct Hsel as [[= ->]|[b' [l1 [l2 [[=] _]]]]].
  split; [reflexivity|].
  intros a Ha Hua. apply in_used_false in Hua.
  destruct (Hall a Ha Hua) as [ga [Hga Hle]].
  now rewrite (gain_ratio_Ok _ _ _ Hga).
Qed.

(** ** One level of the tree builder *)

Lemma build_body_inv `{PySet}
  (recur : list nat -> list nat -> result DecisionTreeNode)
  (self : DecisionTree) (idx used : list nat) (node : DecisionTreeNode) :
  build_body recur self idx used = Ok node ->
  exists decs,
    rmap (index (decisions self)) idx = Ok decs /\
    ((length (set_iter decs) = 1%nat /\
      exists d0, index decs 0 = Ok d0 /\ node = decision_node d0)
     \/
     (length (set_iter decs) <> 1%nat /\
      exists g m,
        select_best self used = Ok (None, g) /\
        majority decs = Ok m /\ node = decision_node m)
     \/
     (length (set_iter decs) <> 1%nat /\
      exists b g values kids,
        select_best self used = Ok (Some b, g) /\
        dict_lookup (value_occurrences self) b = Ok values /\
        Forall2 (child_of recur self idx used decs b) (dict_keys values) kids /\
        node = mkNode ("Attribute a" ++ str (b + 1))%string (Some b) None kids)).
Proof.
  unfold build_body.
  destruct (rmap (index (decisions self)) idx) as [decs| |]; cbn [rbind];
    try discriminate.
  intros Hok. exists decs. split; [reflexivity|].
  destruct (length (set_iter decs) =? 1)%nat eqn:Epure.
  - apply Nat.eqb_eq in Epure. left. split; [exact Epure|].
    destruct (index decs 0) as [d0| |]; cbn [rbind] in Hok; try discriminate.
    injection Hok as <-. eauto.
  - apply Nat.eqb_neq in Epure. right.
    destruct (select_best self used) as [[[b|] g]| |] eqn:Esel;
      cbn [rbind fst] in Hok; try discriminate.
    + right. split; [exact Epure|].
      destruct (dict_lookup (value_occurrences self) b) as [values| |]
        eqn:Evalues; cbn [rbind] in Hok; try discriminate.
      match type of Hok with
      | rbind (rmap ?f ?l) _ = _ =>
          destruct (rmap f l) as [kids| |] eqn:Ekids; cbn [rbind] in Hok;
          try discriminate
      end.
      injection Hok as <-. exists b, g, values, kids.
      split; [reflexivity|]. split; [exact Evalues|]. split; [|reflexivity].
      apply rmap_Ok_Forall2 in Ekids.
      eapply Forall2_impl; [|exact Ekids]. clear Ekids.
      intros value kid Hkid. unfold child_of. cbv beta in Hkid.
      destruct (subset_indices self idx b value) as [subset| |] eqn:Esub;
        cbn [rbind] in Hkid; try discriminate.
      exists subset. split; [reflexivity|].
      destruct subset as [|i subset].
      * left. split; [reflexivity|].
        destruct (majority decs) as [m| |] eqn:Em; cbn [rbind] in Hkid;
          try discriminate.
        injection Hkid as <-. eauto.
      * right. split; [discriminate|].
        destruct (recur (i :: subset) (b :: used)) as [child| |] eqn:Echild;
          cbn [rbind] in Hkid; try discriminate.
        injection Hkid as <-. eauto.
    + left. split; [exact Epure|].
      destruct (majority decs) as [m| |] eqn:Em; cbn [rbind] in Hok;
        try discriminate.
      injection Hok as <-. eauto.
Qed.

(** The body calls [recur] only with a non-empty subset, and only with the
    chosen attribute added to the used ones. *)
Lemma build_body_ext `{PySet}
  (recur1 recur2 : list nat -> list nat -> result DecisionTreeNode)
  (self : DecisionTree) (idx used : list nat) :
  (forall b g subset,
     select_best self used = Ok (Some b, g) -> subset <> [] ->
     recur1 subset (b :: used) = recur2 subset (b :: used)) ->
  build_body recur1 self idx used = build_body recur2 self idx used.
Proof.
  intros Hrec. unfold build_body.
  destruct (rmap (index (decisions self)) idx) as [decs| |]; cbn [rbind];
    try reflexivity.
  destruct (length (set_iter decs) =? 1)%nat; [reflexivity|].
  destruct (select_best self used) as [[[b|] g]| |] eqn:Esel;
    cbn [rbind fst]; try reflexivity.
  destruct (dict_lookup (value_occurrences self) b) as [values| |];
    cbn [rbind]; try reflexivity.
  f_equal. apply rmap_ext_in. intros value _.
  destruct (subset_indices self idx b value) as [[|i subset]| |];
    cbn [rbind]; try reflexivity.
  rewrite (Hrec b g (i :: subset)); [reflexivity | reflexivity | discriminate].
Qed.

(** *** The recursion budget *)

Lemma in_used_cons (used : list nat) (b a : nat) :
  in_used (b :: used) a = (a =? b)%nat || in_used used a.
Proof. reflexivity. Qed.

Lemma open_filter_le (used : list nat) (b : nat) (l : list nat) :
  (length (filter (fun a => negb (in_used (b :: used) a)) l) <=
   length (filter (fun a => negb (in_used used a)) l))%nat.
Proof.
  induction l as [|a l IH]; cbn [filter length]; [lia|].
  rewrite in_used_cons.
  destruct (a =? b)%nat, (in_used used a); cbn [orb negb length]; lia.
Qed.

Lemma open_attributes_shrink (self : DecisionTree) (used : list nat) (b : nat)
  (g : R) :
  select_best self used = Ok (Some b, g) ->
  (length (open_attributes self (b :: used)) <
   length (open_attributes self used))%nat.
Proof.
  intros Hsel.
  destruct (select_best_Some _ _ _ _ Hsel) as [l1 [l2 [Hkeys [Hnb _]]]].
  unfold open_attributes. rewrite Hkeys. rewrite !filter_app.
  cbn [filter]. rewrite in_used_cons, Nat.eqb_refl.
  apply in_used_false in Hnb. rewrite Hnb. cbn [orb negb].
  rewrite !length_app. cbn [length].
  pose proof (open_filter_le used b l1). pose proof (open_filter_le used b l2).
  lia.
Qed.

(** Any budget above the number of open candidates gives the same result. *)
Lemma build_tree_budget_stable `{PySet} (self : DecisionTree) :
  forall (budget1 budget2 : nat) (idx used : list nat),
    (length (open_attributes self used) < budget1)%nat ->
    (length (open_attributes self used) < budget2)%nat ->
    build_tree_budget budget1 self idx used =
    build_tree_budget budget2 self idx used.
Proof.
  induction budget1 as [|budget1 IH]; intros budget2 idx used H1 H2; [lia|].
  destruct budget2 as [|budget2]; [lia|]. simpl.
  apply build_body_ext. intros b g subset Hsel _.
  pose proof (open_attributes_shrink _ _ _ _ Hsel).
  apply IH; lia.
Qed.

Lemma open_attributes_length (self : DecisionTree) (used : list nat) :
  (length (open_attributes self used) <=
   length (unique_attributes_values self))%nat.
Proof.
  unfold open_attributes, dict_keys.
  etransitivity; [apply filter_length_le|]. now rewrite length_map.
Qed.

(** [_build_tree] unfolds like the Python function. *)
Lemma build_tree_unfold `{PySet} (self : DecisionTree) (idx used : list nat) :
  _build_tree self idx used =
  build_body (_build_tree self) self idx used.
Proof.
  unfold _build_tree at 1.
  change (build_body
            (build_tree_budget (length (unique_attributes_values self)) self)
            self idx used =
          build_body (_build_tree self) self idx used).
  apply build_body_ext. intros b g subset Hsel _. unfold _build_tree.
  pose proof (open_attributes_shrink _ _ _ _ Hsel).
  pose proof (open_attributes_length self used).
  pose proof (open_attributes_length self (b :: used)).
  apply build_tree_budget_stable; lia.
Qed.

(** *** The budget is never used up *)

Lemma rmap_not_Diverge {A B : Type} (f : A -> result B) (xs : list A) :
  (forall x, In x xs -> f x <> Diverge) -> rmap f xs <> Diverge.
Proof.
  induction xs as [|x xs IH]; intros Hf; cbn [rmap]; [discriminate|].
  pose proof (Hf x (or_introl eq_refl)) as Hx.
  destruct (f x) as [y| |]; cbn [rbind]; [|discriminate|contradiction].
  assert (Hxs : rmap f xs <> Diverge) by (apply IH; intros; apply Hf; now right).
  destruct (rmap f xs); cbn [rbind]; [discriminate|discriminate|contradiction].
Qed.

Lemma rfilter_not_Diverge {A : Type} (f : A -> result bool) (xs : list A) :
  (forall x, In x xs -> f x <> Diverge) -> rfilter f xs <> Diverge.
Proof.
  induction xs as [|x xs IH]; intros Hf; cbn [rfilter]; [discriminate|].
  pose proof (Hf x (or_introl eq_refl)) as Hx.
  destruct (f x) as [y| |]; cbn [rbind]; [|discriminate|contradiction].
  assert (Hxs : rfilter f xs <> Diverge)
    by (apply IH; intros; apply Hf; now right).
  destruct (rfilter f xs); cbn [rbind];
    [discriminate|discriminate|contradiction].
Qed.

Lemma rfold_not_Diverge {A S : Type} (body : S -> A -> result S)
  (xs : list A) :
  (forall s x, body s x <> Diverge) ->
  forall s, rfold body xs s <> Diverge.
Proof.
  intros Hbody. induction xs as [|x xs IH]; intros s; cbn [rfold];
    [discriminate|].
  pose proof (Hbody s x) as Hx.
  destruct (body s x); cbn [rbind]; [apply IH|discriminate|contradiction].
Qed.

Lemma index_not_Diverge {A : Type} (xs : list A) (i : nat) :
  index xs i <> Diverge.
Proof. unfold index. destruct (nth_error xs i); discriminate. Qed.

Lemma dict_lookup_not_Diverge {K V : Type} `{Key K} (d : dict K V) (k : K) :
  dict_lookup d k <> Diverge.
Proof. unfold dict_lookup. destruct (dict_get d k); discriminate. Qed.

Lemma majority_not_Diverge `{PySet} (decs : list string) :
  majority decs <> Diverge.
Proof.
  unfold majority, py_max. destruct (set_iter decs); discriminate.
Qed.

Lemma calculate_gain_ratio_not_Diverge (self : DecisionTree) (a : nat) :
  calculate_gain_ratio self a <> Diverge.
Proof.
  unfold calculate_gain_ratio, calculate_information_gain,
    calculate_conditional_entropy, calculate_split_information.
  pose proof (dict_lookup_not_Diverge (attribute_decision_counts self) a)
    as Hl.
  destruct (dict_lookup (attribute_decision_counts self) a) as [by_value| |];
    cbn [rbind]; [|discriminate|contradiction].
  pose proof (rfold_not_Diverge
                (conditional_entropy_step
                   (Z.of_nat (length (decisions self)))) by_value) as Hr.
  match goal with
  | |- rbind (rbind ?r _) _ <> _ =>
      assert (Hr' : r <> Diverge);
      [apply Hr; intros s x; unfold conditional_entropy_step;
       destruct (_ =? 0)%Z; discriminate
      | destruct r; cbn [rbind]; [|discriminate|contradiction] ]
  end.
  pose proof (dict_lookup_not_Diverge (value_occurrences self) a) as Hv.
  destruct (dict_lookup (value_occurrences self) a); cbn [rbind];
    [|discriminate|contradiction].
  destruct (Reqb _ 0); discriminate.
Qed.

Lemma select_best_not_Diverge (self : DecisionTree) (used : list nat) :
  select_best self used <> Diverge.
Proof.
  unfold select_best. apply rfold_not_Diverge. intros best a.
  unfold select_step. destruct (in_used used a); [discriminate|].
  pose proof (calculate_gain_ratio_not_Diverge self a) as Hg.
  destruct (calculate_gain_ratio self a); cbn [rbind];
    [|discriminate|contradiction].
  destruct (Rgtb _ _); discriminate.
Qed.

Lemma subset_indices_not_Diverge (self : DecisionTree) (idx : list nat)
  (b : nat) (value : string) :
  subset_indices self idx b value <> Diverge.
Proof.
  unfold subset_indices. apply rfilter_not_Diverge. intros i _.
  pose proof (index_not_Diverge (attributes self) i) as Hrow.
  destruct (index (attributes self) i) as [row| |]; cbn [rbind];
    [|discriminate|contradiction].
  pose proof (index_not_Diverge row b) as Hx.
  destruct (index row b); cbn [rbind]; [discriminate|discriminate|contradiction].
Qed.

Lemma build_body_not_Diverge `{PySet}
  (recur : list nat -> list nat -> result DecisionTreeNode)
  (self : DecisionTree) (idx used : list nat) :
  (forall b g subset,
     select_best self used = Ok (Some b, g) ->
     recur subset (b :: used) <> Diverge) ->
  build_body recur self idx used <> Diverge.
Proof.
  intros Hrec. unfold build_body.
  pose proof (rmap_not_Diverge (index (decisions self)) idx
                (fun i _ => index_not_Diverge (decisions self) i)) as Hd.
  destruct (rmap (index (decisions self)) idx) as [decs| |]; cbn [rbind];
    [|discriminate|contradiction].
  destruct (length (set_iter decs) =? 1)%nat.
  - pose proof (index_not_Diverge decs 0) as H0.
    destruct (index decs 0); cbn [rbind];
      [discriminate|discriminate|contradiction].
  - pose proof (select_best_not_Diverge self used) as Hs.
    destruct (select_best self used) as [[[b|] g]| |] eqn:Hsel;
      cbn [rbind fst]; [| |discriminate|contradiction].
    + pose proof (dict_lookup_not_Diverge (value_occurrences self) b) as Hv.
      destruct (dict_lookup (value_occurrences self) b) as [values| |];
        cbn [rbind]; [|discriminate|contradiction].
      match goal with
      | |- rbind (rmap ?f ?l) _ <> _ =>
          assert (Hk : rmap f l <> Diverge);
          [apply rmap_not_Diverge; intros value _
          | destruct (rmap f l); cbn [rbind];
            [discriminate|discriminate|contradiction] ]
      end.
      pose proof (subset_indices_not_Diverge self idx b value) as Hsub.
      destruct (subset_indices self idx b value) as [[|i subset]| |];
        cbn [rbind]; [| |discriminate|contradiction].
      * pose proof (majority_not_Diverge decs) as Hm.
        destruct (majority decs); cbn [rbind];
          [discriminate|discriminate|contradiction].
      * pose proof (Hrec b g (i :: subset) eq_refl) as Hc.
        destruct (recur (i :: subset) (b :: used)); cbn [rbind];
          [discriminate|discriminate|contradiction].
    + pose proof (majority_not_Diverge decs) as Hm.
      destruct (majority decs); cbn [rbind];
        [discriminate|discriminate|contradiction].
Qed.

Lemma build_tree_budget_enough `{PySet} (self : DecisionTree) :
  forall (budget : nat) (idx used : list nat),
    (length (open_attributes self used) < budget)%nat ->
    build_tree_budget budget self idx used <> Diverge.
Proof.
  induction budget as [|budget IH]; intros idx used Hlt; [lia|].
  cbn [build_tree_budget]. apply build_body_not_Diverge.
  intros b g subset Hsel.
  pose proof (open_attributes_shrink _ _ _ _ Hsel). apply IH. lia.
Qed.

(** On every object, with whatever tables, [_build_tree] returns a node or
    raises. *)
Lemma build_tree_never_diverges `{PySet} (self : DecisionTree)
  (idx used : list nat) :
  _build_tree self idx used <> Diverge.
Proof.
  unfold _build_tree. apply build_tree_budget_enough.
  pose proof (open_attributes_length self used). lia.
Qed.

(** ** The tables after loading *)

Lemma dict_get_map_seq {V : Type} (f : nat -> V) (len a k : nat) :
  (a <= k < a + len)%nat ->
  dict_get (map (fun i => (i, f i)) (seq a len)) k = Some (f k).
Proof.
  revert a. induction len as [|len IH]; intros a Hk; [lia|].
  cbn [seq map dict_get key_eqb nat_Key].
  destruct (k =? a)%nat eqn:E.
  - apply Nat.eqb_eq in E. now subst.
  - apply Nat.eqb_neq in E. apply IH. lia.
Qed.

Lemma dict_get_map_seq_inv {V : Type} (f : nat -> V) (len a k : nat) (v : V) :
  dict_get (map (fun i => (i, f i)) (seq a len)) k = Some v ->
  v = f k /\ (a <= k < a + len)%nat.
Proof.
  intros Hg. apply dict_get_Some_In in Hg. apply in_map_iff in Hg.
  destruct Hg as [i [[= <- <-] Hin]]. apply in_seq in Hin. auto.
Qed.

Lemma dict_keys_map_seq {V : Type} (f : nat -> V) (len a : nat) :
  dict_keys (map (fun i => (i, f i)) (seq a len)) = seq a len.
Proof.
  unfold dict_keys. rewrite map_map. simpl. apply map_id.
Qed.

Lemma tables_keys `{PySet} (rows : list (list string))
  (root : option DecisionTreeNode) :
  dict_keys (unique_attributes_values (tables rows root)) =
  seq 0 (n_attributes rows).
Proof. unfold tables. cbn [unique_attributes_values]. apply dict_keys_map_seq. Qed.

Lemma tables_value_occurrences `{PySet} (rows : list (list string))
  (root : option DecisionTreeNode) (a : nat) :
  (a < n_attributes rows)%nat ->
  dict_get (value_occurrences (tables rows root)) a =
  Some (tally (column (map (@removelast string) rows) a)).
Proof.
  intros Ha. unfold tables. cbn [value_occurrences].
  apply (dict_get_map_seq
           (fun i => tally (column (map (@removelast string) rows) i))).
  lia.
Qed.

Lemma tables_attribute_decision_counts `{PySet} (rows : list (list string))
  (root : option DecisionTreeNode) (a : nat) :
  (a < n_attributes rows)%nat ->
  dict_get (attribute_decision_counts (tables rows root)) a =
  Some (tally2 (combine (column (map (@removelast string) rows) a)
                        (labels rows))).
Proof.
  intros Ha. unfold tables. cbn [attribute_decision_counts].
  apply (dict_get_map_seq
           (fun i => tally2 (combine (column (map (@removelast string) rows) i)
                                     (labels rows)))).
  lia.
Qed.

Lemma tables_attributes_width `{PySet} (rows : list (list string))
  (root : option DecisionTreeNode) :
  wf_rows rows = true ->
  Forall (fun row => length row = n_attributes rows)
         (attributes (tables rows root)).
Proof.
  intros Hwf. destruct (wf_rows_inv rows Hwf) as [_ Hlen].
  unfold tables. cbn [attributes]. rewrite Forall_map.
  eapply Forall_impl; [|exact Hlen]. simpl.
  intros row Hrow. rewrite length_removelast_pred. lia.
Qed.

(** ** The statistics never raise on loaded tables *)

Lemma conditional_entropy_fold_Ok (total : Z)
  (by_value : dict string (dict string Z)) :
  total <> 0%Z ->
  forall acc : R,
    rfold (conditional_entropy_step total) by_value acc =
    Ok (fold_left
          (fun ce item =>
             (ce + IZR (sum_values (snd item)) / IZR total *
                   _calculate_entropy_from_counts (snd item))%R)
          by_value acc).
Proof.
  intros Htotal. apply Z.eqb_neq in Htotal.
  induction by_value as [|item by_value IH]; intros acc; [reflexivity|].
  cbn [rfold fold_left]. unfold conditional_entropy_step at 1.
  rewrite Htotal. cbn [rbind]. apply IH.
Qed.

Lemma calculate_gain_ratio_Ok (self : DecisionTree) (a : nat)
  (by_value : dict string (dict string Z)) (value_counts : dict string Z) :
  dict_get (attribute_decision_counts self) a = Some by_value ->
  dict_get (value_occurrences self) a = Some value_counts ->
  decisions self <> [] ->
  exists g, calculate_gain_ratio self a = Ok g.
Proof.
  intros Hbv Hvc Hne.
  unfold calculate_gain_ratio, calculate_information_gain,
    calculate_conditional_entropy, calculate_split_information, dict_lookup.
  rewrite Hbv, Hvc. cbn [rbind].
  rewrite conditional_entropy_fold_Ok
    by (destruct (decisions self); [contradiction | simpl; lia]).
  cbn [rbind].
  destruct (Reqb _ 0); eauto.
Qed.

Lemma tables_gain_ratio_Ok `{PySet} (rows : list (list string))
  (root : option DecisionTreeNode) (a : nat) :
  rows <> [] -> (a < n_attributes rows)%nat ->
  exists g, calculate_gain_ratio (tables rows root) a = Ok g.
Proof.
  intros Hne Ha.
  eapply calculate_gain_ratio_Ok.
  - now apply tables_attribute_decision_counts.
  - now apply tables_value_occurrences.
  - unfold tables, labels. cbn [decisions].
    destruct rows; [contradiction | discriminate].
Qed.

Lemma tables_select_best_Ok `{PySet} (rows : list (list string))
  (root : option DecisionTreeNode) (used : list nat) :
  rows <> [] -> exists r, select_best (tables rows root) used = Ok r.
Proof.
  intros Hne. unfold select_best. apply select_fold_Ok.
  rewrite tables_keys. rewrite Forall_forall. intros a Ha.
  apply in_seq in Ha. apply tables_gain_ratio_Ok; [exact Hne | lia].
Qed.

(** ** Induction over the recursion of [_build_tree] *)

Lemma build_tree_induction `{PySet} (self : DecisionTree)
  (P : list nat -> list nat -> DecisionTreeNode -> Prop) :
  (forall recur idx used node,
     (forall i u c, recur i u = Ok c -> P i u c) ->
     build_body recur self idx used = Ok node -> P idx used node) ->
  forall idx used node, _build_tree self idx used = Ok node -> P idx used node.
Proof.
  intros Hstep. unfold _build_tree.
  generalize (S (length (unique_attributes_values self))) as budget.
  induction budget as [|budget IH]; intros idx used node; simpl;
    [discriminate|].
  apply Hstep. intros i u c. apply IH.
Qed.

Lemma paths_set_name (n : DecisionTreeNode) (s : string) :
  paths (set_name n s) = paths n.
Proof. now destruct n. Qed.

Lemma depth_set_name (n : DecisionTreeNode) (s : string) :
  depth (set_name n s) = depth n.
Proof. now destruct n. Qed.

Lemma children_set_name (n : DecisionTreeNode) (s : string) :
  children (set_name n s) = children n.
Proof. now destruct n. Qed.

Lemma name_set_name (n : DecisionTreeNode) (s : string) :
  name (set_name n s) = s.
Proof. now destruct n. Qed.

Lemma node_ok_set_name (rows : list (list string)) (n : DecisionTreeNode)
  (s : string) :
  node_ok rows (set_name n s) <-> node_ok rows n.
Proof. now destruct n. Qed.

Lemma nodes_set_name (n : DecisionTreeNode) (s : string) :
  nodes (set_name n s) = set_name n s :: flat_map nodes (children n).
Proof. now destruct n. Qed.

Lemma nodes_unfold (n : DecisionTreeNode) :
  nodes n = n :: flat_map nodes (children n).
Proof. now destruct n. Qed.

(** ** Paths: no attribute twice *)

Lemma in_paths_split (s : string) (b : nat) (d : option string)
  (kids : list DecisionTreeNode) (p : list nat) :
  In p (paths (mkNode s (Some b) d kids)) ->
  exists p', p = b :: p' /\
    (p' = [] \/ exists kid, In kid kids /\ In p' (paths kid)).
Proof.
  cbn [paths]. destruct kids as [|kid kids].
  - intros [<-|[]]. exists []. auto.
  - intros Hin. apply in_map_iff in Hin. destruct Hin as [p' [<- Hp']].
    exists p'. split; [reflexivity|]. right.
    apply in_flat_map in Hp'. destruct Hp' as [k [Hk Hp']]. eauto.
Qed.

Lemma Forall2_In_r {A B : Type} (R : A -> B -> Prop) (xs : list A)
  (ys : list B) (y : B) :
  Forall2 R xs ys -> In y ys -> exists x, In x xs /\ R x y.
Proof.
  induction 1 as [|x0 y0 xs ys Hxy _ IH]; intros Hin; [contradiction|].
  destruct Hin as [<-|Hin].
  - exists x0. split; [now left | exact Hxy].
  - destruct (IH Hin) as [x [Hx HR]]. exists x. split; [now right | exact HR].
Qed.

Lemma paths_decision_node (d : string) : paths (decision_node d) = [[]].
Proof. reflexivity. Qed.

(** Along every path of a built tree the tested attributes are keys of
    [unique_attributes_values], are not among the used ones, and do not
    repeat. *)
Lemma build_tree_paths `{PySet} (self : DecisionTree) :
  forall idx used node,
    _build_tree self idx used = Ok node ->
    forall p, In p (paths node) ->
      NoDup p /\
      forall a, In a p ->
        In a (dict_keys (unique_attributes_values self)) /\ ~ In a used.
Proof.
  apply (build_tree_induction self
    (fun idx used node => forall p, In p (paths node) ->
       NoDup p /\
       forall a, In a p ->
         In a (dict_keys (unique_attributes_values self)) /\ ~ In a used)).
  intros recur idx used node IH Hbody p Hp.
  destruct (build_body_inv _ _ _ _ _ Hbody) as [decs [_ Hcases]].
  destruct Hcases as [[_ [d0 [_ ->]]] | [[_ [g [m [_ [_ ->]]]]] | Hsplit]].
  - destruct Hp as [<-|[]]. split; [constructor | intros a []].
  - destruct Hp as [<-|[]]. split; [constructor | intros a []].
  - destruct Hsplit as [_ [b [g [values [kids [Hsel [_ [Hkids ->]]]]]]]].
    destruct (select_best_Some _ _ _ _ Hsel) as [l1 [l2 [Hkeys [Hnb _]]]].
    assert (Hb : In b (dict_keys (unique_attributes_values self)))
      by (rewrite Hkeys; apply in_elt).
    apply in_paths_split in Hp. destruct Hp as [p' [-> Hp']].
    assert (Hp'' : NoDup p' /\
              forall a, In a p' ->
                In a (dict_keys (unique_attributes_values self)) /\
                ~ In a (b :: used)).
    { destruct Hp' as [->|[kid [Hkid Hp']]];
        [split; [constructor | intros a []]|].
      destruct (Forall2_In_r _ _ _ _ Hkids Hkid) as [value [_ Hchild]].
      destruct Hchild as [subset [_ [[_ [m [_ ->]]]|[_ [child [Hrec ->]]]]]].
      - destruct Hp' as [<-|[]]. split; [constructor | intros a []].
      - rewrite paths_set_name in Hp'. exact (IH _ _ _ Hrec _ Hp'). }
    destruct Hp'' as [Hnd Hin]. split.
    + constructor; [|exact Hnd]. intros Hbp.
      destruct (Hin b Hbp) as [_ Hnot]. apply Hnot. now left.
    + intros a [<-|Ha]; [split; assumption|].
      destruct (Hin a Ha) as [Hk Hnot]. split; [exact Hk|].
      intros Hu. apply Hnot. now right.
Qed.

(** The depth of a built tree is bounded by the number of open candidates. *)
Lemma build_tree_depth `{PySet} (self : DecisionTree) :
  forall idx used node,
    _build_tree self idx used = Ok node ->
    (depth node <= length (open_attributes self used))%nat.
Proof.
  apply (build_tree_induction self
    (fun idx used node =>
       (depth node <= length (open_attributes self used))%nat)).
  intros recur idx used node IH Hbody.
  destruct (build_body_inv _ _ _ _ _ Hbody) as [decs [_ Hcases]].
  destruct Hcases as [[_ [d0 [_ ->]]] | [[_ [g [m [_ [_ ->]]]]] | Hsplit]];
    [simpl; lia | simpl; lia |].
  destruct Hsplit as [_ [b [g [values [kids [Hsel [_ [Hkids ->]]]]]]]].
  pose proof (open_attributes_shrink _ _ _ _ Hsel) as Hshrink.
  cbn [depth].
  assert (Hall : Forall (fun kid =>
            (S (depth kid) <= length (open_attributes self used))%nat) kids).
  { rewrite Forall_forall. intros kid Hkid.
    destruct (Forall2_In_r _ _ _ _ Hkids Hkid) as [value [_ Hchild]].
    destruct Hchild as [subset [_ [[_ [m [_ ->]]]|[_ [child [Hrec ->]]]]]].
    - simpl. lia.
    - rewrite depth_set_name. specialize (IH _ _ _ Hrec). lia. }
  clear Hkids Hbody. induction Hall as [|kid kids Hkid _ IHk]; cbn [fold_right];
    [lia|].
  apply Nat.max_lub; [exact Hkid | exact IHk].
Qed.

(** ** Nodes of a tree built from loaded tables *)

Lemma rmap_index_incl {A : Type} (l : list A) (idx : list nat) (xs : list A) :
  rmap (index l) idx = Ok xs -> incl xs l.
Proof.
  intros Hok. apply rmap_Ok_Forall2 in Hok.
  induction Hok as [|i x idx xs Hix _ IH]; [intros x []|].
  apply incl_cons; [|exact IH]. eapply index_Ok_In; eauto.
Qed.

Lemma node_ok_leaf (rows : list (list string)) (s d : string) :
  In d (labels rows) -> node_ok rows (mkNode s None (Some d) []).
Proof. intros Hd. unfold node_ok. simpl. split; [reflexivity|]. eauto. Qed.

Lemma build_tree_nodes_ok `{PySet} (rows : list (list string))
  (root : option DecisionTreeNode) :
  forall idx used node,
    _build_tree (tables rows root) idx used = Ok node ->
    Forall (node_ok rows) (nodes node).
Proof.
  apply (build_tree_induction (tables rows root)
    (fun idx used node => Forall (node_ok rows) (nodes node))).
  intros recur idx used node IH Hbody.
  destruct (build_body_inv _ _ _ _ _ Hbody) as [decs [Hdecs Hcases]].
  apply rmap_index_incl in Hdecs.
  change (decisions (tables rows root)) with (labels rows) in Hdecs.
  destruct Hcases as [[_ [d0 [Hd0 ->]]] | [[_ [g [m [_ [Hm ->]]]]] | Hsplit]].
  - repeat constructor. apply node_ok_leaf. apply Hdecs.
    eapply index_Ok_In; eauto.
  - repeat constructor. apply node_ok_leaf. apply Hdecs.
    now apply majority_In.
  - destruct Hsplit as [_ [b [g [values [kids [Hsel [Hvalues [Hkids ->]]]]]]]].
    destruct (select_best_Some _ _ _ _ Hsel) as [l1 [l2 [Hkeys _]]].
    assert (Hb : (b < n_attributes rows)%nat).
    { assert (Hin : In b (seq 0 (n_attributes rows)))
        by (rewrite <- (tables_keys rows root), Hkeys; apply in_elt).
      apply in_seq in Hin. lia. }
    unfold dict_lookup in Hvalues.
    rewrite (tables_value_occurrences rows root b Hb) in Hvalues.
    injection Hvalues as <-. rewrite tally_keys in Hkids.
    rewrite nodes_unfold. cbn [children]. constructor.
    + unfold node_ok. cbn [attribute_index decision children].
      split; [reflexivity|]. split; [exact Hb|].
      eapply Forall2_impl; [|exact Hkids].
      intros value kid [subset [_ [[_ [m [_ ->]]]|[_ [child [_ ->]]]]]].
      * now eexists.
      * rewrite name_set_name. now eexists.
    + apply Forall_flat_map. rewrite Forall_forall. intros kid Hkid.
      destruct (Forall2_In_r _ _ _ _ Hkids Hkid) as [value [_ Hchild]].
      destruct Hchild as [subset [_ [[_ [m [Hm ->]]]|[_ [child [Hrec ->]]]]]].
      * repeat constructor. apply node_ok_leaf. apply Hdecs.
        now apply majority_In.
      * specialize (IH _ _ _ Hrec). rewrite nodes_unfold in IH.
        rewrite nodes_set_name. inversion IH; subst.
        constructor; [now apply node_ok_set_name | assumption].
Qed.

(** ** The order in which attributes are tested *)

Lemma build_tree_paths_order `{PySet} (self : DecisionTree) :
  forall idx used node,
    _build_tree self idx used = Ok node ->
    forall p, In p (paths node) ->
    forall k, (length p <= k)%nat ->
      exists rest, selection_order k self used = p ++ rest.
Proof.
  apply (build_tree_induction self
    (fun idx used node => forall p, In p (paths node) ->
       forall k, (length p <= k)%nat ->
         exists rest, selection_order k self used = p ++ rest)).
  intros recur idx used node IH Hbody p Hp k Hk.
  destruct (build_body_inv _ _ _ _ _ Hbody) as [decs [_ Hcases]].
  destruct Hcases as [[_ [d0 [_ ->]]] | [[_ [g [m [_ [_ ->]]]]] | Hsplit]].
  - destruct Hp as [<-|[]]. now eexists.
  - destruct Hp as [<-|[]]. now eexists.
  - destruct Hsplit as [_ [b [g [values [kids [Hsel [_ [Hkids ->]]]]]]]].
    apply in_paths_split in Hp. destruct Hp as [p' [-> Hp']].
    destruct k as [|k]; [simpl in Hk; lia|].
    cbn [selection_order]. rewrite Hsel.
    assert (Hrest : exists rest,
              selection_order k self (b :: used) = p' ++ rest).
    { destruct Hp' as [->|[kid [Hkid Hp']]]; [now eexists|].
      destruct (Forall2_In_r _ _ _ _ Hkids Hkid) as [value [_ Hchild]].
      destruct Hchild as [subset [_ [[_ [m [_ ->]]]|[_ [child [Hrec ->]]]]]].
      - destruct Hp' as [<-|[]]. now eexists.
      - rewrite paths_set_name in Hp'.
        apply (IH _ _ _ Hrec _ Hp'). simpl in Hk. lia. }
    destruct Hrest as [rest ->]. now exists rest.
Qed.

Lemma selection_order_members (self : DecisionTree) (k : nat) :
  forall used c,
    In c (selection_order k self used) ->
    In c (dict_keys (unique_attributes_values self)) /\ ~ In c used.
Proof.
  induction k as [|k IH]; intros used c; cbn [selection_order];
    [intros []|].
  destruct (select_best self used) as [[[b|] g]| |] eqn:Hsel;
    try contradiction.
  destruct (select_best_Some _ _ _ _ Hsel) as [l1 [l2 [Hkeys [Hnb _]]]].
  intros [<-|Hc].
  - split; [rewrite Hkeys; apply in_elt | exact Hnb].
  - destruct (IH _ _ Hc) as [Hk Hnot]. split; [exact Hk|].
    intros Hu. apply Hnot. now right.
Qed.

Lemma seq_split_lt (l1 l2 : list nat) (b : nat) :
  forall a n, seq a n = l1 ++ b :: l2 -> forall c, In c l2 -> (b < c)%nat.
Proof.
  induction l1 as [|x l1 IH]; intros a n Hseq c Hc.
  - destruct n as [|n]; [discriminate|]. simpl in Hseq.
    injection Hseq as <- <-. apply in_seq in Hc. lia.
  - destruct n as [|n]; [discriminate|]. simpl in Hseq.
    injection Hseq as _ Hseq. eapply IH; eauto.
Qed.

(** Each chosen attribute is preferred to every attribute chosen after it. *)
Lemma selection_order_sorted (self : DecisionTree) (n k : nat) :
  dict_keys (unique_attributes_values self) = seq 0 n ->
  forall used, StronglySorted (preferred self) (selection_order k self used).
Proof.
  intros Hseq. induction k as [|k IH]; intros used; cbn [selection_order];
    [constructor|].
  destruct (select_best self used) as [[[b|] g]| |] eqn:Hsel;
    try constructor; [apply IH|].
  destruct (select_best_Some _ _ _ _ Hsel)
    as [l1 [l2 [Hkeys [Hnb [Hgb [_ [Hmax Hfirst]]]]]]].
  rewrite Forall_forall. intros c Hc.
  destruct (selection_order_members _ _ _ _ Hc) as [Hck Hcu].
  assert (Hcused : ~ In c used) by (intros Hu; apply Hcu; now right).
  assert (Hcb : c <> b) by (intros ->; apply Hcu; now left).
  pose proof (Hmax c Hck Hcused) as Hle.
  unfold preferred. rewrite (gain_ratio_Ok _ _ _ Hgb).
  destruct (Rle_lt_or_eq_dec _ _ Hle) as [Hlt|Heq]; [left; lra|].
  right. split; [now symmetry|].
  rewrite Hkeys in Hck. apply in_app_or in Hck.
  destruct Hck as [Hc1|[Hc1|Hc2]].
  - specialize (Hfirst c Hc1 Hcused). lra.
  - congruence.
  - rewrite Hseq in Hkeys. eapply seq_split_lt; eauto.
Qed.

(** ** The builder returns a node *)

Lemma build_body_total `{PySet}
  (recur : list nat -> list nat -> result DecisionTreeNode)
  (self : DecisionTree) (idx used : list nat) (decs : list string) :
  rmap (index (decisions self)) idx = Ok decs ->
  decs <> [] ->
  (exists r, select_best self used = Ok r) ->
  (forall b g,
     select_best self used = Ok (Some b, g) ->
     exists values,
       dict_lookup (value_occurrences self) b = Ok values /\
       forall value, In value (dict_keys values) ->
         exists subset,
           subset_indices self idx b value = Ok subset /\
           (subset <> [] ->
            exists child, recur subset (b :: used) = Ok child)) ->
  exists node, build_body recur self idx used = Ok node.
Proof.
  intros Hdecs Hne [[best g] Hsel] Hsplit.
  unfold build_body. rewrite Hdecs. cbn [rbind].
  destruct (length (set_iter decs) =? 1)%nat.
  - destruct decs as [|d0 decs]; [contradiction|]. cbn. eauto.
  - rewrite Hsel. cbn [rbind fst]. destruct best as [b|].
    + destruct (Hsplit b g Hsel) as [values [Hvalues Hkids]].
      rewrite Hvalues. cbn [rbind].
      match goal with
      | |- exists node, rbind (rmap ?f ?l) _ = _ =>
          destruct (rmap_Ok_intro f l) as [kids Hk]
      end.
      * rewrite Forall_forall. intros value Hvalue.
        destruct (Hkids value Hvalue) as [subset [Hsub Hrec]].
        rewrite Hsub. cbn [rbind]. destruct subset as [|i subset].
        -- destruct (majority_Ok decs Hne) as [m Hm]. rewrite Hm. cbn. eauto.
        -- destruct Hrec as [child Hchild]; [discriminate|].
           rewrite Hchild. cbn. eauto.
      * rewrite Hk. cbn. eauto.
    + destruct (majority_Ok decs Hne) as [m Hm]. rewrite Hm. cbn. eauto.
Qed.

Lemma tables_subset_indices_Ok `{PySet} (rows : list (list string))
  (root : option DecisionTreeNode) (idx : list nat) (b : nat)
  (value : string) :
  wf_rows rows = true ->
  Forall (fun i => (i < length rows)%nat) idx ->
  (b < n_attributes rows)%nat ->
  exists subset,
    subset_indices (tables rows root) idx b value = Ok subset /\
    Forall (fun i => (i < length rows)%nat) subset.
Proof.
  intros Hwf Hidx Hb. unfold subset_indices.
  match goal with
  | |- exists subset, rfilter ?f ?l = _ /\ _ =>
      destruct (rfilter_Ok_intro f l) as [subset Hs]
  end.
  - eapply Forall_impl; [|exact Hidx]. cbv beta. intros i Hi.
    pose proof (tables_attributes_width rows root Hwf) as Hwidth.
    assert (Hlen : length (attributes (tables rows root)) = length rows)
      by (unfold tables; cbn [attributes]; apply length_map).
    destruct (index_Ok_lt (attributes (tables rows root)) i) as [row Hrow];
      [lia|].
    rewrite Hrow. cbn [rbind].
    rewrite Forall_forall in Hwidth.
    specialize (Hwidth row (index_Ok_In _ _ _ Hrow)).
    destruct (index_Ok_lt row b) as [x Hx]; [lia|].
    rewrite Hx. cbn [rbind]. eauto.
  - exists subset. split; [exact Hs|].
    apply rfilter_Ok_incl in Hs. rewrite Forall_forall in *.
    intros i Hi. apply Hidx. now apply Hs.
Qed.

(** On loaded tables [_build_tree] returns a node for every non-empty list
    of row indices, whatever attributes are marked as used. *)
Lemma build_tree_Ok `{PySet} (rows : list (list string))
  (root : option DecisionTreeNode) :
  wf_rows rows = true ->
  forall k used idx,
    (length (open_attributes (tables rows root) used) < k)%nat ->
    idx <> [] ->
    Forall (fun i => (i < length rows)%nat) idx ->
    exists node, _build_tree (tables rows root) idx used = Ok node.
Proof.
  intros Hwf. destruct (wf_rows_inv rows Hwf) as [Hne _].
  induction k as [|k IH]; intros used idx Hk Hidx Hrange; [lia|].
  rewrite build_tree_unfold.
  assert (Hlen : length (decisions (tables rows root)) = length rows)
    by (unfold tables, labels; cbn [decisions]; apply length_map).
  destruct (rmap_Ok_intro (index (decisions (tables rows root))) idx)
    as [decs Hdecs].
  { eapply Forall_impl; [|exact Hrange]. cbv beta. intros i Hi.
    apply index_Ok_lt. lia. }
  apply (build_body_total _ _ _ _ decs Hdecs).
  - apply rmap_length in Hdecs. intros ->. destruct idx; [contradiction|].
    discriminate.
  - now apply tables_select_best_Ok.
  - intros b g Hsel.
    destruct (select_best_Some _ _ _ _ Hsel) as [l1 [l2 [Hkeys _]]].
    assert (Hb : (b < n_attributes rows)%nat).
    { assert (Hin : In b (seq 0 (n_attributes rows)))
        by (rewrite <- (tables_keys rows root), Hkeys; apply in_elt).
      apply in_seq in Hin. lia. }
    exists (tally (column (map (@removelast string) rows) b)). split.
    + unfold dict_lookup. now rewrite tables_value_occurrences.
    + intros value _.
      destruct (tables_subset_indices_Ok rows root idx b value Hwf Hrange Hb)
        as [subset [Hsub Hsr]].
      exists subset. split; [exact Hsub|]. intros Hsne.
      apply IH; [|exact Hsne|exact Hsr].
      pose proof (open_attributes_shrink _ _ _ _ Hsel). lia.
Qed.

Lemma tables_build_root `{PySet} (rows : list (list string))
  (root : option DecisionTreeNode) :
  wf_rows rows = true ->
  exists node,
    _build_tree (tables rows root) (seq 0 (length rows)) [] = Ok node.
Proof.
  intros Hwf. destruct (wf_rows_inv rows Hwf) as [Hne _].
  apply (build_tree_Ok rows root Hwf
           (S (length (open_attributes (tables rows root) [])))).
  - lia.
  - destruct rows; [contradiction | discriminate].
  - rewrite Forall_forall. intros i Hi. apply in_seq in Hi. lia.
Qed.

(** [load_data] on a well-formed table: the tables, and the tree as root. *)
Lemma load_data_Ok `{PySet} (rows : list (list string)) (s0 : DecisionTree) :
  wf_rows rows = true ->
  exists root,
    _build_tree (tables rows (tree_root s0)) (seq 0 (length rows)) [] = Ok root
    /\ load_data rows s0 = (Ok tt, tables rows (Some root)).
Proof.
  intros Hwf. destruct (tables_build_root rows (tree_root s0) Hwf) as [root Hr].
  exists root. split; [exact Hr|].
  rewrite (load_data_tables rows s0 Hwf). now rewrite Hr.
Qed.


(** ** Two iteration orders for sets *)

Lemma rev_first_seen_NoDup (l : list string) : NoDup (rev (first_seen l)).
Proof. apply NoDup_rev, first_seen_NoDup. Qed.

Lemma rev_first_seen_In (l : list string) (x : string) :
  In x (rev (first_seen l)) <-> In x l.
Proof. rewrite <- in_rev. apply first_seen_In. Qed.

(** Members come out in the order in which they were first inserted. *)
Definition insertion_order : PySet :=
  {| set_iter := first_seen;
     set_iter_NoDup := first_seen_NoDup;
     set_iter_In := first_seen_In |}.

(** Members come out in the opposite order. *)
Definition reverse_order : PySet :=
  {| set_iter := fun l => rev (first_seen l);
     set_iter_NoDup := rev_first_seen_NoDup;
     set_iter_In := rev_first_seen_In |}.

(** ** The tree and the object it is stored in *)

Lemma tables_build_body_root `{PySet} (rows : list (list string))
  (root1 root2 : option DecisionTreeNode)
  (recur : list nat -> list nat -> result DecisionTreeNode)
  (idx used : list nat) :
  build_body recur (tables rows root1) idx used =
  build_body recur (tables rows root2) idx used.
Proof. reflexivity. Qed.

Lemma tables_build_tree_root `{PySet} (rows : list (list string))
  (root1 root2 : option DecisionTreeNode) (idx used : list nat) :
  _build_tree (tables rows root1) idx used =
  _build_tree (tables rows root2) idx used.
Proof.
  unfold _build_tree.
  change (length (unique_attributes_values (tables rows root2)))
    with (length (unique_attributes_values (tables rows root1))).
  generalize (S (length (unique_attributes_values (tables rows root1))))
    as budget.
  intros budget. revert idx used.
  induction budget as [|budget IH]; intros idx used; [reflexivity|].
  cbn [build_tree_budget].
  rewrite (tables_build_body_root rows root1 root2).
  apply build_body_ext. intros b g subset _ _. apply IH.
Qed.

Lemma tables_gain_ratio_root `{PySet} (rows : list (list string))
  (root1 root2 : option DecisionTreeNode) (a : nat) :
  gain_ratio (tables rows root1) a = gain_ratio (tables rows root2) a.
Proof. reflexivity. Qed.

Lemma tables_selection_order_root `{PySet} (rows : list (list string))
  (root1 root2 : option DecisionTreeNode) (k : nat) :
  forall used,
    selection_order k (tables rows root1) used =
    selection_order k (tables rows root2) used.
Proof.
  induction k as [|k IH]; intros used; [reflexivity|].
  cbn [selection_order].
  change (select_best (tables rows root2) used)
    with (select_best (tables rows root1) used).
  destruct (select_best (tables rows root1) used) as [[[b|] g]| |];
    try reflexivity.
  now rewrite IH.
Qed.

(** What a completed [load_data] says about the rows. *)
Lemma load_data_Ok_inv `{PySet} (rows : list (list string))
  (s0 s : DecisionTree) :
  load_data rows s0 = (Ok tt, s) ->
  rows <> [] /\ Forall (fun row => row <> []) rows.
Proof.
  unfold load_data.
  unfold bind at 1. unfold modify at 1.
  unfold bind at 1. unfold modify at 1.
  unfold bind at 1. unfold getsr at 1.
  cbn [data set_data set_attributes].
  destruct (rmap (@index_last string) rows) as [ds| |] eqn:Elast;
    try discriminate.
  intros Hload. split.
  - intros ->. revert Hload.
    unfold bind at 1. unfold modify at 1.
    unfold bind at 1. unfold _count_unique_attributes_values.
    unfold bind at 1. unfold getsr at 1.
    cbn. discriminate.
  - apply rmap_Ok_Forall2 in Elast. clear Hload.
    induction Elast as [|row d rows ds Hrow _ IH]; constructor; [|exact IH].
    intros ->. discriminate.
Qed.

Lemma wf_rows_intro (rows : list (list string)) :
  rows <> [] -> Forall (fun row => row <> []) rows ->
  Forall (fun row => length row = length (hd [] rows)) rows ->
  wf_rows rows = true.
Proof.
  destruct rows as [|row0 rest]; [contradiction|]. intros _ Hne Hlen.
  unfold wf_rows. apply andb_true_iff. split.
  - inversion Hne; subst. destruct row0; [contradiction|]. reflexivity.
  - apply forallb_forall. intros row Hin. rewrite Forall_forall in Hlen.
    apply Nat.eqb_eq. exact (Hlen row Hin).
Qed.

(** A completed load leaves the tables of [tables] behind. *)
Lemma load_data_Ok_tables `{PySet} (rows : list (list string))
  (s0 s : DecisionTree) :
  Forall (fun row => length row = length (hd [] rows)) rows ->
  load_data rows s0 = (Ok tt, s) ->
  wf_rows rows = true /\ exists root, s = tables rows (Some root).
Proof.
  intros Hlen Hload.
  destruct (load_data_Ok_inv rows s0 s Hload) as [Hne Hrows].
  pose proof (wf_rows_intro rows Hne Hrows Hlen) as Hwf.
  split; [exact Hwf|].
  destruct (load_data_Ok rows s0 Hwf) as [root [_ Hl]].
  exists root. congruence.
Qed.

(** ** The model runs *)

Example scenario_tables :
  value_occurrences (@tables insertion_order scenario_rows None) =
    [(0%nat, [("a"%string, 2%Z); ("b"%string, 2%Z)]);
     (1%nat, [("x"%string, 2%Z); ("y"%string, 2%Z)])] /\
  decision_counts (@tables insertion_order scenario_rows None) =
    [("yes"%string, 1%Z); ("no"%string, 3%Z)] /\
  dict_get (attribute_decision_counts
              (@tables insertion_order scenario_rows None)) 0 =
    Some [("a"%string, [("yes"%string, 1%Z); ("no"%string, 1%Z)]);
          ("b"%string, [("no"%string, 2%Z)])] /\
  unique_attributes_values (@tables insertion_order scenario_rows None) =
    [(0%nat, 2%Z); (1%nat, 2%Z)].
Proof. repeat split; reflexivity. Qed.

(** A single row: the root is a leaf with the label of the row. *)
Example single_row_tree :
  let r := @load_data insertion_order [["a"; "b"; "yes"]%string] init in
  fst r = Ok tt /\ tree_root (snd r) = Some (decision_node "yes").
Proof. vm_compute. split; reflexivity. Qed.

(** One label throughout: the root is a leaf before any gain ratio is
    computed. *)
Example one_label_tree :
  let r := @load_data reverse_order
             [["a"; "x"; "no"]; ["b"; "y"; "no"]; ["a"; "y"; "no"]]%string
             init in
  fst r = Ok tt /\ tree_root (snd r) = Some (decision_node "no").
Proof. vm_compute. split; reflexivity. Qed.

(** A row with no field at all has no label. *)
Example empty_row_raises :
  fst (@load_data insertion_order [["a"; "yes"]%string; []] init) =
  Raise IndexError.
Proof. reflexivity. Qed.

(** A short row raises in the first counting pass. *)
Example short_row_raises :
  fst (@load_data insertion_order
         [["a"; "x"; "yes"]; ["b"; "no"]]%string init) =
  Raise IndexError.
Proof. reflexivity. Qed.

(** * The claims *)

(** ** Branches and leaves *)

Lemma column_nonempty (rows : list (list string)) (a : nat) :
  rows <> [] -> first_seen (column (map (@removelast string) rows) a) <> [].
Proof.
  destruct rows as [|row rows]; [contradiction|]. intros _ Hnil.
  assert (Hin : In (nth a (removelast row) EmptyString)
                   (first_seen (column (map (@removelast string) (row :: rows))
                                       a)))
    by (apply first_seen_In; now left).
  rewrite Hnil in Hin. contradiction.
Qed.

(** C2: in the tree that [load_data] builds, the children of every
    attribute node are named, one to one and in order, after the distinct
    values that the tested attribute takes over the whole table, and every
    node without children carries a decision that is a label of the table. *)
Theorem C2_branches_cover_values_and_leaves_are_labels `{PySet}
  (rows : list (list string)) (s0 : DecisionTree) :
  wf_rows rows = true ->
  exists s root,
    load_data rows s0 = (Ok tt, s) /\ tree_root s = Some root /\
    (forall n a,
       In n (nodes root) -> attribute_index n = Some a ->
       exists values,
         Forall2 (fun value kid =>
                    exists rest, name kid = (value ++ arrow ++ rest)%string)
                 values (children n) /\
         NoDup values /\
         forall v, In v values <-> In v (column (attributes s) a)) /\
    (forall n,
       In n (nodes root) -> children n = [] ->
       exists d, decision n = Some d /\ In d (decisions s)).
Proof.
  intros Hwf. destruct (wf_rows_inv rows Hwf) as [Hne _].
  destruct (load_data_Ok rows s0 Hwf) as [root [Hroot Hload]].
  exists (tables rows (Some root)), root.
  split; [exact Hload|]. split; [reflexivity|].
  pose proof (build_tree_nodes_ok rows _ _ _ _ Hroot) as Hok.
  rewrite Forall_forall in Hok. split.
  - intros n a Hn Ha. specialize (Hok n Hn). unfold node_ok in Hok.
    rewrite Ha in Hok. destruct Hok as [_ [_ Hkids]].
    exists (first_seen (column (map (@removelast string) rows) a)).
    split; [exact Hkids|]. split; [apply first_seen_NoDup|].
    intros v. apply first_seen_In.
  - intros n Hn Hleaf. specialize (Hok n Hn). unfold node_ok in Hok.
    destruct (attribute_index n) as [a|].
    + destruct Hok as [_ [_ Hkids]]. rewrite Hleaf in Hkids.
      inversion Hkids as [Hnil|]. symmetry in Hnil.
      now apply column_nonempty in Hnil.
    + destruct Hok as [_ Hd]. exact Hd.
Qed.

Lemma C2_witness :
  wf_rows scenario_rows = true /\
  exists s root,
    @load_data insertion_order scenario_rows init = (Ok tt, s) /\
    tree_root s = Some root /\
    (forall n a,
       In n (nodes root) -> attribute_index n = Some a ->
       exists values,
         Forall2 (fun value kid =>
                    exists rest, name kid = (value ++ arrow ++ rest)%string)
                 values (children n) /\
         NoDup values /\
         forall v, In v values <-> In v (column (attributes s) a)) /\
    (forall n,
       In n (nodes root) -> children n = [] ->
       exists d, decision n = Some d /\ In d (decisions s)).
Proof.
  split; [reflexivity|].
  apply (@C2_branches_cover_values_and_leaves_are_labels insertion_order
           scenario_rows init).
  reflexivity.
Defined.

(** ** No attribute twice on a path *)

Lemma tables_open_all `{PySet} (rows : list (list string))
  (root : option DecisionTreeNode) (used : list nat) :
  (length (open_attributes (tables rows root) used) <= n_attributes rows)%nat.
Proof.
  etransitivity; [apply open_attributes_length|].
  unfold tables. cbn [unique_attributes_values].
  now rewrite length_map, length_seq.
Qed.

(** C3: in the tree that [load_data] builds no attribute index occurs twice
    among the attribute nodes of a root-to-leaf path, and the depth of the
    tree is at most the number of attributes. *)
Theorem C3_no_attribute_twice_on_a_path `{PySet}
  (rows : list (list string)) (s0 : DecisionTree) :
  wf_rows rows = true ->
  exists s root,
    load_data rows s0 = (Ok tt, s) /\ tree_root s = Some root /\
    (forall p, In p (paths root) -> NoDup p) /\
    (depth root <= n_attributes rows)%nat.
Proof.
  intros Hwf.
  destruct (load_data_Ok rows s0 Hwf) as [root [Hroot Hload]].
  exists (tables rows (Some root)), root.
  split; [exact Hload|]. split; [reflexivity|]. split.
  - intros p Hp. now destruct (build_tree_paths _ _ _ _ Hroot p Hp).
  - etransitivity; [exact (build_tree_depth _ _ _ _ Hroot)|].
    apply tables_open_all.
Qed.

Lemma C3_witness :
  wf_rows scenario_rows = true /\
  exists s root,
    @load_data insertion_order scenario_rows init = (Ok tt, s) /\
    tree_root s = Some root /\
    (forall p, In p (paths root) -> NoDup p) /\
    (depth root <= n_attributes scenario_rows)%nat.
Proof.
  split; [reflexivity|].
  apply (@C3_no_attribute_twice_on_a_path insertion_order scenario_rows init).
  reflexivity.
Defined.

(** ** The builder returns a node and never recurses on nothing *)

(** C4: on the tables left by [load_data], [_build_tree] returns a node for
    every non-empty list of row indices of the table and every set of used
    attributes; its body hands the recursive call non-empty subsets only (what
    the callee would do with an empty one cannot change the result); and the
    child for a branch value with no rows is a leaf labelled with the
    majority label of the rows of the current call: the label [m] that the
    vote returns is a label of those rows, and none of their labels occurs
    more often among them than [m]. *)
Theorem C4_build_tree_returns_and_leafs_empty_branches `{PySet}
  (rows : list (list string)) (s0 : DecisionTree) :
  wf_rows rows = true ->
  exists s,
    load_data rows s0 = (Ok tt, s) /\
    (forall idx used,
       idx <> [] -> Forall (fun i => (i < length rows)%nat) idx ->
       exists node, _build_tree s idx used = Ok node) /\
    (forall recur1 recur2 idx used,
       (forall subset u, subset <> [] -> recur1 subset u = recur2 subset u) ->
       build_body recur1 s idx used = build_body recur2 s idx used) /\
    (forall idx used node b,
       _build_tree s idx used = Ok node -> attribute_index node = Some b ->
       exists decs values,
         rmap (index (decisions s)) idx = Ok decs /\
         dict_get (value_occurrences s) b = Some values /\
         Forall2
           (fun value kid =>
              subset_indices s idx b value = Ok [] ->
              exists m,
                majority decs = Ok m /\
                In m decs /\
                (forall d, In d decs -> (count decs d <= count decs m)%Z) /\
                kid = mkNode (value ++ arrow ++ "Decision: " ++ m)%string
                             None (Some m) [])
           (dict_keys values) (children node)).
Proof.
  intros Hwf.
  destruct (load_data_Ok rows s0 Hwf) as [root [_ Hload]].
  exists (tables rows (Some root)). split; [exact Hload|]. split; [|split].
  - intros idx used Hidx Hrange.
    apply (build_tree_Ok rows (Some root) Hwf
             (S (length (open_attributes (tables rows (Some root)) used))));
      [lia | exact Hidx | exact Hrange].
  - intros recur1 recur2 idx used Hrec. apply build_body_ext.
    intros b g subset _ Hne. now apply Hrec.
  - intros idx used node b Hbuild Hattr.
    rewrite build_tree_unfold in Hbuild.
    destruct (build_body_inv _ _ _ _ _ Hbuild) as [decs [Hdecs Hcases]].
    destruct Hcases as [[_ [d0 [_ ->]]] | [[_ [g [m [_ [_ ->]]]]] | Hsplit]];
      try discriminate.
    destruct Hsplit as [_ [b' [g [values [kids [_ [Hvalues [Hkids ->]]]]]]]].
    cbn [attribute_index] in Hattr. injection Hattr as ->.
    exists decs, values. split; [exact Hdecs|]. split.
    + unfold dict_lookup in Hvalues.
      destruct (dict_get (value_occurrences (tables rows (Some root))) b);
        [now injection Hvalues as -> | discriminate].
    + cbn [children]. eapply Forall2_impl; [|exact Hkids].
      intros value kid [subset [Hsub Hkid]] Hempty.
      rewrite Hsub in Hempty. injection Hempty as ->.
      destruct Hkid as [[_ [m [Hm Hleaf]]]|[Hne _]]; [|contradiction].
      destruct (majority_most_frequent decs m Hm) as [Hin [Hmax _]].
      exists m. auto.
Qed.

Lemma C4_witness :
  wf_rows scenario_rows = true /\
  exists s,
    @load_data insertion_order scenario_rows init = (Ok tt, s) /\
    (forall idx used,
       idx <> [] -> Forall (fun i => (i < length scenario_rows)%nat) idx ->
       exists node, @_build_tree insertion_order s idx used = Ok node) /\
    (forall recur1 recur2 idx used,
       (forall subset u, subset <> [] -> recur1 subset u = recur2 subset u) ->
       @build_body insertion_order recur1 s idx used =
       @build_body insertion_order recur2 s idx used) /\
    (forall idx used node b,
       @_build_tree insertion_order s idx used = Ok node ->
       attribute_index node = Some b ->
       exists decs values,
         rmap (index (decisions s)) idx = Ok decs /\
         dict_get (value_occurrences s) b = Some values /\
         Forall2
           (fun value kid =>
              subset_indices s idx b value = Ok [] ->
              exists m,
                @majority insertion_order decs = Ok m /\
                In m decs /\
                (forall d, In d decs -> (count decs d <= count decs m)%Z) /\
                kid = mkNode (value ++ arrow ++ "Decision: " ++ m)%string
                             None (Some m) [])
           (dict_keys values) (children node)).
Proof.
  split; [reflexivity|].
  apply (@C4_build_tree_returns_and_leafs_empty_branches insertion_order
           scenario_rows init).
  reflexivity.
Defined.

(** ** The frequency tables *)

Lemma tables_column_length (rows : list (list string)) (a : nat) :
  length (column (map (@removelast string) rows) a) = length rows.
Proof. unfold column. now rewrite !length_map. Qed.

Lemma tally_get_not_In (xs : list string) (x : string) :
  ~ In x xs -> dict_get (tally xs) x = None.
Proof.
  intros Hn. rewrite tally_get.
  destruct (0 <? count xs x)%Z eqn:E; [|reflexivity].
  apply Z.ltb_lt in E. apply count_pos_In in E. contradiction.
Qed.

Lemma tally2_get_In (ps : list (string * string)) (v : string) :
  In v (map fst ps) ->
  dict_get (tally2 ps) v = Some (tally (labels_of v ps)).
Proof.
  intros Hin. unfold tally2. rewrite tally2_fold_get. cbn [dict_get].
  replace (existsb (fun p => (fst p =? v)%string) ps) with true; [reflexivity|].
  symmetry. apply existsb_exists. apply in_map_iff in Hin.
  destruct Hin as [p [<- Hp]]. exists p. split; [exact Hp|].
  apply String.eqb_refl.
Qed.

Lemma tally2_get_not_In (ps : list (string * string)) (v : string) :
  ~ In v (map fst ps) -> dict_get (tally2 ps) v = None.
Proof.
  intros Hn. destruct (dict_get (tally2 ps) v) as [by_label|] eqn:E;
    [|reflexivity].
  apply tally2_get in E. destruct E as [_ Hin]. contradiction.
Qed.

Lemma tally2_fold_keys (ps : list (string * string))
  (d : dict string (dict string Z)) :
  dict_keys (fold_left tally2_step ps d) =
  fold_left first_seen_step (map fst ps) (dict_keys d).
Proof.
  revert d. induction ps as [|p ps IH]; intros d; [reflexivity|].
  cbn [fold_left map]. rewrite IH. f_equal.
  unfold tally2_step, first_seen_step.
  now rewrite dict_keys_set, dict_mem_keys.
Qed.

Lemma tally2_keys (ps : list (string * string)) :
  dict_keys (tally2 ps) = first_seen (map fst ps).
Proof. unfold tally2. now rewrite tally2_fold_keys. Qed.

Lemma map_fst_combine_same (xs ds : list string) :
  length xs = length ds -> map fst (combine xs ds) = xs.
Proof.
  revert ds. induction xs as [|x xs IH]; intros [|d ds] Hlen;
    try discriminate; [reflexivity|].
  cbn [combine map fst]. f_equal. apply IH. simpl in Hlen. lia.
Qed.

Lemma tables_lengths `{PySet} (rows : list (list string))
  (root : option DecisionTreeNode) (a : nat) :
  length (column (attributes (tables rows root)) a) =
  length (decisions (tables rows root)).
Proof.
  unfold tables, labels. cbn [attributes decisions].
  now rewrite tables_column_length, length_map.
Qed.

(** C7: when [load_data] completes on rows that all have as many fields as
    the first, every stored count is a positive integer (and every number of
    unique values is non-negative); the label counts add up to the number of
    rows; [value_occurrences] has an entry for every attribute of the first
    row, and the counts of the values of each attribute add up to the number
    of rows; for every attribute, [attribute_decision_counts] has an entry
    with the same values as keys, in the same order, as
    [value_occurrences], and under every value the label counts it keeps add
    up to the count of that value; and no other label counts are stored. *)
Theorem C7_frequency_tables_add_up `{PySet}
  (rows : list (list string)) (s0 s : DecisionTree) :
  Forall (fun row => length row = length (hd [] rows)) rows ->
  load_data rows s0 = (Ok tt, s) ->
  Forall (fun c => (0 <= c)%Z) (dict_values (unique_attributes_values s)) /\
  all_positive (decision_counts s) /\
  sum_values (decision_counts s) = Z.of_nat (length (data s)) /\
  dict_keys (value_occurrences s) = seq 0 (n_attributes rows) /\
  (forall attr value_counts,
     dict_get (value_occurrences s) attr = Some value_counts ->
     all_positive value_counts /\
     sum_values value_counts = Z.of_nat (length (data s)) /\
     exists by_value,
       dict_get (attribute_decision_counts s) attr = Some by_value /\
       dict_keys by_value = dict_keys value_counts /\
       forall value c,
         dict_get value_counts value = Some c ->
         exists by_label,
           dict_get by_value value = Some by_label /\
           all_positive by_label /\ sum_values by_label = c) /\
  (forall attr by_value value by_label,
     dict_get (attribute_decision_counts s) attr = Some by_value ->
     dict_get by_value value = Some by_label ->
     all_positive by_label /\
     exists value_counts,
       dict_get (value_occurrences s) attr = Some value_counts /\
       dict_get value_counts value = Some (sum_values by_label)).
Proof.
  intros Hlen Hload.
  destruct (load_data_Ok_tables rows s0 s Hlen Hload) as [Hwf [root ->]].
  unfold tables.
  cbn [unique_attributes_values decision_counts value_occurrences
       attribute_decision_counts data].
  split; [|split; [|split; [|split; [|split]]]].
  - unfold dict_values. rewrite map_map. cbn [snd].
    rewrite Forall_map. rewrite Forall_forall. intros i _. lia.
  - apply all_positive_tally.
  - rewrite sum_values_tally. unfold labels. now rewrite length_map.
  - apply dict_keys_map_seq.
  - intros attr value_counts Hvc.
    apply dict_get_map_seq_inv in Hvc. destruct Hvc as [-> Hattr].
    assert (Hsame : length (column (map (@removelast string) rows) attr) =
                    length (labels rows)).
    { rewrite tables_column_length. unfold labels. now rewrite length_map. }
    split; [apply all_positive_tally|].
    split; [now rewrite sum_values_tally, tables_column_length|].
    exists (tally2 (combine (column (map (@removelast string) rows) attr)
                            (labels rows))).
    split.
    { apply (dict_get_map_seq
               (fun i => tally2 (combine
                                   (column (map (@removelast string) rows) i)
                                   (labels rows)))).
      exact Hattr. }
    split.
    { now rewrite tally2_keys, (map_fst_combine_same _ _ Hsame), tally_keys. }
    intros value c Hc. rewrite tally_get in Hc.
    destruct (0 <? count (column (map (@removelast string) rows) attr) value)%Z
      eqn:E; [|discriminate].
    injection Hc as <-. apply Z.ltb_lt in E. apply count_pos_In in E.
    exists (tally (labels_of value
                     (combine (column (map (@removelast string) rows) attr)
                              (labels rows)))).
    split.
    { apply tally2_get_In. now rewrite (map_fst_combine_same _ _ Hsame). }
    split; [apply all_positive_tally|].
    now rewrite sum_values_tally, (labels_of_length _ _ _ Hsame).
  - intros attr by_value value by_label Hbv Hbl.
    apply (dict_get_map_seq_inv
             (fun i => tally2 (combine (column (map (@removelast string) rows) i)
                                       (labels rows)))) in Hbv.
    destruct Hbv as [-> Hattr].
    apply tally2_get in Hbl. destruct Hbl as [-> Hin].
    split; [apply all_positive_tally|].
    exists (tally (column (map (@removelast string) rows) attr)). split.
    + apply (dict_get_map_seq
               (fun i => tally (column (map (@removelast string) rows) i))).
      exact Hattr.
    + assert (Hsame : length (column (map (@removelast string) rows) attr) =
                      length (labels rows)).
      { rewrite tables_column_length. unfold labels. now rewrite length_map. }
      rewrite sum_values_tally, (labels_of_length _ _ _ Hsame).
      apply tally_get_In.
      apply in_map_iff in Hin. destruct Hin as [[x d] [<- Hp]].
      now apply in_combine_l in Hp.
Qed.

Lemma C7_witness :
  exists s,
    Forall (fun row => length row = length (hd [] scenario_rows))
           scenario_rows /\
    @load_data insertion_order scenario_rows init = (Ok tt, s) /\
    Forall (fun c => (0 <= c)%Z) (dict_values (unique_attributes_values s)) /\
    all_positive (decision_counts s) /\
    sum_values (decision_counts s) = Z.of_nat (length (data s)) /\
    dict_keys (value_occurrences s) = seq 0 (n_attributes scenario_rows) /\
    (forall attr value_counts,
       dict_get (value_occurrences s) attr = Some value_counts ->
       all_positive value_counts /\
       sum_values value_counts = Z.of_nat (length (data s)) /\
       exists by_value,
         dict_get (attribute_decision_counts s) attr = Some by_value /\
         dict_keys by_value = dict_keys value_counts /\
         forall value c,
           dict_get value_counts value = Some c ->
           exists by_label,
             dict_get by_value value = Some by_label /\
             all_positive by_label /\ sum_values by_label = c) /\
    (forall attr by_value value by_label,
       dict_get (attribute_decision_counts s) attr = Some by_value ->
       dict_get by_value value = Some by_label ->
       all_positive by_label /\
       exists value_counts,
         dict_get (value_occurrences s) attr = Some value_counts /\
         dict_get value_counts value = Some (sum_values by_label)).
Proof.
  destruct (@load_data_Ok insertion_order scenario_rows init eq_refl)
    as [root [_ Hload]].
  exists (@tables insertion_order scenario_rows (Some root)).
  assert (Hsame : Forall (fun row => length row = length (hd [] scenario_rows))
                         scenario_rows)
    by (repeat constructor).
  split; [exact Hsame|]. split; [exact Hload|].
  exact (@C7_frequency_tables_add_up insertion_order scenario_rows init _
           Hsame Hload).
Defined.

(** ** The empty table *)

(** C9: with no rows, the first counting pass raises [IndexError] before it
    assigns anything, so [load_data] raises and leaves the tree root and the
    four tables as they were; on a fresh object there is no root and every
    table is empty. *)
Theorem C9_empty_dataset_is_rejected `{PySet} (s0 : DecisionTree) :
  _count_unique_attributes_values (set_decisions [] (set_attributes []
                                     (set_data [] s0))) =
  (Raise IndexError, set_decisions [] (set_attributes [] (set_data [] s0))) /\
  (exists s,
     load_data [] s0 = (Raise IndexError, s) /\
     tree_root s = tree_root s0 /\
     unique_attributes_values s = unique_attributes_values s0 /\
     value_occurrences s = value_occurrences s0 /\
     decision_counts s = decision_counts s0 /\
     attribute_decision_counts s = attribute_decision_counts s0) /\
  load_data [] init = (Raise IndexError, init).
Proof.
  split; [reflexivity|]. split; [|reflexivity].
  exists (set_decisions [] (set_attributes [] (set_data [] s0))).
  repeat split; reflexivity.
Qed.

(** ** One attribute per level *)

Lemma prefix_nth_error (p rest : list nat) (k a : nat) :
  nth_error p k = Some a -> nth_error (p ++ rest) k = Some a.
Proof.
  intros Hk. rewrite nth_error_app1; [exact Hk|].
  apply nth_error_Some. congruence.
Qed.

(** C10: in the tree that [load_data] builds, the attribute tested by the
    node a call returns depends on the used attributes only, not on the rows
    of the call; there is one list of attributes of which the attributes
    tested along any root-to-leaf path are an initial segment, so that the
    attribute nodes of one depth all test the same attribute; and in that
    list every attribute comes before those with a smaller gain ratio on the
    whole table, and before those with the same gain ratio and a larger
    index. *)
Theorem C10_one_attribute_per_level_in_global_gain_order `{PySet}
  (rows : list (list string)) (s0 : DecisionTree) :
  wf_rows rows = true ->
  exists s root order,
    load_data rows s0 = (Ok tt, s) /\ tree_root s = Some root /\
    (forall idx1 idx2 used n1 n2 a1 a2,
       _build_tree s idx1 used = Ok n1 -> _build_tree s idx2 used = Ok n2 ->
       attribute_index n1 = Some a1 -> attribute_index n2 = Some a2 ->
       a1 = a2) /\
    (forall p, In p (paths root) -> exists rest, order = p ++ rest) /\
    (forall p q k a b,
       In p (paths root) -> In q (paths root) ->
       nth_error p k = Some a -> nth_error q k = Some b -> a = b) /\
    StronglySorted (preferred s) order /\
    (forall a, In a order ->
       exists g, calculate_gain_ratio s a = Ok g).
Proof.
  intros Hwf. destruct (wf_rows_inv rows Hwf) as [Hne _].
  destruct (load_data_Ok rows s0 Hwf) as [root [Hroot Hload]].
  rewrite (tables_build_tree_root rows _ (Some root)) in Hroot.
  set (s := tables rows (Some root)) in *.
  set (order := selection_order (n_attributes rows) s []).
  assert (Hprefix : forall p, In p (paths root) ->
                      exists rest, order = p ++ rest).
  { intros p Hp. apply (build_tree_paths_order s _ _ _ Hroot p Hp).
    destruct (build_tree_paths s _ _ _ Hroot p Hp) as [Hnd Hin].
    assert (Hincl : incl p (seq 0 (n_attributes rows))).
    { intros a Ha. destruct (Hin a Ha) as [Hk _].
      unfold s in Hk. now rewrite tables_keys in Hk. }
    pose proof (NoDup_incl_length Hnd Hincl) as Hl.
    now rewrite length_seq in Hl. }
  exists s, root, order.
  split; [exact Hload|]. split; [reflexivity|]. split; [|split; [|split; [|split]]].
  - intros idx1 idx2 used n1 n2 a1 a2 H1 H2 Ha1 Ha2.
    rewrite build_tree_unfold in H1, H2.
    destruct (build_body_inv _ _ _ _ _ H1) as [decs1 [_ Hc1]].
    destruct (build_body_inv _ _ _ _ _ H2) as [decs2 [_ Hc2]].
    destruct Hc1 as [[_ [d1 [_ ->]]] | [[_ [g1 [m1 [_ [_ ->]]]]] | Hs1]];
      try discriminate.
    destruct Hc2 as [[_ [d2 [_ ->]]] | [[_ [g2 [m2 [_ [_ ->]]]]] | Hs2]];
      try discriminate.
    destruct Hs1 as [_ [b1 [g1 [v1 [k1 [Hsel1 [_ [_ ->]]]]]]]].
    destruct Hs2 as [_ [b2 [g2 [v2 [k2 [Hsel2 [_ [_ ->]]]]]]]].
    cbn [attribute_index] in Ha1, Ha2. congruence.
  - exact Hprefix.
  - intros p q k a b Hp Hq Ha Hb.
    destruct (Hprefix p Hp) as [rp Hrp]. destruct (Hprefix q Hq) as [rq Hrq].
    apply (prefix_nth_error _ rp) in Ha. apply (prefix_nth_error _ rq) in Hb.
    rewrite <- Hrp in Ha. rewrite <- Hrq in Hb. congruence.
  - apply (selection_order_sorted s (n_attributes rows)).
    unfold s. apply tables_keys.
  - intros a Ha.
    destruct (selection_order_members _ _ _ _ Ha) as [Hk _].
    unfold s in Hk. rewrite tables_keys in Hk. apply in_seq in Hk.
    apply tables_gain_ratio_Ok; [exact Hne | lia].
Qed.

Lemma C10_witness :
  wf_rows scenario_rows = true /\
  exists s root order,
    @load_data insertion_order scenario_rows init = (Ok tt, s) /\
    tree_root s = Some root /\
    (forall idx1 idx2 used n1 n2 a1 a2,
       @_build_tree insertion_order s idx1 used = Ok n1 ->
       @_build_tree insertion_order s idx2 used = Ok n2 ->
       attribute_index n1 = Some a1 -> attribute_index n2 = Some a2 ->
       a1 = a2) /\
    (forall p, In p (paths root) -> exists rest, order = p ++ rest) /\
    (forall p q k a b,
       In p (paths root) -> In q (paths root) ->
       nth_error p k = Some a -> nth_error q k = Some b -> a = b) /\
    StronglySorted (preferred s) order /\
    (forall a, In a order ->
       exists g, calculate_gain_ratio s a = Ok g).
Proof.
  split; [reflexivity|].
  apply (@C10_one_attribute_per_level_in_global_gain_order insertion_order
           scenario_rows init).
  reflexivity.
Defined.

(** ** Entropy *)

Lemma Rgtb_probability (c total : Z) :
  (0 < total)%Z -> Rgtb (IZR c / IZR total) 0 = (0 <? c)%Z.
Proof.
  intros Htotal. apply IZR_lt in Htotal.
  destruct (0 <? c)%Z eqn:Ec.
  - apply Z.ltb_lt in Ec. apply IZR_lt in Ec. apply Rgtb_true.
    now apply Rdiv_lt_0_compat.
  - apply Z.ltb_ge in Ec. apply IZR_le in Ec. apply Rgtb_false.
    unfold Rdiv. apply Rinv_0_lt_compat in Htotal.
    replace 0%R with (0 * / IZR total)%R by ring.
    apply Rmult_le_compat_r; lra.
Qed.

Lemma entropy_fold (total : Z) (cs : list Z) (acc : R) :
  (0 < total)%Z ->
  fold_left
    (fun entropy count =>
       if Rgtb (IZR count / IZR total) 0
       then (entropy - IZR count / IZR total * log2 (IZR count / IZR total))%R
       else entropy)
    cs acc =
  (acc - fold_right
           (fun c a => (IZR c / IZR total * log2 (IZR c / IZR total) + a)%R)
           0%R (filter (fun c => (0 <? c)%Z) cs))%R.
Proof.
  intros Htotal. revert acc.
  induction cs as [|c cs IH]; intros acc; cbn [fold_left filter fold_right].
  - ring.
  - rewrite IH, (Rgtb_probability c total Htotal).
    destruct (0 <? c)%Z; cbn [fold_right]; ring.
Qed.

Lemma entropy_total_zero (counts : dict string Z) :
  sum_values counts = 0%Z -> _calculate_entropy_from_counts counts = 0%R.
Proof. unfold _calculate_entropy_from_counts. now intros ->. Qed.

Lemma entropy_total_positive (counts : dict string Z) :
  (0 < sum_values counts)%Z ->
  _calculate_entropy_from_counts counts = shannon_entropy counts.
Proof.
  intros Hpos. unfold _calculate_entropy_from_counts, shannon_entropy.
  cbv zeta.
  replace (sum_values counts =? 0)%Z with false
    by (symmetry; apply Z.eqb_neq; lia).
  rewrite (entropy_fold _ _ _ Hpos). ring.
Qed.

(** C5: for every table of counts with total [T], the entropy function
    returns 0 when [T = 0], and when [T > 0] it returns minus the sum of
    [(c/T) * log2 (c/T)] over the counts [c > 0]. *)
Theorem C5_entropy_is_shannon_entropy (counts : dict string Z) :
  (sum_values counts = 0%Z -> _calculate_entropy_from_counts counts = 0%R) /\
  ((0 < sum_values counts)%Z ->
   _calculate_entropy_from_counts counts = shannon_entropy counts).
Proof.
  split; [apply entropy_total_zero | apply entropy_total_positive].
Qed.

Lemma C5_witness :
  sum_values (@nil (string * Z)) = 0%Z /\
  (0 < sum_values [("yes"%string, 1%Z); ("no"%string, 3%Z)])%Z /\
  _calculate_entropy_from_counts [] = 0%R /\
  _calculate_entropy_from_counts [("yes"%string, 1%Z); ("no"%string, 3%Z)] =
  shannon_entropy [("yes"%string, 1%Z); ("no"%string, 3%Z)].
Proof.
  split; [reflexivity|]. split; [reflexivity|]. split.
  - apply (proj1 (C5_entropy_is_shannon_entropy [])). reflexivity.
  - apply (proj2 (C5_entropy_is_shannon_entropy
                    [("yes"%string, 1%Z); ("no"%string, 3%Z)])).
    reflexivity.
Defined.

(** ** Gain ratio of a constant attribute *)

Lemma ln_1_over_ln_2 : log2 1 = 0%R.
Proof. unfold log2. rewrite ln_1. unfold Rdiv. ring. Qed.

Lemma entropy_single (a : string) (c : Z) :
  (0 < c)%Z -> _calculate_entropy_from_counts [(a, c)] = 0%R.
Proof.
  intros Hc.
  pose proof (entropy_total_positive [(a, c)]) as Hs.
  assert (Hsum : sum_values [(a, c)] = c) by (unfold sum_values; simpl; lia).
  rewrite Hs by lia. unfold shannon_entropy. rewrite Hsum.
  cbn [dict_values map snd filter].
  replace (0 <? c)%Z with true by (symmetry; apply Z.ltb_lt; lia).
  cbn [fold_right].
  assert (Hone : (IZR c / IZR c)%R = 1%R).
  { apply IZR_lt in Hc. field. lra. }
  rewrite Hone, ln_1_over_ln_2. ring.
Qed.

Lemma tally_fold_repeat (v : string) (k : nat) (c : Z) :
  fold_left tally_step (repeat v k) [(v, c)] = [(v, (c + Z.of_nat k)%Z)].
Proof.
  revert c. induction k as [|k IH]; intros c.
  - simpl. f_equal. f_equal. lia.
  - cbn [repeat fold_left]. unfold tally_step at 2.
    unfold dict_get_default. cbn [dict_set dict_get key_eqb string_Key].
    rewrite String.eqb_refl. rewrite IH. f_equal. f_equal. lia.
Qed.

Lemma tally_repeat (v : string) (k : nat) :
  tally (repeat v (S k)) = [(v, Z.of_nat (S k))].
Proof.
  unfold tally. cbn [repeat fold_left]. unfold tally_step at 2.
  unfold dict_get_default. cbn [dict_set dict_get].
  rewrite tally_fold_repeat. f_equal. f_equal. lia.
Qed.

(** C6: on the tables left by [load_data], when all rows carry the same
    value for attribute [attr] its split information is 0 and its gain ratio
    is 0; and whenever the split information of an attribute is 0, its gain
    ratio is 0. *)
Theorem C6_gain_ratio_of_constant_attribute_is_zero `{PySet}
  (rows : list (list string)) (s0 : DecisionTree) (attr : nat) :
  wf_rows rows = true ->
  (attr < n_attributes rows)%nat ->
  exists s,
    load_data rows s0 = (Ok tt, s) /\
    (forall v,
       (forall x, In x (column (attributes s) attr) -> x = v) ->
       calculate_split_information s attr = Ok 0%R /\
       calculate_gain_ratio s attr = Ok 0%R) /\
    (calculate_split_information s attr = Ok 0%R ->
     calculate_gain_ratio s attr = Ok 0%R).
Proof.
  intros Hwf Hattr. destruct (wf_rows_inv rows Hwf) as [Hne _].
  destruct (load_data_Ok rows s0 Hwf) as [root [_ Hload]].
  exists (tables rows (Some root)). split; [exact Hload|].
  assert (Hzero : calculate_split_information (tables rows (Some root)) attr =
                  Ok 0%R ->
                  calculate_gain_ratio (tables rows (Some root)) attr = Ok 0%R).
  { intros Hsplit.
    destruct (tables_gain_ratio_Ok rows (Some root) attr Hne Hattr)
      as [g Hg].
    unfold calculate_gain_ratio in *. rewrite Hsplit in *.
    destruct (calculate_information_gain (tables rows (Some root)) attr)
      as [ig| |]; cbn [rbind] in *; try discriminate.
    replace (Reqb 0 0) with true by (symmetry; now apply Reqb_true).
    reflexivity. }
  split; [|exact Hzero].
  intros v Hconst.
  assert (Hsplit : calculate_split_information (tables rows (Some root)) attr =
                   Ok 0%R).
  { unfold calculate_split_information, dict_lookup.
    rewrite (tables_value_occurrences rows (Some root) attr Hattr).
    cbn [rbind]. f_equal.
    change (attributes (tables rows (Some root)))
      with (map (@removelast string) rows) in Hconst.
    assert (Hcol : column (map (@removelast string) rows) attr =
                   repeat v (length rows)).
    { rewrite <- (tables_column_length rows attr).
      apply Forall_eq_repeat. rewrite Forall_forall.
      intros x Hx. symmetry. now apply Hconst. }
    rewrite Hcol. destruct rows as [|row rows]; [contradiction|].
    cbn [length]. rewrite tally_repeat. apply entropy_single. lia. }
  split; [exact Hsplit | exact (Hzero Hsplit)].
Qed.

Lemma C6_witness :
  wf_rows xor_rows = true /\ (1 < n_attributes xor_rows)%nat /\
  exists s,
    @load_data insertion_order xor_rows init = (Ok tt, s) /\
    (forall x, In x (column (attributes s) 1) -> x = "p"%string) /\
    calculate_split_information s 1 = Ok 0%R /\
    calculate_gain_ratio s 1 = Ok 0%R.
Proof.
  split; [reflexivity|]. split; [vm_compute; lia|].
  destruct (@C6_gain_ratio_of_constant_attribute_is_zero insertion_order
              xor_rows init 1 eq_refl) as [s [Hload [Hconst _]]];
    [vm_compute; lia|].
  exists s. split; [exact Hload|].
  assert (Hp : forall x, In x (column (attributes s) 1) -> x = "p"%string).
  { destruct (@load_data_Ok insertion_order xor_rows init eq_refl)
      as [root [_ Hl]].
    rewrite Hl in Hload. injection Hload as <-.
    intros x [<-|[<-|[<-|[<-|[]]]]]; reflexivity. }
  split; [exact Hp|]. exact (Hconst "p"%string Hp).
Defined.

(** ** Gain ratios of the example tables *)

Lemma ln_2_pos : (0 < ln 2)%R.
Proof. rewrite <- ln_1. apply ln_increasing; lra. Qed.

Lemma log2_half : log2 (/ 2) = (-1)%R.
Proof.
  unfold log2. rewrite ln_Rinv by lra.
  pose proof ln_2_pos. field. lra.
Qed.

Lemma entropy_pair (a b : string) (c : Z) :
  (0 < c)%Z -> _calculate_entropy_from_counts [(a, c); (b, c)] = 1%R.
Proof.
  intros Hc.
  pose proof (entropy_total_positive [(a, c); (b, c)]) as Hs.
  assert (Hsum : sum_values [(a, c); (b, c)] = (2 * c)%Z)
    by (unfold sum_values; cbn [dict_values map snd fold_left]; lia).
  rewrite Hs by lia. unfold shannon_entropy. rewrite Hsum.
  cbn [dict_values map snd filter].
  replace (0 <? c)%Z with true by (symmetry; apply Z.ltb_lt; lia).
  cbn [fold_right].
  assert (Hhalf : (IZR c / IZR (2 * c))%R = (/ 2)%R).
  { rewrite mult_IZR. apply IZR_lt in Hc. field. lra. }
  rewrite Hhalf, log2_half. lra.
Qed.

Lemma Reqb_1_0 : Reqb 1 0 = false.
Proof. unfold Reqb. destruct (Req_dec_T 1 0); [lra | reflexivity]. Qed.

Lemma Reqb_0_0 : Reqb 0 0 = true.
Proof. now apply Reqb_true. Qed.

Ltac eval_counts :=
  repeat match goal with
    | |- context [sum_values ?d] =>
        let v := eval vm_compute in (sum_values d) in
        change (sum_values d) with v
    end.

Ltac eval_gain_ratio :=
  unfold calculate_gain_ratio, calculate_information_gain,
    calculate_conditional_entropy, calculate_split_information,
    calculate_entropy;
  match goal with
  | |- context [dict_lookup (attribute_decision_counts ?s) ?a] =>
      let v := eval vm_compute in
                 (dict_lookup (attribute_decision_counts s) a) in
      change (dict_lookup (attribute_decision_counts s) a) with v
  end;
  match goal with
  | |- context [dict_lookup (value_occurrences ?s) ?a] =>
      let v := eval vm_compute in (dict_lookup (value_occurrences s) a) in
      change (dict_lookup (value_occurrences s) a) with v
  end;
  match goal with
  | |- context [decision_counts ?s] =>
      let v := eval vm_compute in (decision_counts s) in
      change (decision_counts s) with v
  end;
  match goal with
  | |- context [Z.of_nat (length (decisions ?s))] =>
      let v := eval vm_compute in (Z.of_nat (length (decisions s))) in
      change (Z.of_nat (length (decisions s))) with v
  end;
  cbn [rbind];
  rewrite conditional_entropy_fold_Ok by discriminate;
  cbn [rbind fold_left snd];
  eval_counts;
  repeat first [ rewrite entropy_pair by lia | rewrite entropy_single by lia ];
  repeat first [ rewrite Reqb_1_0 | rewrite Reqb_0_0 ];
  try (f_equal; lra).

Lemma tie_gain_ratio `{PySet} (root : option DecisionTreeNode) :
  calculate_gain_ratio (tables tie_rows root) 0 = Ok 0%R.
Proof. eval_gain_ratio. Qed.

Lemma xor_gain_ratio `{PySet} (root : option DecisionTreeNode) (a : nat) :
  (a < 3)%nat -> calculate_gain_ratio (tables xor_rows root) a = Ok 0%R.
Proof.
  intros Ha.
  destruct a as [|[|[|a]]]; [eval_gain_ratio | eval_gain_ratio |
                             eval_gain_ratio | lia].
Qed.

(** ** The trees of the example tables *)

Lemma Rgtb_0_m1 : Rgtb 0 (-1) = true.
Proof. apply Rgtb_true. lra. Qed.

Lemma Rgtb_0_0 : Rgtb 0 0 = false.
Proof. apply Rgtb_false. lra. Qed.

Ltac eval_select gain_lemma :=
  unfold select_best;
  match goal with
  | |- context [dict_keys (unique_attributes_values ?s)] =>
      let v := eval vm_compute in (dict_keys (unique_attributes_values s)) in
      change (dict_keys (unique_attributes_values s)) with v
  end;
  cbn [rfold]; unfold select_step;
  repeat match goal with
    | |- context [in_used ?u ?a] =>
        let v := eval vm_compute in (in_used u a) in
        change (in_used u a) with v
    end;
  cbn iota;
  repeat (rewrite gain_lemma by lia;
          cbn [rbind snd];
          first [ rewrite Rgtb_0_m1 | rewrite Rgtb_0_0 ]);
  cbn [rbind];
  reflexivity.

Lemma tie_select_none `{PySet} (root : option DecisionTreeNode) :
  select_best (tables tie_rows root) [] = Ok (Some 0%nat, 0%R).
Proof. eval_select (tie_gain_ratio root). Qed.

Lemma tie_select_used `{PySet} (root : option DecisionTreeNode) :
  select_best (tables tie_rows root) [0%nat] = Ok (None, (-1)%R).
Proof. eval_select (tie_gain_ratio root). Qed.

Lemma xor_select_none `{PySet} (root : option DecisionTreeNode) :
  select_best (tables xor_rows root) [] = Ok (Some 0%nat, 0%R).
Proof. eval_select (xor_gain_ratio root). Qed.

Lemma xor_select_0 `{PySet} (root : option DecisionTreeNode) :
  select_best (tables xor_rows root) [0%nat] = Ok (Some 1%nat, 0%R).
Proof. eval_select (xor_gain_ratio root). Qed.

Lemma xor_select_1_0 `{PySet} (root : option DecisionTreeNode) :
  select_best (tables xor_rows root) [1%nat; 0%nat] = Ok (Some 2%nat, 0%R).
Proof. eval_select (xor_gain_ratio root). Qed.

Ltac eval_closed t :=
  let v := eval vm_compute in t in change t with v.

(** One level of [_build_tree] on a concrete table; [sel] is the outcome of
    the candidate loop at this level. *)
Ltac build_level H sel :=
  rewrite (@build_tree_unfold H); unfold build_body;
  match goal with
  | |- context [rmap (index (decisions ?s)) ?idx] =>
      eval_closed (rmap (index (decisions s)) idx)
  end;
  cbn [rbind];
  match goal with
  | |- context [(length (@set_iter H ?d) =? 1)%nat] =>
      eval_closed ((length (@set_iter H d) =? 1)%nat)
  end;
  cbn iota;
  try (rewrite sel; cbn [rbind fst];
       try match goal with
         | |- context [dict_lookup (value_occurrences ?s) ?b] =>
             eval_closed (dict_lookup (value_occurrences s) b)
         end;
       cbn [rbind dict_keys map fst rmap];
       repeat match goal with
         | |- context [subset_indices ?s ?idx ?b ?v] =>
             eval_closed (subset_indices s idx b v)
         end;
       cbn [rbind]);
  repeat match goal with
    | |- context [@majority H ?d] => eval_closed (@majority H d)
    end;
  repeat match goal with
    | |- context [index ?d 0%nat] => eval_closed (index d 0%nat)
    end;
  cbn [rbind].

Lemma tie_leaf_insertion (root : option DecisionTreeNode) :
  @_build_tree insertion_order (@tables insertion_order tie_rows root)
    [0; 1]%nat [0%nat] =
  Ok (decision_node "yes").
Proof.
  build_level insertion_order (@tie_select_used insertion_order root). reflexivity.
Qed.

Lemma tie_leaf_reverse (root : option DecisionTreeNode) :
  @_build_tree reverse_order (@tables reverse_order tie_rows root)
    [0; 1]%nat [0%nat] =
  Ok (decision_node "no").
Proof.
  build_level reverse_order (@tie_select_used reverse_order root). reflexivity.
Qed.

Lemma tie_tree_insertion (root : option DecisionTreeNode) :
  @_build_tree insertion_order (@tables insertion_order tie_rows root)
    [0; 1]%nat [] =
  Ok (mkNode "Attribute a1" (Some 0%nat) None
        [mkNode ("a" ++ arrow ++ "Decision: yes") None (Some "yes"%string) []]).
Proof.
  build_level insertion_order (@tie_select_none insertion_order root).
  rewrite tie_leaf_insertion. reflexivity.
Qed.

Lemma tie_tree_reverse (root : option DecisionTreeNode) :
  @_build_tree reverse_order (@tables reverse_order tie_rows root)
    [0; 1]%nat [] =
  Ok (mkNode "Attribute a1" (Some 0%nat) None
        [mkNode ("a" ++ arrow ++ "Decision: no") None (Some "no"%string) []]).
Proof.
  build_level reverse_order (@tie_select_none reverse_order root).
  rewrite tie_leaf_reverse. reflexivity.
Qed.

Lemma xor_tree_level_2 (root : option DecisionTreeNode) :
  @_build_tree insertion_order (@tables insertion_order xor_rows root)
    [0; 1]%nat [1; 0]%nat =
  Ok (mkNode "Attribute a3" (Some 2%nat) None
        [mkNode ("u" ++ arrow ++ "Decision: yes") None (Some "yes"%string) [];
         mkNode ("v" ++ arrow ++ "Decision: no") None (Some "no"%string) []]).
Proof.
  build_level insertion_order (@xor_select_1_0 insertion_order root).
  build_level insertion_order (@xor_select_1_0 insertion_order root).
  build_level insertion_order (@xor_select_1_0 insertion_order root).
  reflexivity.
Qed.

Lemma xor_tree_level_1 (root : option DecisionTreeNode) :
  @_build_tree insertion_order (@tables insertion_order xor_rows root)
    [0; 1]%nat [0%nat] =
  Ok (mkNode "Attribute a2" (Some 1%nat) None
        [mkNode ("p" ++ arrow ++ "Attribute a3") (Some 2%nat) None
           [mkNode ("u" ++ arrow ++ "Decision: yes") None
                   (Some "yes"%string) [];
            mkNode ("v" ++ arrow ++ "Decision: no") None
                   (Some "no"%string) []]]).
Proof.
  build_level insertion_order (@xor_select_0 insertion_order root).
  rewrite xor_tree_level_2. reflexivity.
Qed.

Lemma xor_subset_gain_ratio_1 :
  @subset_gain_ratio insertion_order xor_rows [0; 1]%nat 1 = Ok 0%R.
Proof. unfold subset_gain_ratio. eval_gain_ratio. Qed.

Lemma xor_subset_gain_ratio_2 :
  @subset_gain_ratio insertion_order xor_rows [0; 1]%nat 2 = Ok 1%R.
Proof. unfold subset_gain_ratio. eval_gain_ratio. Qed.

(** ** Which statistics the candidate loop reads *)

(** C1, as the claim states it, fails on [xor_rows]: the root tests
    attribute 0; its branch for the value [x] holds the rows 0 and 1 and is
    built by the call with these rows and attribute 0 used. Over these two
    rows attribute 1 is constant (gain ratio 0) and attribute 2 separates the
    labels (gain ratio 1), yet the call returns a node that tests
    attribute 1. *)
Lemma C1_counterexample :
  exists s root kid child,
    @load_data insertion_order xor_rows init = (Ok tt, s) /\
    tree_root s = Some root /\
    attribute_index root = Some 0%nat /\
    nth_error (children root) 0 = Some kid /\
    subset_indices s (seq 0 (length xor_rows)) 0 "x" = Ok [0; 1]%nat /\
    @_build_tree insertion_order s [0; 1]%nat [0%nat] = Ok child /\
    kid = set_name child ("x" ++ arrow ++ name child)%string /\
    attribute_index child = Some 1%nat /\
    @subset_gain_ratio insertion_order xor_rows [0; 1]%nat 1 = Ok 0%R /\
    @subset_gain_ratio insertion_order xor_rows [0; 1]%nat 2 = Ok 1%R /\
    (0 < 1)%R.
Proof.
  destruct (@load_data_Ok insertion_order xor_rows init eq_refl)
    as [root [Hroot Hload]].
  change (tree_root init) with (@None DecisionTreeNode) in Hroot.
  change (length xor_rows) with 4%nat in Hroot.
  revert Hroot.
  build_level insertion_order (@xor_select_none insertion_order None).
  rewrite xor_tree_level_1.
  build_level insertion_order (@xor_select_0 insertion_order None).
  build_level insertion_order (@xor_select_1_0 insertion_order None).
  build_level insertion_order (@xor_select_1_0 insertion_order None).
  build_level insertion_order (@xor_select_1_0 insertion_order None).
  intros [= <-].
  eexists _, _, _, _.
  split; [exact Hload|]. split; [reflexivity|]. split; [reflexivity|].
  split; [reflexivity|]. split; [reflexivity|].
  split; [rewrite (@tables_build_tree_root insertion_order xor_rows _ None);
          apply xor_tree_level_1|].
  split; [reflexivity|]. split; [reflexivity|].
  split; [exact xor_subset_gain_ratio_1|].
  split; [exact xor_subset_gain_ratio_2|]. lra.
Qed.

(** C1, amended: on the tables left by [load_data], whenever a call of
    [_build_tree] returns an attribute node, the attribute it tests is an
    attribute of the table that is not yet used and whose gain ratio, read
    from the tables of the whole dataset, is above -1, is at least that of
    every other unused attribute and is strictly above that of every unused
    attribute of smaller index. The rows of the call play no part. *)
Theorem C1_selection_uses_global_gain_ratio `{PySet}
  (rows : list (list string)) (s0 : DecisionTree) :
  wf_rows rows = true ->
  exists s,
    load_data rows s0 = (Ok tt, s) /\
    forall idx used node a,
      _build_tree s idx used = Ok node -> attribute_index node = Some a ->
      (a < n_attributes rows)%nat /\ ~ In a used /\
      exists g,
        calculate_gain_ratio s a = Ok g /\ (-1 < g)%R /\
        forall b, (b < n_attributes rows)%nat -> ~ In b used ->
          exists gb,
            calculate_gain_ratio s b = Ok gb /\ (gb <= g)%R /\
            ((b < a)%nat -> (gb < g)%R).
Proof.
  intros Hwf. destruct (wf_rows_inv rows Hwf) as [Hne _].
  destruct (load_data_Ok rows s0 Hwf) as [root [_ Hload]].
  exists (tables rows (Some root)). split; [exact Hload|].
  intros idx used node a Hbuild Hattr.
  rewrite build_tree_unfold in Hbuild.
  destruct (build_body_inv _ _ _ _ _ Hbuild) as [decs [_ Hcases]].
  destruct Hcases as [[_ [d0 [_ ->]]] | [[_ [g [m [_ [_ ->]]]]] | Hsplit]];
    try discriminate.
  destruct Hsplit as [_ [b' [g [values [kids [Hsel [_ [_ ->]]]]]]]].
  cbn [attribute_index] in Hattr. injection Hattr as ->.
  destruct (select_best_Some _ _ _ _ Hsel)
    as [l1 [l2 [Hkeys [Hnu [Hg [Hgt [Hmax Hfirst]]]]]]].
  rewrite tables_keys in Hkeys.
  assert (Ha : (a < n_attributes rows)%nat).
  { assert (Hin : In a (seq 0 (n_attributes rows)))
      by (rewrite Hkeys; apply in_elt).
    apply in_seq in Hin. lia. }
  split; [exact Ha|]. split; [exact Hnu|].
  exists g. split; [exact Hg|]. split; [exact Hgt|].
  intros b Hb Hbu.
  destruct (tables_gain_ratio_Ok rows (Some root) b Hne Hb) as [gb Hgb].
  exists gb. split; [exact Hgb|].
  assert (Hbk : In b (dict_keys (unique_attributes_values
                                   (tables rows (Some root)))))
    by (rewrite tables_keys; apply in_seq; lia).
  pose proof (Hmax b Hbk Hbu) as Hle.
  rewrite (gain_ratio_Ok _ _ _ Hgb) in Hle. split; [exact Hle|].
  intros Hba.
  assert (Hb1 : In b l1).
  { assert (Hin : In b (l1 ++ a :: l2))
      by (rewrite <- Hkeys; apply in_seq; lia).
    apply in_app_or in Hin. destruct Hin as [Hin|[Heq|Hin]];
      [exact Hin | lia |].
    pose proof (seq_split_lt l1 l2 a 0 _ Hkeys b Hin). lia. }
  pose proof (Hfirst b Hb1 Hbu) as Hlt.
  now rewrite (gain_ratio_Ok _ _ _ Hgb) in Hlt.
Qed.

Lemma C1_witness :
  wf_rows scenario_rows = true /\
  exists s,
    @load_data insertion_order scenario_rows init = (Ok tt, s) /\
    forall idx used node a,
      @_build_tree insertion_order s idx used = Ok node ->
      attribute_index node = Some a ->
      (a < n_attributes scenario_rows)%nat /\ ~ In a used /\
      exists g,
        calculate_gain_ratio s a = Ok g /\ (-1 < g)%R /\
        forall b, (b < n_attributes scenario_rows)%nat -> ~ In b used ->
          exists gb,
            calculate_gain_ratio s b = Ok gb /\ (gb <= g)%R /\
            ((b < a)%nat -> (gb < g)%R).
Proof.
  split; [reflexivity|].
  apply (@C1_selection_uses_global_gain_ratio insertion_order scenario_rows
           init).
  reflexivity.
Defined.

(** ** Two builds of one table *)

Lemma set_iter_length (H1 H2 : PySet) (l : list string) :
  length (@set_iter H1 l) = length (@set_iter H2 l).
Proof.
  apply Permutation_length, NoDup_Permutation.
  - apply set_iter_NoDup.
  - apply set_iter_NoDup.
  - intros x. now rewrite !set_iter_In.
Qed.

(** The tables do not depend on the iteration order of sets. *)
Lemma tables_set_order (H1 H2 : PySet) (rows : list (list string))
  (root : option DecisionTreeNode) :
  @tables H1 rows root = @tables H2 rows root.
Proof.
  unfold tables. f_equal. apply map_ext. intros i.
  now rewrite (set_iter_length H1 H2).
Qed.

Lemma skeleton_set_name (n : DecisionTreeNode) (s : string) :
  skeleton (set_name n s) = skeleton n.
Proof. now destruct n. Qed.

Lemma Forall2_same_left {A B : Type} (R1 R2 : A -> B -> Prop)
  (Rel : B -> B -> Prop) (xs : list A) (ys1 ys2 : list B) :
  Forall2 R1 xs ys1 -> Forall2 R2 xs ys2 ->
  (forall x y1 y2, R1 x y1 -> R2 x y2 -> Rel y1 y2) ->
  Forall2 Rel ys1 ys2.
Proof.
  intros H1. revert ys2.
  induction H1 as [|x y1 xs ys1 Hxy _ IH]; intros ys2 H2 Hrel;
    inversion H2; subst; constructor; eauto.
Qed.

Section TwoBuilds.
Variables H1 H2 : PySet.
Variable Rel : DecisionTreeNode -> DecisionTreeNode -> Prop.
Hypothesis Rel_decision : forall d, Rel (decision_node d) (decision_node d).
Hypothesis Rel_majority :
  forall decs m1 m2 (label : string -> string),
    @majority H1 decs = Ok m1 -> @majority H2 decs = Ok m2 ->
    Rel (mkNode (label m1) None (Some m1) [])
        (mkNode (label m2) None (Some m2) []).
Hypothesis Rel_set_name :
  forall c1 c2 value,
    Rel c1 c2 ->
    Rel (set_name c1 (value ++ arrow ++ name c1)%string)
        (set_name c2 (value ++ arrow ++ name c2)%string).
Hypothesis Rel_attribute :
  forall s b kids1 kids2,
    Forall2 Rel kids1 kids2 ->
    Rel (mkNode s (Some b) None kids1) (mkNode s (Some b) None kids2).

(** Two builds over the same tables, each with its own set order, return
    related nodes. *)
Lemma build_tree_related (self : DecisionTree) :
  forall idx used n1,
    @_build_tree H1 self idx used = Ok n1 ->
    forall n2, @_build_tree H2 self idx used = Ok n2 -> Rel n1 n2.
Proof.
  apply (@build_tree_induction H1 self
    (fun idx used n1 =>
       forall n2, @_build_tree H2 self idx used = Ok n2 -> Rel n1 n2)).
  intros recur idx used n1 IH Hb1 n2 Hb2.
  rewrite (@build_tree_unfold H2) in Hb2.
  destruct (@build_body_inv H1 _ _ _ _ _ Hb1) as [decs [Hdecs Hc1]].
  destruct (@build_body_inv H2 _ _ _ _ _ Hb2) as [decs' [Hdecs' Hc2]].
  assert (decs' = decs) by congruence. subst decs'. clear Hdecs'.
  pose proof (set_iter_length H1 H2 decs) as Hlen.
  destruct Hc1 as [[Hp1 [d1 [Hd1 ->]]] | [[Hp1 [g1 [m1 [Hs1 [Hm1 ->]]]]] | Hs1]];
  destruct Hc2 as [[Hp2 [d2 [Hd2 ->]]] | [[Hp2 [g2 [m2 [Hs2 [Hm2 ->]]]]] | Hs2]];
    try solve [exfalso; lia].
  - assert (d2 = d1) by congruence. subst. apply Rel_decision.
  - exact (Rel_majority decs m1 m2
             (fun m => ("Decision: " ++ m)%string) Hm1 Hm2).
  - destruct Hs2 as [_ [b2 [g2' [v2 [k2 [Hs2 _]]]]]]. congruence.
  - destruct Hs1 as [_ [b1 [g1' [v1 [k1 [Hs1 _]]]]]]. congruence.
  - destruct Hs1 as [_ [b1 [g1 [v1 [k1 [Hs1 [Hv1 [Hk1 ->]]]]]]]].
    destruct Hs2 as [_ [b2 [g2 [v2 [k2 [Hs2 [Hv2 [Hk2 ->]]]]]]]].
    assert (b2 = b1) by congruence. subst b2.
    assert (v2 = v1) by congruence. subst v2.
    apply Rel_attribute.
    apply (Forall2_same_left _ _ _ _ _ _ Hk1 Hk2).
    intros value kid1 kid2 [sub1 [Hsub1 Hkid1]] [sub2 [Hsub2 Hkid2]].
    assert (sub2 = sub1) by congruence. subst sub2.
    destruct Hkid1 as [[He1 [m1 [Hm1 ->]]]|[Hn1 [c1 [Hr1 ->]]]];
    destruct Hkid2 as [[He2 [m2 [Hm2 ->]]]|[Hn2 [c2 [Hr2 ->]]]];
      try contradiction.
    + exact (Rel_majority decs m1 m2
               (fun m => (value ++ arrow ++ "Decision: " ++ m)%string)
               Hm1 Hm2).
    + apply Rel_set_name. exact (IH _ _ _ Hr1 _ Hr2).
Qed.
End TwoBuilds.

Lemma skeleton_Forall2 (kids1 kids2 : list DecisionTreeNode) :
  Forall2 (fun a b => skeleton a = skeleton b) kids1 kids2 ->
  map skeleton kids1 = map skeleton kids2.
Proof. induction 1; simpl; congruence. Qed.

(** Whatever the two set orders, the trees have the same shape and test the
    same attributes. *)
Lemma build_tree_skeleton (H1 H2 : PySet) (self : DecisionTree)
  (idx used : list nat) (n1 n2 : DecisionTreeNode) :
  @_build_tree H1 self idx used = Ok n1 ->
  @_build_tree H2 self idx used = Ok n2 ->
  skeleton n1 = skeleton n2.
Proof.
  intros Hb1 Hb2.
  refine (build_tree_related H1 H2 (fun a b => skeleton a = skeleton b)
            _ _ _ _ self idx used n1 Hb1 n2 Hb2).
  - reflexivity.
  - reflexivity.
  - intros c1 c2 value Hc. now rewrite !skeleton_set_name.
  - intros s b kids1 kids2 Hk. simpl. f_equal. now apply skeleton_Forall2.
Qed.

Lemma eq_Forall2 (kids1 kids2 : list DecisionTreeNode) :
  Forall2 eq kids1 kids2 -> kids1 = kids2.
Proof. induction 1; congruence. Qed.

(** With the same set order, the trees are the same. *)
Lemma build_tree_same_order (H1 H2 : PySet) (self : DecisionTree)
  (idx used : list nat) (n1 n2 : DecisionTreeNode) :
  (forall l, @set_iter H1 l = @set_iter H2 l) ->
  @_build_tree H1 self idx used = Ok n1 ->
  @_build_tree H2 self idx used = Ok n2 ->
  n1 = n2.
Proof.
  intros Hext Hb1 Hb2.
  refine (build_tree_related H1 H2 eq _ _ _ _ self idx used n1 Hb1 n2 Hb2).
  - reflexivity.
  - intros decs m1 m2 label Hm1 Hm2. unfold majority in *.
    rewrite Hext in Hm1. congruence.
  - intros c1 c2 value ->. reflexivity.
  - intros s b kids1 kids2 Hk. f_equal. now apply eq_Forall2.
Qed.

(** C8, as the claim states it, fails on [tie_rows]: the two rows agree on
    the attribute and carry different labels, so the majority vote under the
    only branch is tied. With sets iterated in insertion order the leaf says
    [yes]; with the opposite order it says [no]. *)
Lemma C8_counterexample :
  exists s1 s2 t1 t2,
    @load_data insertion_order tie_rows init = (Ok tt, s1) /\
    tree_root s1 = Some t1 /\
    @load_data reverse_order tie_rows init = (Ok tt, s2) /\
    tree_root s2 = Some t2 /\
    t1 = mkNode "Attribute a1" (Some 0%nat) None
           [mkNode ("a" ++ arrow ++ "Decision: yes") None
                   (Some "yes"%string) []] /\
    t2 = mkNode "Attribute a1" (Some 0%nat) None
           [mkNode ("a" ++ arrow ++ "Decision: no") None
                   (Some "no"%string) []] /\
    t1 <> t2.
Proof.
  destruct (@load_data_Ok insertion_order tie_rows init eq_refl)
    as [t1 [Hroot1 Hload1]].
  destruct (@load_data_Ok reverse_order tie_rows init eq_refl)
    as [t2 [Hroot2 Hload2]].
  change (seq 0 (length tie_rows)) with [0; 1]%nat in Hroot1, Hroot2.
  rewrite tie_tree_insertion in Hroot1. rewrite tie_tree_reverse in Hroot2.
  injection Hroot1 as <-. injection Hroot2 as <-.
  eexists _, _, _, _.
  split; [exact Hload1|]. split; [reflexivity|].
  split; [exact Hload2|]. split; [reflexivity|].
  split; [reflexivity|]. split; [reflexivity|]. discriminate.
Qed.

(** C8, amended: two builds of the same table, each with its own iteration
    order for sets of labels, both complete and give trees of the same shape
    that test the same attribute at each attribute node; when the two orders
    are the same, the trees are equal, names and leaf labels included. *)
Theorem C8_rebuild_gives_same_shape_and_attributes (H1 H2 : PySet)
  (rows : list (list string)) (s0 : DecisionTree) :
  wf_rows rows = true ->
  exists s1 s2 t1 t2,
    @load_data H1 rows s0 = (Ok tt, s1) /\ tree_root s1 = Some t1 /\
    @load_data H2 rows s0 = (Ok tt, s2) /\ tree_root s2 = Some t2 /\
    skeleton t1 = skeleton t2 /\
    ((forall l, @set_iter H1 l = @set_iter H2 l) -> t1 = t2).
Proof.
  intros Hwf.
  destruct (@load_data_Ok H1 rows s0 Hwf) as [t1 [Hroot1 Hload1]].
  destruct (@load_data_Ok H2 rows s0 Hwf) as [t2 [Hroot2 Hload2]].
  rewrite (tables_set_order H2 H1) in Hroot2.
  exists (@tables H1 rows (Some t1)), (@tables H2 rows (Some t2)), t1, t2.
  split; [exact Hload1|]. split; [reflexivity|].
  split; [exact Hload2|]. split; [reflexivity|]. split.
  - exact (build_tree_skeleton H1 H2 _ _ _ _ _ Hroot1 Hroot2).
  - intros Hext.
    exact (build_tree_same_order H1 H2 _ _ _ _ _ Hext Hroot1 Hroot2).
Qed.

Lemma C8_witness :
  wf_rows tie_rows = true /\
  exists s1 s2 t1 t2,
    @load_data insertion_order tie_rows init = (Ok tt, s1) /\
    tree_root s1 = Some t1 /\
    @load_data reverse_order tie_rows init = (Ok tt, s2) /\
    tree_root s2 = Some t2 /\
    skeleton t1 = skeleton t2 /\
    ((forall l, @set_iter insertion_order l = @set_iter reverse_order l) ->
     t1 = t2).
Proof.
  split; [reflexivity|].
  apply (C8_rebuild_gives_same_shape_and_attributes insertion_order
           reverse_order tie_rows init).
  reflexivity.
Defined.

(** * Further properties of the code *)

(** ** What the frequency tables hold *)

(** X1: after [load_data], [value_occurrences[attr]] maps every value the
    attribute takes to the number of rows that carry it, has no other key,
    and lists the values in order of first occurrence. *)
Theorem X1_value_occurrences_count_rows `{PySet}
  (rows : list (list string)) (s0 : DecisionTree) (attr : nat) :
  wf_rows rows = true -> (attr < n_attributes rows)%nat ->
  exists s value_counts,
    load_data rows s0 = (Ok tt, s) /\
    dict_get (value_occurrences s) attr = Some value_counts /\
    dict_keys value_counts = first_seen (column (attributes s) attr) /\
    (forall v, In v (column (attributes s) attr) ->
       dict_get value_counts v = Some (count (column (attributes s) attr) v)) /\
    (forall v, ~ In v (column (attributes s) attr) ->
       dict_get value_counts v = None).
Proof.
  intros Hwf Hattr.
  destruct (load_data_Ok rows s0 Hwf) as [root [_ Hload]].
  exists (tables rows (Some root)),
         (tally (column (map (@removelast string) rows) attr)).
  split; [exact Hload|].
  split; [now apply tables_value_occurrences|].
  change (attributes (tables rows (Some root)))
    with (map (@removelast string) rows).
  split; [apply tally_keys|]. split.
  - intros v. apply tally_get_In.
  - intros v. apply tally_get_not_In.
Qed.

Lemma X1_witness :
  wf_rows scenario_rows = true /\ (1 < n_attributes scenario_rows)%nat /\
  exists s value_counts,
    @load_data insertion_order scenario_rows init = (Ok tt, s) /\
    dict_get (value_occurrences s) 1 = Some value_counts /\
    dict_keys value_counts = first_seen (column (attributes s) 1) /\
    (forall v, In v (column (attributes s) 1) ->
       dict_get value_counts v = Some (count (column (attributes s) 1) v)) /\
    (forall v, ~ In v (column (attributes s) 1) ->
       dict_get value_counts v = None).
Proof.
  split; [reflexivity|]. split; [vm_compute; lia|].
  apply (@X1_value_occurrences_count_rows insertion_order scenario_rows init 1);
    [reflexivity | vm_compute; lia].
Defined.

(** X2: after [load_data], [decision_counts] maps every label of the table
    to the number of rows that carry it, has no other key, and lists the
    labels in order of first occurrence; its counts add up to the number of
    rows. *)
Theorem X2_decision_counts_count_rows `{PySet}
  (rows : list (list string)) (s0 : DecisionTree) :
  wf_rows rows = true ->
  exists s,
    load_data rows s0 = (Ok tt, s) /\
    dict_keys (decision_counts s) = first_seen (decisions s) /\
    (forall d, In d (decisions s) ->
       dict_get (decision_counts s) d = Some (count (decisions s) d)) /\
    (forall d, ~ In d (decisions s) ->
       dict_get (decision_counts s) d = None) /\
    sum_values (decision_counts s) = Z.of_nat (length (data s)).
Proof.
  intros Hwf.
  destruct (load_data_Ok rows s0 Hwf) as [root [_ Hload]].
  exists (tables rows (Some root)). split; [exact Hload|].
  unfold tables. cbn [decision_counts decisions data].
  split; [apply tally_keys|]. split; [|split].
  - intros d. apply tally_get_In.
  - intros d. apply tally_get_not_In.
  - rewrite sum_values_tally. unfold labels. now rewrite length_map.
Qed.

Lemma X2_witness :
  wf_rows scenario_rows = true /\
  exists s,
    @load_data insertion_order scenario_rows init = (Ok tt, s) /\
    dict_keys (decision_counts s) = first_seen (decisions s) /\
    (forall d, In d (decisions s) ->
       dict_get (decision_counts s) d = Some (count (decisions s) d)) /\
    (forall d, ~ In d (decisions s) ->
       dict_get (decision_counts s) d = None) /\
    sum_values (decision_counts s) = Z.of_nat (length (data s)).
Proof.
  split; [reflexivity|].
  apply (@X2_decision_counts_count_rows insertion_order scenario_rows init).
  reflexivity.
Defined.

(** X3: after [load_data], [attribute_decision_counts[attr][v][d]] is the
    number of rows that carry value [v] for the attribute and label [d];
    a value that no row carries is no key of [attribute_decision_counts[attr]]
    and a label that no such row carries is no key under [v]. *)
Theorem X3_attribute_decision_counts_count_rows `{PySet}
  (rows : list (list string)) (s0 : DecisionTree) (attr : nat) :
  wf_rows rows = true -> (attr < n_attributes rows)%nat ->
  exists s by_value,
    load_data rows s0 = (Ok tt, s) /\
    dict_get (attribute_decision_counts s) attr = Some by_value /\
    (forall v, ~ In v (column (attributes s) attr) ->
       dict_get by_value v = None) /\
    (forall v, In v (column (attributes s) attr) ->
       exists by_label,
         dict_get by_value v = Some by_label /\
         forall d,
           let with_v :=
             labels_of v (combine (column (attributes s) attr) (decisions s))
           in
           dict_get by_label d =
           if (0 <? count with_v d)%Z then Some (count with_v d) else None).
Proof.
  intros Hwf Hattr.
  destruct (load_data_Ok rows s0 Hwf) as [root [_ Hload]].
  exists (tables rows (Some root)),
         (tally2 (combine (column (map (@removelast string) rows) attr)
                          (labels rows))).
  split; [exact Hload|].
  split; [now apply tables_attribute_decision_counts|].
  change (attributes (tables rows (Some root)))
    with (map (@removelast string) rows).
  change (decisions (tables rows (Some root))) with (labels rows).
  assert (Hsame : length (column (map (@removelast string) rows) attr) =
                  length (labels rows))
    by (rewrite tables_column_length; unfold labels; now rewrite length_map).
  split.
  - intros v Hv. apply tally2_get_not_In.
    now rewrite (map_fst_combine_same _ _ Hsame).
  - intros v Hv. eexists. split.
    + apply tally2_get_In. now rewrite (map_fst_combine_same _ _ Hsame).
    + intros d. cbv zeta. apply tally_get.
Qed.

Lemma X3_witness :
  wf_rows scenario_rows = true /\ (0 < n_attributes scenario_rows)%nat /\
  exists s by_value,
    @load_data insertion_order scenario_rows init = (Ok tt, s) /\
    dict_get (attribute_decision_counts s) 0 = Some by_value /\
    (forall v, ~ In v (column (attributes s) 0) ->
       dict_get by_value v = None) /\
    (forall v, In v (column (attributes s) 0) ->
       exists by_label,
         dict_get by_value v = Some by_label /\
         forall d,
           let with_v :=
             labels_of v (combine (column (attributes s) 0) (decisions s))
           in
           dict_get by_label d =
           if (0 <? count with_v d)%Z then Some (count with_v d) else None).
Proof.
  split; [reflexivity|]. split; [vm_compute; lia|].
  apply (@X3_attribute_decision_counts_count_rows insertion_order
           scenario_rows init 0); [reflexivity | vm_compute; lia].
Defined.

(** X4: after [load_data] the four tables agree: each of the three tables
    indexed by attribute has the keys 0, 1, ... up to the number of
    attributes of the first row, and for every attribute the number stored in
    [unique_attributes_values] is the number of keys of
    [value_occurrences[attr]], whose keys are also the keys, in the same
    order, of [attribute_decision_counts[attr]]. *)
Theorem X4_tables_agree_on_keys `{PySet}
  (rows : list (list string)) (s0 : DecisionTree) :
  wf_rows rows = true ->
  exists s,
    load_data rows s0 = (Ok tt, s) /\
    dict_keys (unique_attributes_values s) = seq 0 (n_attributes rows) /\
    dict_keys (value_occurrences s) = seq 0 (n_attributes rows) /\
    dict_keys (attribute_decision_counts s) = seq 0 (n_attributes rows) /\
    forall attr, (attr < n_attributes rows)%nat ->
      exists unique value_counts by_value,
        dict_get (unique_attributes_values s) attr = Some unique /\
        dict_get (value_occurrences s) attr = Some value_counts /\
        dict_get (attribute_decision_counts s) attr = Some by_value /\
        unique = Z.of_nat (length (dict_keys value_counts)) /\
        dict_keys by_value = dict_keys value_counts.
Proof.
  intros Hwf.
  destruct (load_data_Ok rows s0 Hwf) as [root [_ Hload]].
  exists (tables rows (Some root)). split; [exact Hload|].
  split; [apply tables_keys|].
  split; [unfold tables; cbn [value_occurrences]; apply dict_keys_map_seq|].
  split; [unfold tables; cbn [attribute_decision_counts];
          apply dict_keys_map_seq|].
  intros attr Hattr.
  exists (Z.of_nat (length (set_iter (column (map (@removelast string) rows)
                                             attr)))),
         (tally (column (map (@removelast string) rows) attr)),
         (tally2 (combine (column (map (@removelast string) rows) attr)
                          (labels rows))).
  split.
  { unfold tables. cbn [unique_attributes_values].
    apply (dict_get_map_seq
             (fun i => Z.of_nat (length (set_iter
                        (column (map (@removelast string) rows) i))))).
    lia. }
  split; [now apply tables_value_occurrences|].
  split; [now apply tables_attribute_decision_counts|].
  assert (Hsame : length (column (map (@removelast string) rows) attr) =
                  length (labels rows))
    by (rewrite tables_column_length; unfold labels; now rewrite length_map).
  split.
  - rewrite tally_keys. f_equal.
    exact (set_iter_length _ insertion_order _).
  - now rewrite tally2_keys, tally_keys, (map_fst_combine_same _ _ Hsame).
Qed.

Lemma X4_witness :
  wf_rows scenario_rows = true /\
  exists s,
    @load_data reverse_order scenario_rows init = (Ok tt, s) /\
    dict_keys (unique_attributes_values s) =
      seq 0 (n_attributes scenario_rows) /\
    dict_keys (value_occurrences s) = seq 0 (n_attributes scenario_rows) /\
    dict_keys (attribute_decision_counts s) =
      seq 0 (n_attributes scenario_rows) /\
    forall attr, (attr < n_attributes scenario_rows)%nat ->
      exists unique value_counts by_value,
        dict_get (unique_attributes_values s) attr = Some unique /\
        dict_get (value_occurrences s) attr = Some value_counts /\
        dict_get (attribute_decision_counts s) attr = Some by_value /\
        unique = Z.of_nat (length (dict_keys value_counts)) /\
        dict_keys by_value = dict_keys value_counts.
Proof.
  split; [reflexivity|].
  apply (@X4_tables_agree_on_keys reverse_order scenario_rows init).
  reflexivity.
Defined.

(** ** Rows that are too short *)

Lemma index_Ok_or_IndexError {A : Type} (xs : list A) (i : nat) :
  (exists x, index xs i = Ok x) \/ index xs i = Raise IndexError.
Proof. unfold index. destruct (nth_error xs i); eauto. Qed.

Lemma index_short {A : Type} (xs : list A) (i : nat) :
  (length xs <= i)%nat -> index xs i = Raise IndexError.
Proof.
  intros Hle. unfold index.
  now rewrite (proj2 (nth_error_None xs i) Hle).
Qed.

Lemma rmap_index_short (rows : list (list string)) (i : nat) :
  Exists (fun row => (length row <= i)%nat) rows ->
  rmap (fun row => index row i) rows = Raise IndexError.
Proof.
  induction rows as [|row rows IH]; intros Hex; [inversion Hex|].
  cbn [rmap].
  destruct (index_Ok_or_IndexError row i) as [[x Hx]|Hx]; rewrite Hx;
    cbn [rbind]; [|reflexivity].
  inversion Hex as [? ? Hshort|? ? Hrest]; subst.
  - rewrite (index_short _ _ Hshort) in Hx. discriminate.
  - now rewrite (IH Hrest).
Qed.

Lemma unique_values_step_cases `{PySet} (rows : list (list string))
  (uv : dict nat (list string)) (i : nat) :
  (exists uv', unique_values_step rows uv i = Ok uv') \/
  unique_values_step rows uv i = Raise IndexError.
Proof.
  unfold unique_values_step.
  assert (Hcases : (exists col, rmap (fun row => index row i) rows = Ok col) \/
                   rmap (fun row => index row i) rows = Raise IndexError).
  { induction rows as [|row rows IH]; cbn [rmap]; [eauto|].
    destruct (index_Ok_or_IndexError row i) as [[x Hx]|Hx]; rewrite Hx;
      cbn [rbind]; [|now right].
    destruct IH as [[col Hcol]|Hcol]; rewrite Hcol; cbn [rbind]; eauto. }
  destruct Hcases as [[col Hcol]|Hcol]; rewrite Hcol; cbn [rbind]; eauto.
Qed.

Lemma unique_values_loop_short `{PySet} (rows : list (list string))
  (l : list nat) :
  (exists i, In i l /\ Exists (fun row => (length row <= i)%nat) rows) ->
  forall uv, rfold (unique_values_step rows) l uv = Raise IndexError.
Proof.
  induction l as [|a l IH]; intros [i [Hin Hshort]] uv; [contradiction|].
  cbn [rfold].
  destruct (unique_values_step_cases rows uv a) as [[uv' Hok]|Hraise].
  - rewrite Hok. cbn [rbind]. destruct Hin as [->|Hin].
    + unfold unique_values_step in Hok.
      rewrite (rmap_index_short _ _ Hshort) in Hok. discriminate.
    + apply IH. eauto.
  - now rewrite Hraise.
Qed.

Lemma load_data_short_row `{PySet}
  (rows : list (list string)) (s0 : DecisionTree) :
  Forall (fun row => row <> []) rows ->
  Exists (fun row => (length row < length (hd [] rows))%nat) rows ->
  load_data rows s0 =
  (Raise IndexError,
   set_decisions (labels rows)
     (set_attributes (map (@removelast string) rows) (set_data rows s0))).
Proof.
  intros Hne Hshort.
  unfold load_data.
  unfold bind at 1. unfold modify at 1.
  unfold bind at 1. unfold modify at 1.
  unfold bind at 1. unfold getsr at 1.
  cbn [data set_data set_attributes].
  rewrite (rmap_index_last rows Hne).
  unfold bind at 1. unfold modify at 1.
  unfold bind at 1. unfold _count_unique_attributes_values.
  unfold bind at 1. unfold getsr at 1.
  cbn [attributes set_decisions set_attributes set_data].
  destruct rows as [|row0 rest]; [inversion Hshort|].
  cbn [map index nth_error]. cbn [hd] in Hshort.
  unfold bind at 1. unfold getsr at 1.
  cbn [attributes set_decisions set_attributes set_data].
  rewrite unique_values_loop_short; [reflexivity|].
  apply Exists_exists in Hshort. destruct Hshort as [row [Hin Hlt]].
  exists (length (removelast row)). split.
  - apply in_seq. rewrite !length_removelast_pred.
    rewrite Forall_forall in Hne. specialize (Hne row Hin).
    destruct row; [contradiction|]. simpl in *. lia.
  - apply Exists_exists. exists (removelast row). split; [|lia].
    apply (in_map (@removelast string)) in Hin. exact Hin.
Qed.

(** X5: when every line has at least one field and some row has fewer
    fields than the first one, [load_data] raises [IndexError] in its first
    counting pass; the four tables and the tree root stay what they were. *)
Theorem X5_short_row_raises_IndexError `{PySet}
  (rows : list (list string)) (s0 : DecisionTree) :
  Forall (fun row => row <> []) rows ->
  Exists (fun row => (length row < length (hd [] rows))%nat) rows ->
  exists s,
    load_data rows s0 = (Raise IndexError, s) /\
    tree_root s = tree_root s0 /\
    unique_attributes_values s = unique_attributes_values s0 /\
    value_occurrences s = value_occurrences s0 /\
    decision_counts s = decision_counts s0 /\
    attribute_decision_counts s = attribute_decision_counts s0.
Proof.
  intros Hne Hshort. eexists.
  split; [now apply load_data_short_row | repeat split; reflexivity].
Qed.

Lemma X5_witness :
  Forall (fun row => row <> [])
         [["a"; "x"; "yes"]; ["b"; "no"]]%string /\
  Exists (fun row =>
            (length row <
             length (hd [] [["a"; "x"; "yes"]; ["b"; "no"]]%string))%nat)
         [["a"; "x"; "yes"]; ["b"; "no"]]%string /\
  exists s,
    @load_data insertion_order [["a"; "x"; "yes"]; ["b"; "no"]]%string init =
      (Raise IndexError, s) /\
    tree_root s = tree_root init /\
    unique_attributes_values s = unique_attributes_values init /\
    value_occurrences s = value_occurrences init /\
    decision_counts s = decision_counts init /\
    attribute_decision_counts s = attribute_decision_counts init.
Proof.
  assert (Hne : Forall (fun row => row <> [])
                       [["a"; "x"; "yes"]; ["b"; "no"]]%string)
    by (repeat constructor; discriminate).
  assert (Hshort : Exists (fun row =>
            (length row <
             length (hd [] [["a"; "x"; "yes"]; ["b"; "no"]]%string))%nat)
            [["a"; "x"; "yes"]; ["b"; "no"]]%string)
    by (apply Exists_cons_tl, Exists_cons_hd; simpl; lia).
  split; [exact Hne|]. split; [exact Hshort|].
  exact (@X5_short_row_raises_IndexError insertion_order _ init Hne Hshort).
Defined.

(** ** The base cases of the builder *)

Lemma rmap_index_all (l : list string) (idx : list nat) (d : string) :
  (forall i, In i idx -> nth_error l i = Some d) ->
  rmap (index l) idx = Ok (repeat d (length idx)).
Proof.
  induction idx as [|i idx IH]; intros Hall; [reflexivity|].
  cbn [rmap length repeat]. unfold index at 1.
  rewrite (Hall i (or_introl eq_refl)). cbn [rbind].
  rewrite IH by (intros j Hj; apply Hall; now right). reflexivity.
Qed.

Lemma set_iter_repeat `{PySet} (d : string) (k : nat) :
  length (set_iter (repeat d (S k))) = 1%nat.
Proof.
  pose proof (set_iter_NoDup (repeat d (S k))) as Hnd.
  assert (Hd : In d (set_iter (repeat d (S k))))
    by (apply set_iter_In; now left).
  assert (Hall : forall x, In x (set_iter (repeat d (S k))) -> x = d).
  { intros x Hx. apply (proj1 (set_iter_In _ _)) in Hx. now apply repeat_spec in Hx. }
  destruct (set_iter (repeat d (S k))) as [|x [|y l]];
    [contradiction | reflexivity |].
  exfalso. inversion Hnd as [|? ? Hnot _]; subst. apply Hnot.
  rewrite (Hall x (or_introl eq_refl)).
  rewrite <- (Hall y (or_intror (or_introl eq_refl))). now left.
Qed.

(** X6: whatever the tables hold and whatever attributes are marked as used,
    when the rows of a call are not empty and all carry the same label,
    [_build_tree] returns a leaf with that label, named after it. *)
Theorem X6_one_label_gives_a_leaf `{PySet}
  (self : DecisionTree) (idx used : list nat) (d : string) :
  idx <> [] ->
  (forall i, In i idx -> nth_error (decisions self) i = Some d) ->
  _build_tree self idx used =
  Ok (mkNode ("Decision: " ++ d)%string None (Some d) []).
Proof.
  intros Hne Hall. rewrite build_tree_unfold. unfold build_body.
  rewrite (rmap_index_all _ _ _ Hall). cbn [rbind].
  destruct idx as [|i idx]; [contradiction|].
  cbn [length]. rewrite set_iter_repeat. reflexivity.
Qed.

Lemma X6_witness :
  [1; 2; 3]%nat <> [] /\
  (forall i, In i [1; 2; 3]%nat ->
     nth_error (decisions (@tables insertion_order scenario_rows None)) i =
     Some "no"%string) /\
  @_build_tree insertion_order (@tables insertion_order scenario_rows None)
    [1; 2; 3]%nat [] =
  Ok (mkNode "Decision: no" None (Some "no"%string) []).
Proof.
  assert (Hall : forall i, In i [1; 2; 3]%nat ->
            nth_error (decisions (@tables insertion_order scenario_rows None))
                      i = Some "no"%string)
    by (intros i [<-|[<-|[<-|[]]]]; reflexivity).
  split; [discriminate|]. split; [exact Hall|].
  apply (@X6_one_label_gives_a_leaf insertion_order _ [1; 2; 3]%nat [] "no");
    [discriminate | exact Hall].
Defined.

(** ** The majority label *)

(** X7: [max(set(decisions), key=decisions.count)] raises [ValueError] on
    no labels; otherwise it returns a label of the list that no label of the
    list occurs more often than, namely the first one, in the iteration order
    of the set, that occurs that often. *)
Theorem X7_majority_is_a_most_frequent_label `{PySet}
  (decs : list string) :
  (decs = [] -> majority decs = Raise ValueError) /\
  (decs <> [] ->
   exists m l1 l2,
     majority decs = Ok m /\ In m decs /\
     (forall x, In x decs -> (count decs x <= count decs m)%Z) /\
     set_iter decs = l1 ++ m :: l2 /\
     (forall x, In x l1 -> (count decs x < count decs m)%Z)).
Proof.
  split.
  - intros ->. unfold majority, py_max.
    destruct (set_iter []) as [|x l] eqn:E; [reflexivity|].
    assert (Hin : In x (set_iter [])) by (rewrite E; now left).
    apply (proj1 (set_iter_In _ _)) in Hin. contradiction.
  - intros Hne. destruct (majority_Ok decs Hne) as [m Hm].
    destruct (majority_most_frequent decs m Hm)
      as [Hin [Hmax [l1 [l2 [Hl Hb]]]]].
    exists m, l1, l2. auto.
Qed.

Lemma X7_witness :
  (@nil string = [] -> @majority reverse_order [] = Raise ValueError) /\
  ["no"; "yes"; "no"]%string <> [] /\
  exists m l1 l2,
    @majority reverse_order ["no"; "yes"; "no"]%string = Ok m /\
    In m ["no"; "yes"; "no"]%string /\
    (forall x, In x ["no"; "yes"; "no"]%string ->
       (count ["no"; "yes"; "no"]%string x <=
        count ["no"; "yes"; "no"]%string m)%Z) /\
    @set_iter reverse_order ["no"; "yes"; "no"]%string = l1 ++ m :: l2 /\
    (forall x, In x l1 ->
       (count ["no"; "yes"; "no"]%string x <
        count ["no"; "yes"; "no"]%string m)%Z).
Proof.
  split; [exact (proj1 (@X7_majority_is_a_most_frequent_label reverse_order
                          []))|].
  split; [discriminate|].
  apply (proj2 (@X7_majority_is_a_most_frequent_label reverse_order
                  ["no"; "yes"; "no"]%string)).
  discriminate.
Defined.

(** ** How the rows of a call are split over the branches *)

Lemma tables_subset_indices_filter `{PySet} (rows : list (list string))
  (root : option DecisionTreeNode) (idx : list nat) (b : nat)
  (value : string) :
  wf_rows rows = true ->
  Forall (fun i => (i < length rows)%nat) idx ->
  (b < n_attributes rows)%nat ->
  subset_indices (tables rows root) idx b value =
  Ok (filter (fun i =>
                (nth b (nth i (map (@removelast string) rows) []) EmptyString
                 =? value)%string) idx).
Proof.
  intros Hwf Hidx Hb.
  pose proof (tables_attributes_width rows root Hwf) as Hwidth.
  change (attributes (tables rows root))
    with (map (@removelast string) rows) in Hwidth.
  unfold subset_indices.
  change (attributes (tables rows root)) with (map (@removelast string) rows).
  induction Hidx as [|i idx Hi _ IH]; [reflexivity|].
  cbn [rfilter filter]. rewrite IH. clear IH.
  assert (Hrow : index (map (@removelast string) rows) i =
                 Ok (nth i (map (@removelast string) rows) [])).
  { unfold index.
    rewrite (nth_error_nth' _ []) by (now rewrite length_map).
    reflexivity. }
  rewrite Hrow. cbn [rbind].
  assert (Hlen : length (nth i (map (@removelast string) rows) []) =
                 n_attributes rows).
  { rewrite Forall_forall in Hwidth. apply Hwidth. apply nth_In.
    now rewrite length_map. }
  rewrite index_nth by lia. cbn [rbind].
  now destruct (_ =? value)%string.
Qed.

Lemma filter_disjoint_app {A : Type} (p q : A -> bool) (l : list A) :
  (forall x, In x l -> p x = true -> q x = false) ->
  Permutation (filter p l ++ filter q l) (filter (fun x => p x || q x) l).
Proof.
  induction l as [|x l IH]; intros Hdis; [constructor|].
  assert (IH' := IH (fun y Hy => Hdis y (or_intror Hy))).
  cbn [filter]. destruct (p x) eqn:Ep.
  - rewrite (Hdis x (or_introl eq_refl) Ep). cbn [orb app].
    now constructor.
  - cbn [orb]. destruct (q x).
    + etransitivity; [apply Permutation_sym, Permutation_middle|].
      now constructor.
    + exact IH'.
Qed.

Lemma filter_by_value_partition (f : nat -> string) (idx : list nat)
  (values : list string) :
  NoDup values ->
  Permutation
    (flat_map (fun v => filter (fun i => (f i =? v)%string) idx) values)
    (filter (fun i => existsb (String.eqb (f i)) values) idx).
Proof.
  induction 1 as [|v values Hnot _ IH]; cbn [flat_map existsb].
  - induction idx; simpl; auto.
  - etransitivity; [apply Permutation_app_head, IH|].
    apply filter_disjoint_app. intros i _ Hv.
    apply String.eqb_eq in Hv. subst v.
    destruct (existsb (String.eqb (f i)) values) eqn:E; [|reflexivity].
    apply existsb_eqb_In in E. contradiction.
Qed.

Lemma filter_all {A : Type} (p : A -> bool) (l : list A) :
  (forall x, In x l -> p x = true) -> filter p l = l.
Proof.
  induction l as [|x l IH]; intros Hall; [reflexivity|].
  cbn [filter]. rewrite (Hall x (or_introl eq_refl)).
  f_equal. apply IH. intros y Hy. apply Hall. now right.
Qed.

(** X8: on the tables left by [load_data], for rows of the table and an
    attribute of the table, the lists of rows computed for the branch values
    (the keys of [value_occurrences[attr]]) are exactly the rows of the call
    that carry the branch value, in their order, and together they hold every
    row of the call exactly once. *)
Theorem X8_branches_partition_the_rows `{PySet}
  (rows : list (list string)) (s0 : DecisionTree)
  (idx : list nat) (attr : nat) :
  wf_rows rows = true ->
  Forall (fun i => (i < length rows)%nat) idx ->
  (attr < n_attributes rows)%nat ->
  exists s value_counts subsets,
    load_data rows s0 = (Ok tt, s) /\
    dict_get (value_occurrences s) attr = Some value_counts /\
    Forall2
      (fun value subset =>
         subset_indices s idx attr value = Ok subset /\
         subset =
         filter (fun i =>
                   (nth attr (nth i (attributes s) []) EmptyString =? value)
                   %string) idx)
      (dict_keys value_counts) subsets /\
    Permutation (concat subsets) idx.
Proof.
  intros Hwf Hidx Hattr.
  destruct (load_data_Ok rows s0 Hwf) as [root [_ Hload]].
  set (f := fun i =>
              nth attr (nth i (map (@removelast string) rows) []) EmptyString).
  set (values := first_seen (column (map (@removelast string) rows) attr)).
  exists (tables rows (Some root)),
         (tally (column (map (@removelast string) rows) attr)),
         (map (fun v => filter (fun i => (f i =? v)%string) idx) values).
  split; [exact Hload|].
  split; [now apply tables_value_occurrences|].
  rewrite tally_keys. fold values. split.
  - induction values as [|v values IH]; constructor; [|exact IH].
    split; [|reflexivity].
    now apply tables_subset_indices_filter.
  - rewrite <- flat_map_concat_map.
    etransitivity;
      [apply filter_by_value_partition; apply first_seen_NoDup|].
    rewrite filter_all; [reflexivity|].
    intros i Hi. apply existsb_eqb_In. apply first_seen_In.
    rewrite Forall_forall in Hidx. specialize (Hidx i Hi).
    unfold f, column.
    apply (in_map (fun row => nth attr row EmptyString)).
    apply nth_In. now rewrite length_map.
Qed.

Lemma X8_witness :
  wf_rows scenario_rows = true /\
  Forall (fun i => (i < length scenario_rows)%nat) [0; 2; 3]%nat /\
  (1 < n_attributes scenario_rows)%nat /\
  exists s value_counts subsets,
    @load_data insertion_order scenario_rows init = (Ok tt, s) /\
    dict_get (value_occurrences s) 1 = Some value_counts /\
    Forall2
      (fun value subset =>
         subset_indices s [0; 2; 3]%nat 1 value = Ok subset /\
         subset =
         filter (fun i =>
                   (nth 1 (nth i (attributes s) []) EmptyString =? value)
                   %string) [0; 2; 3]%nat)
      (dict_keys value_counts) subsets /\
    Permutation (concat subsets) [0; 2; 3]%nat.
Proof.
  assert (Hidx : Forall (fun i => (i < length scenario_rows)%nat)
                        [0; 2; 3]%nat)
    by (repeat constructor).
  split; [reflexivity|]. split; [exact Hidx|]. split; [vm_compute; lia|].
  apply (@X8_branches_partition_the_rows insertion_order scenario_rows init
           [0; 2; 3]%nat 1); [reflexivity | exact Hidx | vm_compute; lia].
Defined.

(** ** Statistics for an index that is no attribute *)

Lemma dict_get_map_seq_out {V : Type} (f : nat -> V) (len a k : nat) :
  (k < a \/ a + len <= k)%nat ->
  dict_get (map (fun i => (i, f i)) (seq a len)) k = None.
Proof.
  intros Hout. apply dict_get_None_keys. rewrite dict_keys_map_seq.
  intros Hin. apply in_seq in Hin. lia.
Qed.

(** X9: on the tables left by [load_data], conditional entropy, information
    gain, split information and gain ratio return a number for every index
    below the number of attributes, and raise [KeyError] for every other
    index. *)
Theorem X9_statistics_raise_KeyError_out_of_range `{PySet}
  (rows : list (list string)) (s0 : DecisionTree) :
  wf_rows rows = true ->
  exists s,
    load_data rows s0 = (Ok tt, s) /\
    (forall attr, (attr < n_attributes rows)%nat ->
       exists ce ig si g,
         calculate_conditional_entropy s attr = Ok ce /\
         calculate_information_gain s attr = Ok ig /\
         calculate_split_information s attr = Ok si /\
         calculate_gain_ratio s attr = Ok g) /\
    (forall attr, (n_attributes rows <= attr)%nat ->
       calculate_conditional_entropy s attr = Raise KeyError /\
       calculate_information_gain s attr = Raise KeyError /\
       calculate_split_information s attr = Raise KeyError /\
       calculate_gain_ratio s attr = Raise KeyError).
Proof.
  intros Hwf. destruct (wf_rows_inv rows Hwf) as [Hne _].
  destruct (load_data_Ok rows s0 Hwf) as [root [_ Hload]].
  exists (tables rows (Some root)). split; [exact Hload|]. split.
  - intros attr Hattr.
    destruct (tables_gain_ratio_Ok rows (Some root) attr Hne Hattr) as [g Hg].
    unfold calculate_gain_ratio in Hg.
    destruct (calculate_information_gain (tables rows (Some root)) attr)
      as [ig| |] eqn:Hig; cbn [rbind] in Hg; try discriminate.
    destruct (calculate_split_information (tables rows (Some root)) attr)
      as [si| |] eqn:Hsi; cbn [rbind] in Hg; try discriminate.
    unfold calculate_information_gain in Hig.
    destruct (calculate_conditional_entropy (tables rows (Some root)) attr)
      as [ce| |] eqn:Hce; cbn [rbind] in Hig; try discriminate.
    exists ce, ig, si, g. repeat split; try reflexivity.
    unfold calculate_gain_ratio, calculate_information_gain.
    rewrite Hce. cbn [rbind]. injection Hig as <-. rewrite Hsi. exact Hg.
  - intros attr Hattr.
    assert (Hce : calculate_conditional_entropy (tables rows (Some root)) attr
                  = Raise KeyError).
    { unfold calculate_conditional_entropy, dict_lookup, tables.
      cbn [attribute_decision_counts].
      rewrite dict_get_map_seq_out by lia. reflexivity. }
    assert (Hsi : calculate_split_information (tables rows (Some root)) attr
                  = Raise KeyError).
    { unfold calculate_split_information, dict_lookup, tables.
      cbn [value_occurrences].
      rewrite dict_get_map_seq_out by lia. reflexivity. }
    unfold calculate_gain_ratio, calculate_information_gain.
    rewrite Hce, Hsi. repeat split; reflexivity.
Qed.

Lemma X9_witness :
  wf_rows scenario_rows = true /\
  exists s,
    @load_data insertion_order scenario_rows init = (Ok tt, s) /\
    (forall attr, (attr < n_attributes scenario_rows)%nat ->
       exists ce ig si g,
         calculate_conditional_entropy s attr = Ok ce /\
         calculate_information_gain s attr = Ok ig /\
         calculate_split_information s attr = Ok si /\
         calculate_gain_ratio s attr = Ok g) /\
    (forall attr, (n_attributes scenario_rows <= attr)%nat ->
       calculate_conditional_entropy s attr = Raise KeyError /\
       calculate_information_gain s attr = Raise KeyError /\
       calculate_split_information s attr = Raise KeyError /\
       calculate_gain_ratio s attr = Raise KeyError).
Proof.
  split; [reflexivity|].
  apply (@X9_statistics_raise_KeyError_out_of_range insertion_order
           scenario_rows init).
  reflexivity.
Defined.

(** ** Loading again *)

(** X10: a load of a well-formed table overwrites every field: the object
    it leaves does not depend on the object it started from, and loading the
    same rows into the object just loaded leaves it as it is. *)
Theorem X10_load_data_forgets_the_previous_state `{PySet}
  (rows : list (list string)) (s0 s0' : DecisionTree) :
  wf_rows rows = true ->
  exists s,
    load_data rows s0 = (Ok tt, s) /\
    load_data rows s0' = (Ok tt, s) /\
    load_data rows s = (Ok tt, s).
Proof.
  intros Hwf.
  destruct (load_data_Ok rows s0 Hwf) as [root [Hroot Hload]].
  exists (tables rows (Some root)). split; [exact Hload|].
  assert (Hany : forall s1, load_data rows s1 =
                            (Ok tt, tables rows (Some root))).
  { intros s1. destruct (load_data_Ok rows s1 Hwf) as [root1 [Hroot1 Hload1]].
    rewrite (tables_build_tree_root rows _ (tree_root s0)) in Hroot1.
    rewrite Hroot in Hroot1. injection Hroot1 as <-. exact Hload1. }
  split; apply Hany.
Qed.

Lemma X10_witness :
  wf_rows scenario_rows = true /\
  exists s,
    @load_data insertion_order scenario_rows init = (Ok tt, s) /\
    @load_data insertion_order scenario_rows
      (@tables insertion_order xor_rows None) = (Ok tt, s) /\
    @load_data insertion_order scenario_rows s = (Ok tt, s).
Proof.
  split; [reflexivity|].
  apply (@X10_load_data_forgets_the_previous_state insertion_order
           scenario_rows init (@tables insertion_order xor_rows None)).
  reflexivity.
Defined.

(** ** Children and unique values *)

(** X11: in the tree that [load_data] builds, an attribute node has at
    least one child, and as many children as [unique_attributes_values]
    counts unique values for the attribute it tests. *)
Theorem X11_children_match_unique_values `{PySet}
  (rows : list (list string)) (s0 : DecisionTree) :
  wf_rows rows = true ->
  exists s root,
    load_data rows s0 = (Ok tt, s) /\ tree_root s = Some root /\
    forall n a,
      In n (nodes root) -> attribute_index n = Some a ->
      children n <> [] /\
      dict_get (unique_attributes_values s) a =
      Some (Z.of_nat (length (children n))).
Proof.
  intros Hwf. destruct (wf_rows_inv rows Hwf) as [Hne _].
  destruct (load_data_Ok rows s0 Hwf) as [root [Hroot Hload]].
  exists (tables rows (Some root)), root.
  split; [exact Hload|]. split; [reflexivity|].
  pose proof (build_tree_nodes_ok rows _ _ _ _ Hroot) as Hok.
  rewrite Forall_forall in Hok.
  intros n a Hn Ha. specialize (Hok n Hn). unfold node_ok in Hok.
  rewrite Ha in Hok. destruct Hok as [_ [Hlt Hkids]].
  pose proof (Forall2_length Hkids) as Hlen. split.
  - intros Hnil. rewrite Hnil in Hlen. cbn [length] in Hlen.
    apply (column_nonempty rows a Hne).
    now apply length_zero_iff_nil.
  - unfold tables. cbn [unique_attributes_values].
    rewrite (dict_get_map_seq
               (fun i => Z.of_nat (length (set_iter
                          (column (map (@removelast string) rows) i)))))
      by lia.
    rewrite <- Hlen. do 2 f_equal.
    exact (set_iter_length _ insertion_order _).
Qed.

Lemma X11_witness :
  wf_rows scenario_rows = true /\
  exists s root,
    @load_data insertion_order scenario_rows init = (Ok tt, s) /\
    tree_root s = Some root /\
    forall n a,
      In n (nodes root) -> attribute_index n = Some a ->
      children n <> [] /\
      dict_get (unique_attributes_values s) a =
      Some (Z.of_nat (length (children n))).
Proof.
  split; [reflexivity|].
  apply (@X11_children_match_unique_values insertion_order scenario_rows init).
  reflexivity.
Defined.

(** ** The attribute that [main] reports *)

Lemma max_gain_follows_select (self : DecisionTree) (l : list nat) :
  forall (sel : option nat * R) (best : nat * R),
    sel = (Some (fst best), snd best) \/
    (sel = (None, (-1)%R) /\ (snd best <= -1)%R) ->
    forall b g,
      rfold (select_step self []) l sel = Ok (Some b, g) ->
      rfold (max_gain_step self) l best = Ok (b, g).
Proof.
  induction l as [|a l IH]; intros sel [a0 g0] Hsync b g; cbn [rfold fst snd]
    in *.
  - intros [= ->]. destruct Hsync as [[= -> ->]|[[=] _]]. reflexivity.
  - unfold select_step at 1. unfold max_gain_step at 1.
    cbn [in_used existsb snd].
    destruct (calculate_gain_ratio self a) as [ga| |]; cbn [rbind];
      try discriminate.
    destruct Hsync as [->|[-> Hle]]; cbn [snd].
    + destruct (Rgtb ga g0); apply IH; now left.
    + destruct (Rgtb ga (-1)) eqn:E1.
      * apply Rgtb_true in E1.
        replace (Rgtb ga g0) with true by (symmetry; apply Rgtb_true; lra).
        apply IH. now left.
      * apply Rgtb_false in E1.
        destruct (Rgtb ga g0); apply IH; right; split; auto.
Qed.

Lemma main_best_attr_is_selected (self : DecisionTree) (b : nat) (g : R) :
  select_best self [] = Ok (Some b, g) -> main_best_attr self = Ok b.
Proof.
  unfold select_best, main_best_attr.
  destruct (dict_keys (unique_attributes_values self)) as [|a rest];
    [discriminate|].
  cbn [rfold]. unfold select_step at 1. cbn [in_used existsb snd].
  destruct (calculate_gain_ratio self a) as [ga| |]; cbn [rbind];
    try discriminate.
  intros Hsel.
  destruct (Rgtb ga (-1)) eqn:E; cbn [rbind] in Hsel.
  - rewrite (max_gain_follows_select self rest (Some a, ga) (a, ga)
               (or_introl eq_refl) b g Hsel).
    reflexivity.
  - apply Rgtb_false in E.
    rewrite (max_gain_follows_select self rest (None, (-1)%R) (a, ga)
               (or_intror (conj eq_refl E)) b g Hsel).
    reflexivity.
Qed.

(** X12: after [load_data], when the root of the tree is an attribute node,
    the attribute that [main] reports as the one of highest gain ratio is the
    attribute that the root tests; and for a table whose rows hold a label
    only, [max] is called on no key and raises [ValueError]. *)
Theorem X12_main_reports_the_root_attribute `{PySet}
  (rows : list (list string)) (s0 : DecisionTree) :
  wf_rows rows = true ->
  exists s root,
    load_data rows s0 = (Ok tt, s) /\ tree_root s = Some root /\
    (forall b, attribute_index root = Some b -> main_best_attr s = Ok b) /\
    (n_attributes rows = 0%nat -> main_best_attr s = Raise ValueError).
Proof.
  intros Hwf.
  destruct (load_data_Ok rows s0 Hwf) as [root [Hroot Hload]].
  exists (tables rows (Some root)), root.
  split; [exact Hload|]. split; [reflexivity|]. split.
  - intros b Hb.
    rewrite (tables_build_tree_root rows _ (Some root)) in Hroot.
    rewrite build_tree_unfold in Hroot.
    destruct (build_body_inv _ _ _ _ _ Hroot) as [decs [_ Hcases]].
    destruct Hcases as [[_ [d0 [_ ->]]] | [[_ [g [m [_ [_ ->]]]]] | Hsplit]];
      try discriminate.
    destruct Hsplit as [_ [b' [g [values [kids [Hsel [_ [_ ->]]]]]]]].
    cbn [attribute_index] in Hb. injection Hb as ->.
    exact (main_best_attr_is_selected _ _ _ Hsel).
  - intros Hzero. unfold main_best_attr.
    rewrite tables_keys, Hzero. reflexivity.
Qed.

Lemma X12_witness :
  wf_rows xor_rows = true /\
  exists s root,
    @load_data insertion_order xor_rows init = (Ok tt, s) /\
    tree_root s = Some root /\
    (forall b, attribute_index root = Some b -> main_best_attr s = Ok b) /\
    (n_attributes xor_rows = 0%nat -> main_best_attr s = Raise ValueError).
Proof.
  split; [reflexivity|].
  apply (@X12_main_reports_the_root_attribute insertion_order xor_rows init).
  reflexivity.
Defined.

(** ** The sign of the entropy *)

Lemma Zsum_bounds (cs : list Z) :
  Forall (fun c => (0 <= c)%Z) cs ->
  (0 <= fold_left Z.add cs 0)%Z /\
  forall c, In c cs -> (c <= fold_left Z.add cs 0)%Z.
Proof.
  induction 1 as [|x cs Hx _ [IH0 IH]]; cbn [fold_left].
  - split; [lia | intros c []].
  - rewrite fold_left_Zadd. split; [lia|].
    intros c [<-|Hc]; [lia|]. specialize (IH c Hc). lia.
Qed.

Lemma log2_nonpos (p : R) : (0 < p <= 1)%R -> (log2 p <= 0)%R.
Proof.
  intros [Hpos Hle]. unfold log2.
  assert (Hln : (ln p <= 0)%R).
  { destruct (Rle_lt_or_eq_dec _ _ Hle) as [Hlt| ->].
    - rewrite <- ln_1. left. now apply ln_increasing.
    - rewrite ln_1. lra. }
  pose proof ln_2_pos as H2.
  unfold Rdiv. apply Rinv_0_lt_compat in H2.
  replace 0%R with (0 * / ln 2)%R by ring.
  apply Rmult_le_compat_r; lra.
Qed.

Lemma log2_zero_one (p : R) : (0 < p)%R -> log2 p = 0%R -> p = 1%R.
Proof.
  intros Hpos Hlog. unfold log2 in Hlog.
  pose proof ln_2_pos as H2.
  assert (Hln : ln p = 0%R).
  { apply (Rmult_eq_reg_r (/ ln 2)); [|apply Rinv_neq_0_compat; lra].
    unfold Rdiv in Hlog. rewrite Hlog. ring. }
  apply ln_inv; [exact Hpos | lra | now rewrite ln_1].
Qed.

Lemma probability_bounds (c total : Z) :
  (0 < c)%Z -> (c <= total)%Z -> (0 < IZR c / IZR total <= 1)%R.
Proof.
  intros Hc Hle.
  assert (Hc' : (0 < IZR c)%R) by now apply IZR_lt.
  assert (Ht : (0 < IZR total)%R) by (apply IZR_lt; lia).
  assert (Hle' : (IZR c <= IZR total)%R) by now apply IZR_le.
  split; [now apply Rdiv_lt_0_compat|].
  unfold Rdiv. apply Rinv_0_lt_compat in Ht as Hinv.
  replace 1%R with (IZR total * / IZR total)%R by (field; lra).
  apply Rmult_le_compat_r; lra.
Qed.

Lemma shannon_terms_nonpos (total : Z) (cs : list Z) :
  Forall (fun c => (c <= total)%Z) cs ->
  (fold_right
     (fun c a => (IZR c / IZR total * log2 (IZR c / IZR total) + a)%R)
     0%R (filter (fun c => (0 <? c)%Z) cs) <= 0)%R.
Proof.
  induction 1 as [|c cs Hc _ IH]; cbn [filter fold_right]; [lra|].
  destruct (0 <? c)%Z eqn:E; [|exact IH].
  apply Z.ltb_lt in E. cbn [fold_right].
  destruct (probability_bounds c total E Hc) as [Hp Hp1].
  pose proof (log2_nonpos _ (conj Hp Hp1)) as Hl.
  assert ((IZR c / IZR total * log2 (IZR c / IZR total) <= 0)%R) by nra.
  lra.
Qed.

Lemma entropy_from_counts_nonneg (counts : dict string Z) :
  Forall (fun c => (0 <= c)%Z) (dict_values counts) ->
  (0 <= _calculate_entropy_from_counts counts)%R.
Proof.
  intros Hnn. destruct (Zsum_bounds _ Hnn) as [Hsum Hle].
  fold (sum_values counts) in Hsum, Hle.
  destruct (Z.eq_dec (sum_values counts) 0) as [Hz|Hz].
  - rewrite (entropy_total_zero _ Hz). lra.
  - rewrite entropy_total_positive by lia. unfold shannon_entropy.
    assert (Hall : Forall (fun c => (c <= sum_values counts)%Z)
                          (dict_values counts))
      by (rewrite Forall_forall; exact Hle).
    pose proof (shannon_terms_nonpos _ _ Hall). lra.
Qed.

(** X13: for every table of counts none of which is negative, the entropy
    function returns a number that is not negative. *)
Theorem X13_entropy_is_not_negative (counts : dict string Z) :
  Forall (fun c => (0 <= c)%Z) (dict_values counts) ->
  (0 <= _calculate_entropy_from_counts counts)%R.
Proof. exact (entropy_from_counts_nonneg counts). Qed.

Lemma X13_witness :
  Forall (fun c => (0 <= c)%Z)
         (dict_values [("yes"%string, 1%Z); ("no"%string, 3%Z)]) /\
  (0 <= _calculate_entropy_from_counts
          [("yes"%string, 1%Z); ("no"%string, 3%Z)])%R.
Proof.
  assert (Hnn : Forall (fun c => (0 <= c)%Z)
                  (dict_values [("yes"%string, 1%Z); ("no"%string, 3%Z)]))
    by (unfold dict_values; cbn [map snd];
        repeat (constructor; [lia|]); constructor).
  split; [exact Hnn|].
  exact (X13_entropy_is_not_negative _ Hnn).
Defined.

Lemma shannon_terms_zero (total : Z) (cs : list Z) :
  Forall (fun c => (c <= total)%Z) cs ->
  fold_right
    (fun c a => (IZR c / IZR total * log2 (IZR c / IZR total) + a)%R)
    0%R (filter (fun c => (0 <? c)%Z) cs) = 0%R ->
  Forall (fun c => (c <= 0)%Z \/ c = total) cs.
Proof.
  induction 1 as [|c cs Hc Hcs IH]; cbn [filter fold_right]; [constructor|].
  destruct (0 <? c)%Z eqn:E.
  - apply Z.ltb_lt in E. cbn [fold_right]. intros Hsum.
    destruct (probability_bounds c total E Hc) as [Hp Hp1].
    pose proof (log2_nonpos _ (conj Hp Hp1)) as Hl.
    pose proof (shannon_terms_nonpos total cs Hcs) as Hrest.
    assert (Hterm : (IZR c / IZR total * log2 (IZR c / IZR total) <= 0)%R)
      by nra.
    assert (Hterm0 : (IZR c / IZR total * log2 (IZR c / IZR total))%R = 0%R)
      by lra.
    assert (Hrest0 : fold_right
              (fun c a => (IZR c / IZR total * log2 (IZR c / IZR total) + a)%R)
              0%R (filter (fun c => (0 <? c)%Z) cs) = 0%R) by lra.
    constructor; [|now apply IH].
    right. apply Rmult_integral in Hterm0.
    destruct Hterm0 as [Hp0|Hlog]; [lra|].
    apply (log2_zero_one _ Hp) in Hlog.
    assert (Ht : (0 < IZR total)%R) by (apply IZR_lt; lia).
    apply eq_IZR. apply (Rmult_eq_reg_r (/ IZR total)).
    + unfold Rdiv in Hlog. rewrite Hlog. field. lra.
    + apply Rinv_neq_0_compat. lra.
  - apply Z.ltb_ge in E. intros Hsum. constructor; [now left | now apply IH].
Qed.

Lemma shannon_terms_single (total : Z) (cs : list Z) :
  (0 < total)%Z ->
  Forall (fun c => (c <= 0)%Z \/ c = total) cs ->
  fold_right
    (fun c a => (IZR c / IZR total * log2 (IZR c / IZR total) + a)%R)
    0%R (filter (fun c => (0 <? c)%Z) cs) = 0%R.
Proof.
  intros Ht. induction 1 as [|c cs Hc _ IH]; cbn [filter fold_right];
    [reflexivity|].
  destruct (0 <? c)%Z eqn:E; [|exact IH].
  apply Z.ltb_lt in E. cbn [fold_right]. rewrite IH.
  destruct Hc as [Hc | ->]; [lia|].
  apply IZR_lt in Ht.
  replace (IZR total / IZR total)%R with 1%R by (field; lra).
  rewrite ln_1_over_ln_2. ring.
Qed.

(** X14: for a table of counts none of which is negative, the entropy is 0
    exactly when every count is 0 or is the total of the counts: all the
    weight is on one label, or the table has no weight at all. *)
Theorem X14_entropy_zero_iff_one_label (counts : dict string Z) :
  Forall (fun c => (0 <= c)%Z) (dict_values counts) ->
  (_calculate_entropy_from_counts counts = 0%R <->
   Forall (fun c => c = 0%Z \/ c = sum_values counts) (dict_values counts)).
Proof.
  intros Hnn. destruct (Zsum_bounds _ Hnn) as [Hsum Hle].
  fold (sum_values counts) in Hsum, Hle.
  assert (Hall : Forall (fun c => (c <= sum_values counts)%Z)
                        (dict_values counts))
    by (rewrite Forall_forall; exact Hle).
  destruct (Z.eq_dec (sum_values counts) 0) as [Hz|Hz].
  - rewrite (entropy_total_zero _ Hz). split; [|reflexivity]. intros _.
    rewrite Forall_forall in *. intros c Hc.
    specialize (Hnn c Hc). specialize (Hall c Hc). left. lia.
  - rewrite entropy_total_positive by lia. unfold shannon_entropy. split.
    + intros Hzero.
      assert (Hterms : fold_right
                (fun c a =>
                   (IZR c / IZR (sum_values counts) *
                    log2 (IZR c / IZR (sum_values counts)) + a)%R)
                0%R (filter (fun c => (0 <? c)%Z) (dict_values counts)) = 0%R)
        by lra.
      pose proof (shannon_terms_zero _ _ Hall Hterms) as Hres.
      rewrite Forall_forall in *. intros c Hc.
      specialize (Hnn c Hc). destruct (Hres c Hc) as [Hneg|Heq];
        [left; lia | now right].
    + intros Hone. rewrite shannon_terms_single; [ring | lia |].
      eapply Forall_impl; [|exact Hone]. cbv beta.
      intros c [-> | ->]; [left; lia | now right].
Qed.

Lemma X14_witness :
  Forall (fun c => (0 <= c)%Z)
         (dict_values [("yes"%string, 0%Z); ("no"%string, 3%Z)]) /\
  (_calculate_entropy_from_counts [("yes"%string, 0%Z); ("no"%string, 3%Z)] =
   0%R <->
   Forall (fun c => c = 0%Z \/
                    c = sum_values [("yes"%string, 0%Z); ("no"%string, 3%Z)])
          (dict_values [("yes"%string, 0%Z); ("no"%string, 3%Z)])).
Proof.
  assert (Hnn : Forall (fun c => (0 <= c)%Z)
                  (dict_values [("yes"%string, 0%Z); ("no"%string, 3%Z)]))
    by (unfold dict_values; cbn [map snd];
        repeat (constructor; [lia|]); constructor).
  split; [exact Hnn|].
  exact (X14_entropy_zero_iff_one_label _ Hnn).
Defined.

(** ** Information gain is not negative *)

(** *** Sums over lists *)

Lemma Rsum_cons {A : Type} (f : A -> R) (x : A) (l : list A) :
  Rsum f (x :: l) = (f x + Rsum f l)%R.
Proof. reflexivity. Qed.

Lemma Rsum_app {A : Type} (f : A -> R) (l1 l2 : list A) :
  Rsum f (l1 ++ l2) = (Rsum f l1 + Rsum f l2)%R.
Proof.
  induction l1 as [|x l1 IH]; cbn [app]; rewrite ?Rsum_cons.
  - unfold Rsum at 2. cbn. ring.
  - rewrite IH. ring.
Qed.

Lemma Rsum_ext_in {A : Type} (f g : A -> R) (l : list A) :
  (forall x, In x l -> f x = g x) -> Rsum f l = Rsum g l.
Proof.
  induction l as [|x l IH]; intros Hfg; [reflexivity|].
  rewrite !Rsum_cons, (Hfg x (or_introl eq_refl)).
  rewrite IH; [reflexivity|]. intros y Hy. apply Hfg. now right.
Qed.

Lemma Rsum_le_in {A : Type} (f g : A -> R) (l : list A) :
  (forall x, In x l -> (f x <= g x)%R) -> (Rsum f l <= Rsum g l)%R.
Proof.
  induction l as [|x l IH]; intros Hfg; [unfold Rsum; cbn; lra|].
  rewrite !Rsum_cons.
  pose proof (Hfg x (or_introl eq_refl)).
  assert ((Rsum f l <= Rsum g l)%R)
    by (apply IH; intros y Hy; apply Hfg; now right).
  lra.
Qed.

Lemma Rsum_scale {A : Type} (c : R) (f : A -> R) (l : list A) :
  Rsum (fun x => (c * f x)%R) l = (c * Rsum f l)%R.
Proof.
  induction l as [|x l IH]; [unfold Rsum; cbn; ring|].
  rewrite !Rsum_cons, IH. ring.
Qed.

Lemma Rsum_plus {A : Type} (f g : A -> R) (l : list A) :
  Rsum (fun x => (f x + g x)%R) l = (Rsum f l + Rsum g l)%R.
Proof.
  induction l as [|x l IH]; [unfold Rsum; cbn; ring|].
  rewrite !Rsum_cons, IH. ring.
Qed.

Lemma Rsum_const {A : Type} (c : R) (l : list A) :
  Rsum (fun _ => c) l = (INR (length l) * c)%R.
Proof.
  induction l as [|x l IH]; [unfold Rsum; cbn; ring|].
  rewrite Rsum_cons, IH. cbn [length]. rewrite S_INR. ring.
Qed.

Lemma Rsum_map {A B : Type} (g : A -> B) (f : B -> R) (l : list A) :
  Rsum f (map g l) = Rsum (fun x => f (g x)) l.
Proof.
  induction l as [|x l IH]; [reflexivity|].
  cbn [map]. now rewrite !Rsum_cons, IH.
Qed.

Lemma Rsum_nonneg {A : Type} (f : A -> R) (l : list A) :
  (forall x, In x l -> (0 <= f x)%R) -> (0 <= Rsum f l)%R.
Proof.
  induction l as [|x l IH]; intros Hf; [unfold Rsum; cbn; lra|].
  rewrite Rsum_cons. pose proof (Hf x (or_introl eq_refl)).
  assert ((0 <= Rsum f l)%R) by (apply IH; intros y Hy; apply Hf; now right).
  lra.
Qed.

Lemma fold_left_Rsum {A : Type} (f : A -> R) (l : list A) (acc : R) :
  fold_left (fun a x => (a + f x)%R) l acc = (acc + Rsum f l)%R.
Proof.
  revert acc. induction l as [|x l IH]; intros acc; cbn [fold_left].
  - unfold Rsum. cbn. ring.
  - rewrite IH, Rsum_cons. ring.
Qed.

(** A sum over a list without repetition is at most the sum over a list
    that holds all its members, when no term is negative. *)
Lemma Rsum_incl (f : string -> R) (l1 l2 : list string) :
  NoDup l1 -> incl l1 l2 -> (forall x, (0 <= f x)%R) ->
  (Rsum f l1 <= Rsum f l2)%R.
Proof.
  intros Hnd. revert l2. induction Hnd as [|x l1 Hx Hnd IH];
    intros l2 Hincl Hf.
  - apply Rsum_nonneg. auto.
  - assert (Hin : In x l2) by (apply Hincl; now left).
    apply in_split in Hin. destruct Hin as [la [lb ->]].
    rewrite Rsum_cons, Rsum_app, Rsum_cons.
    assert (Hrest : (Rsum f l1 <= Rsum f (la ++ lb))%R).
    { apply IH; [|exact Hf]. intros y Hy.
      assert (Hy2 : In y (la ++ x :: lb)) by (apply Hincl; now right).
      apply in_app_or in Hy2. apply in_or_app.
      destruct Hy2 as [Hy2|[Heq|Hy2]]; auto. subst. contradiction. }
    rewrite Rsum_app in Hrest. lra.
Qed.

(** A sum over the distinct members, each weighted by the number of times it
    occurs, is the sum over the list. *)
Lemma Rsum_indicator (f : string -> R) (a : string) (ks : list string) :
  NoDup ks -> In a ks ->
  Rsum (fun k => ((if (a =? k)%string then 1 else 0) * f k)%R) ks = f a.
Proof.
  induction 1 as [|k ks Hk Hnd IH]; intros Hin; [contradiction|].
  rewrite Rsum_cons. destruct (a =? k)%string eqn:E.
  - apply String.eqb_eq in E. subst k.
    rewrite (Rsum_ext_in _ (fun _ => 0%R)).
    + rewrite Rsum_const. ring.
    + intros x Hx. destruct (a =? x)%string eqn:E; [|ring].
      apply String.eqb_eq in E. subst. contradiction.
  - apply String.eqb_neq in E. destruct Hin as [->|Hin]; [contradiction|].
    rewrite (IH Hin). ring.
Qed.

Lemma Rsum_by_count (f : string -> R) (l ks : list string) :
  NoDup ks -> incl l ks ->
  Rsum (fun k => (IZR (count l k) * f k)%R) ks = Rsum f l.
Proof.
  intros Hnd. induction l as [|a l IH]; intros Hincl.
  - rewrite (Rsum_ext_in _ (fun _ => 0%R)).
    + rewrite Rsum_const. unfold Rsum. cbn. ring.
    + intros k _. unfold count. cbn. ring.
  - rewrite Rsum_cons, <- IH by (intros y Hy; apply Hincl; now right).
    rewrite <- (Rsum_indicator f a ks Hnd) by (apply Hincl; now left).
    rewrite <- Rsum_plus. apply Rsum_ext_in. intros k _.
    rewrite count_cons, plus_IZR.
    destruct (a =? k)%string; ring.
Qed.

(** Grouping the pairs by their first component. *)
Lemma Rsum_by_group (g : string * string -> R) (ps : list (string * string))
  (ks : list string) :
  NoDup ks -> incl (map fst ps) ks ->
  Rsum (fun v => Rsum g (filter (fun p => (fst p =? v)%string) ps)) ks =
  Rsum g ps.
Proof.
  intros Hnd. induction ps as [|p ps IH]; intros Hincl.
  - cbn [filter]. rewrite Rsum_const. unfold Rsum. cbn. ring.
  - cbn [map] in Hincl.
    rewrite Rsum_cons, <- IH by (intros y Hy; apply Hincl; now right).
    rewrite <- (Rsum_indicator (fun _ => g p) (fst p) ks Hnd)
      by (apply Hincl; now left).
    rewrite <- Rsum_plus. apply Rsum_ext_in. intros k _.
    cbn [filter]. destruct (fst p =? k)%string; [rewrite Rsum_cons|]; ring.
Qed.

(** *** The tables as lists of counts *)

Lemma dict_as_map {V : Type} (g : string -> V) (d : dict string V) :
  NoDup (dict_keys d) ->
  (forall k, In k (dict_keys d) -> dict_get d k = Some (g k)) ->
  d = map (fun k => (k, g k)) (dict_keys d).
Proof.
  induction d as [|[k0 v0] d IH]; intros Hnd Hget; [reflexivity|].
  cbn [dict_keys map fst] in *. inversion Hnd as [|? ? Hnot Hnd']; subst.
  pose proof (Hget k0 (or_introl eq_refl)) as H0.
  cbn [dict_get key_eqb string_Key] in H0. rewrite String.eqb_refl in H0.
  injection H0 as ->. f_equal.
  apply IH; [exact Hnd'|]. intros k Hk.
  specialize (Hget k (or_intror Hk)).
  cbn [dict_get key_eqb string_Key] in Hget.
  destruct (k =? k0)%string eqn:E; [|exact Hget].
  apply String.eqb_eq in E. subst. contradiction.
Qed.

Lemma tally_as_map (l : list string) :
  tally l = map (fun x => (x, count l x)) (first_seen l).
Proof.
  rewrite <- (tally_keys l). apply dict_as_map.
  - rewrite tally_keys. apply first_seen_NoDup.
  - intros k Hk. rewrite tally_keys in Hk.
    apply (proj1 (first_seen_In _ _)) in Hk. now apply tally_get_In.
Qed.

Lemma tally2_as_map (ps : list (string * string)) :
  tally2 ps =
  map (fun v => (v, tally (labels_of v ps))) (first_seen (map fst ps)).
Proof.
  rewrite <- (tally2_keys ps). apply dict_as_map.
  - rewrite tally2_keys. apply first_seen_NoDup.
  - intros k Hk. rewrite tally2_keys in Hk.
    apply (proj1 (first_seen_In _ _)) in Hk. now apply tally2_get_In.
Qed.

Lemma filter_positive_counts (l : list string) (ks : list string) :
  incl ks l ->
  filter (fun c => (0 <? c)%Z) (map (count l) ks) = map (count l) ks.
Proof.
  intros Hincl. apply filter_all. intros c Hc.
  apply in_map_iff in Hc. destruct Hc as [k [<- Hk]].
  apply Z.ltb_lt. apply count_pos_In. now apply Hincl.
Qed.

(** The entropy of the counts of a list, row by row: each member
    contributes the logarithm of the share of the list that equals it. *)
Lemma entropy_tally_rows (l : list string) :
  l <> [] ->
  _calculate_entropy_from_counts (tally l) =
  (- / IZR (Z.of_nat (length l)) *
   Rsum (fun x => log2 (IZR (count l x) / IZR (Z.of_nat (length l)))) l)%R.
Proof.
  intros Hne.
  assert (Hlen : (0 < Z.of_nat (length l))%Z)
    by (destruct l; [contradiction | simpl; lia]).
  rewrite entropy_total_positive by (now rewrite sum_values_tally).
  unfold shannon_entropy. rewrite sum_values_tally.
  rewrite tally_as_map at 1. unfold dict_values.
  rewrite map_map. cbn [snd].
  rewrite filter_positive_counts
    by (intros k Hk; exact (proj1 (first_seen_In _ _) Hk)).
  change (fold_right
            (fun c acc =>
               (IZR c / IZR (Z.of_nat (length l)) *
                log2 (IZR c / IZR (Z.of_nat (length l))) + acc)%R) 0%R
            (map (count l) (first_seen l)))
    with (Rsum (fun c => (IZR c / IZR (Z.of_nat (length l)) *
                          log2 (IZR c / IZR (Z.of_nat (length l))))%R)
               (map (count l) (first_seen l))).
  rewrite Rsum_map.
  rewrite <- (Rsum_by_count
                (fun x => log2 (IZR (count l x) / IZR (Z.of_nat (length l))))
                l (first_seen l))
    by (apply first_seen_NoDup ||
        (intros k Hk; exact (proj2 (first_seen_In _ _) Hk))).
  rewrite <- Rsum_scale.
  rewrite <- (Rmult_1_l (Rsum _ (first_seen l))), Ropp_mult_distr_l,
    <- Rsum_scale.
  apply Rsum_ext_in.
  intros x _. apply IZR_lt in Hlen. field. lra.
Qed.

(** *** Logarithms *)

Lemma ln_le_minus_1 (t : R) : (0 < t)%R -> (ln t <= t - 1)%R.
Proof.
  intros Ht. destruct (Rle_or_lt (ln t) (t - 1)) as [Hle|Hlt]; [exact Hle|].
  exfalso. apply exp_increasing in Hlt. rewrite exp_ln in Hlt by exact Ht.
  pose proof (exp_ineq1_le (t - 1)). lra.
Qed.

Lemma log2_difference (a b : R) :
  (0 < a)%R -> (0 < b)%R ->
  (log2 a - log2 b <= (a / b - 1) / ln 2)%R.
Proof.
  intros Ha Hb. unfold log2. pose proof ln_2_pos as H2.
  assert (Hab : (0 < a / b)%R) by now apply Rdiv_lt_0_compat.
  pose proof (ln_le_minus_1 _ Hab) as Hln.
  unfold Rdiv in Hln at 1. rewrite ln_mult in Hln
    by (auto using Rinv_0_lt_compat).
  rewrite ln_Rinv in Hln by exact Hb.
  apply Rinv_0_lt_compat in H2 as Hinv.
  replace (ln a / ln 2 - ln b / ln 2)%R with ((ln a + - ln b) * / ln 2)%R
    by (unfold Rdiv; ring).
  unfold Rdiv at 1. apply Rmult_le_compat_r; lra.
Qed.

(** *** One attribute against the labels *)

Section InformationGain.
Variables col decs : list string.
Hypothesis same_length : length col = length decs.
Hypothesis not_empty : decs <> [].

Let ps : list (string * string) := combine col decs.
Let N : R := IZR (Z.of_nat (length decs)).
Let D (d : string) : R := IZR (count decs d).
Let L (v : string) : list string := labels_of v ps.
Let J (p : string * string) : R := IZR (count (L (fst p)) (snd p)).
Let M (v : string) : R := IZR (Z.of_nat (length (L v))).

Lemma ig_N_pos : (0 < N)%R.
Proof.
  unfold N. apply IZR_lt. destruct decs; [contradiction | simpl; lia].
Qed.

Lemma ig_map_fst : map fst ps = col.
Proof. apply map_fst_combine_same. exact same_length. Qed.

Lemma ig_map_snd : map snd ps = decs.
Proof.
  unfold ps. clear not_empty ps N D L J M. revert decs same_length.
  induction col as [|x xs IH]; intros [|d ds] Hlen; try discriminate;
    [reflexivity|].
  cbn [combine map snd]. f_equal. apply IH. simpl in Hlen. lia.
Qed.

Lemma ig_row_in_group (p : string * string) :
  In p ps -> In (snd p) (L (fst p)).
Proof.
  intros Hp. unfold L, labels_of. apply in_map. apply filter_In.
  split; [exact Hp | apply String.eqb_refl].
Qed.

Lemma ig_J_pos (p : string * string) : In p ps -> (0 < J p)%R.
Proof.
  intros Hp. unfold J. apply IZR_lt. apply count_pos_In.
  now apply ig_row_in_group.
Qed.

Lemma ig_M_count (v : string) : M v = IZR (count col v).
Proof. unfold M, L, ps. now rewrite (labels_of_length v _ _ same_length). Qed.

Lemma ig_M_pos (p : string * string) : In p ps -> (0 < M (fst p))%R.
Proof.
  intros Hp. rewrite ig_M_count. apply IZR_lt. apply count_pos_In.
  rewrite <- ig_map_fst. now apply in_map.
Qed.

Lemma ig_D_pos (p : string * string) : In p ps -> (0 < D (snd p))%R.
Proof.
  intros Hp. unfold D. apply IZR_lt. apply count_pos_In.
  rewrite <- ig_map_snd. now apply in_map.
Qed.

Lemma ig_group_in_decs (v : string) : incl (L v) decs.
Proof.
  intros d Hd. unfold L, labels_of in Hd. apply in_map_iff in Hd.
  destruct Hd as [p [<- Hp]]. apply filter_In in Hp. destruct Hp as [Hp _].
  rewrite <- ig_map_snd. now apply in_map.
Qed.

Lemma ig_sum_ones (l : list string) :
  Rsum (fun _ => 1%R) l = IZR (Z.of_nat (length l)).
Proof. rewrite Rsum_const, INR_IZR_INZ. ring. Qed.

(** The entropy of the labels, row by row. *)
Lemma ig_entropy_rows :
  _calculate_entropy_from_counts (tally decs) =
  (- / N * Rsum (fun p => log2 (D (snd p) / N)) ps)%R.
Proof.
  rewrite (entropy_tally_rows decs not_empty). fold N. f_equal.
  rewrite <- (Rsum_map snd (fun d => log2 (D d / N)) ps), ig_map_snd.
  reflexivity.
Qed.

(** The conditional entropy, row by row. *)
Lemma ig_conditional_rows :
  fold_left
    (fun ce (item : string * dict string Z) =>
       (ce + IZR (sum_values (snd item)) / N *
             _calculate_entropy_from_counts (snd item))%R)
    (tally2 ps) 0%R =
  (- / N * Rsum (fun p => log2 (J p / M (fst p))) ps)%R.
Proof.
  pose proof ig_N_pos as HN.
  rewrite (fold_left_Rsum
             (fun item : string * dict string Z =>
                (IZR (sum_values (snd item)) / N *
                 _calculate_entropy_from_counts (snd item))%R)).
  rewrite Rplus_0_l, tally2_as_map, Rsum_map. cbn [snd].
  rewrite <- (Rsum_by_group (fun p => log2 (J p / M (fst p))) ps
                (first_seen (map fst ps)))
    by (apply first_seen_NoDup ||
        (intros k Hk; exact (proj2 (first_seen_In _ _) Hk))).
  rewrite <- Rsum_scale. apply Rsum_ext_in. intros v Hv.
  apply (proj1 (first_seen_In _ _)) in Hv.
  assert (Hgroup : L v <> []).
  { apply in_map_iff in Hv. destruct Hv as [p [<- Hp]].
    intros Hnil. pose proof (ig_row_in_group p Hp) as Hin.
    rewrite Hnil in Hin. contradiction. }
  fold (L v). rewrite sum_values_tally, (entropy_tally_rows _ Hgroup).
  fold (M v).
  assert (HM : (0 < M v)%R).
  { unfold M. apply IZR_lt. destruct (L v); [contradiction | simpl; lia]. }
  replace (Rsum (fun p => log2 (J p / M (fst p)))
                (filter (fun p => (fst p =? v)%string) ps))
    with (Rsum (fun x => log2 (IZR (count (L v) x) / M v)) (L v)).
  - field. lra.
  - unfold L at 2. unfold labels_of. rewrite Rsum_map.
    apply Rsum_ext_in. intros p Hp. apply filter_In in Hp.
    destruct Hp as [_ Hp]. apply String.eqb_eq in Hp. subst v.
    reflexivity.
Qed.

(** Over the rows of one value, the shares of the labels add up to at most
    the number of rows. *)
Lemma ig_group_bound (v : string) :
  (Rsum (fun d => D d / IZR (count (L v) d)) (L v) <= N)%R.
Proof.
  rewrite <- (Rsum_by_count (fun d => (D d / IZR (count (L v) d))%R)
                (L v) (first_seen (L v)))
    by (apply first_seen_NoDup ||
        (intros k Hk; exact (proj2 (first_seen_In _ _) Hk))).
  rewrite (Rsum_ext_in _ D).
  - etransitivity.
    + apply (Rsum_incl D (first_seen (L v)) (first_seen decs)).
      * apply first_seen_NoDup.
      * intros k Hk. apply (proj2 (first_seen_In _ _)).
        apply (ig_group_in_decs v). exact (proj1 (first_seen_In _ _) Hk).
      * intros x. unfold D. apply IZR_le. apply count_nonneg.
    + right. unfold D.
      rewrite (Rsum_ext_in _ (fun k => (IZR (count decs k) * 1)%R))
        by (intros; ring).
      rewrite (Rsum_by_count (fun _ => 1%R) decs (first_seen decs))
        by (apply first_seen_NoDup ||
            (intros k Hk; exact (proj2 (first_seen_In _ _) Hk))).
      apply ig_sum_ones.
  - intros k Hk. apply (proj1 (first_seen_In _ _)) in Hk.
    apply count_pos_In in Hk. apply IZR_lt in Hk. field. lra.
Qed.

Lemma ig_ratio_sum :
  (Rsum (fun p => D (snd p) * M (fst p) / (N * J p)) ps <= N)%R.
Proof.
  pose proof ig_N_pos as HN.
  rewrite <- (Rsum_by_group _ ps (first_seen col))
    by (apply first_seen_NoDup ||
        (rewrite ig_map_fst; intros k Hk;
         exact (proj2 (first_seen_In _ _) Hk))).
  etransitivity.
  - apply (Rsum_le_in _ M). intros v Hv.
    rewrite (Rsum_ext_in _
               (fun p => (M v / N * (D (snd p) / IZR (count (L v) (snd p))))%R)).
    + rewrite Rsum_scale.
      replace (Rsum (fun p => (D (snd p) / IZR (count (L v) (snd p)))%R)
                    (filter (fun p => (fst p =? v)%string) ps))
        with (Rsum (fun d => (D d / IZR (count (L v) d))%R) (L v))
        by (unfold L at 2; unfold labels_of; now rewrite Rsum_map).
      pose proof (ig_group_bound v) as Hb.
      assert (HM : (0 <= M v)%R)
        by (unfold M; apply IZR_le; lia).
      assert (Hq : (0 <= M v / N)%R).
      { unfold Rdiv. apply Rmult_le_pos; [exact HM|].
        left. now apply Rinv_0_lt_compat. }
      replace (M v) with (M v / N * N)%R at 2 by (field; lra).
      apply Rmult_le_compat_l; assumption.
    + intros p Hp. apply filter_In in Hp. destruct Hp as [Hin Hp].
      apply String.eqb_eq in Hp. subst v.
      pose proof (ig_J_pos p Hin) as HJ. unfold J in *. field. lra.
  - right.
    rewrite (Rsum_ext_in _ (fun v => (IZR (count col v) * 1)%R))
      by (intros v _; rewrite ig_M_count; ring).
    rewrite (Rsum_by_count (fun _ => 1%R) col (first_seen col))
      by (apply first_seen_NoDup ||
          (intros k Hk; exact (proj2 (first_seen_In _ _) Hk))).
    rewrite ig_sum_ones. unfold N. now rewrite same_length.
Qed.

Lemma ig_rows_inequality :
  (Rsum (fun p => log2 (D (snd p) / N)) ps <=
   Rsum (fun p => log2 (J p / M (fst p))) ps)%R.
Proof.
  pose proof ig_N_pos as HN. pose proof ln_2_pos as H2.
  assert (Hstep :
    (Rsum (fun p => log2 (D (snd p) / N) - log2 (J p / M (fst p))) ps <=
     Rsum (fun p => (D (snd p) * M (fst p) / (N * J p) - 1) / ln 2) ps)%R).
  { apply Rsum_le_in. intros p Hp.
    pose proof (ig_D_pos p Hp) as HD. pose proof (ig_J_pos p Hp) as HJ.
    pose proof (ig_M_pos p Hp) as HM.
    assert (Ha : (0 < D (snd p) / N)%R) by now apply Rdiv_lt_0_compat.
    assert (Hb : (0 < J p / M (fst p))%R) by now apply Rdiv_lt_0_compat.
    etransitivity; [apply (log2_difference _ _ Ha Hb)|].
    right. field. lra. }
  assert (Hsplit :
    (Rsum (fun p => log2 (D (snd p) / N) - log2 (J p / M (fst p))) ps =
     Rsum (fun p => log2 (D (snd p) / N)) ps -
     Rsum (fun p => log2 (J p / M (fst p))) ps)%R).
  { rewrite (Rsum_ext_in _
               (fun p => (log2 (D (snd p) / N) +
                          -1 * log2 (J p / M (fst p)))%R))
      by (intros; ring).
    rewrite Rsum_plus, Rsum_scale. ring. }
  assert (Hright :
    (Rsum (fun p => (D (snd p) * M (fst p) / (N * J p) - 1) / ln 2) ps =
     (Rsum (fun p => D (snd p) * M (fst p) / (N * J p)) ps - N) / ln 2)%R).
  { rewrite (Rsum_ext_in _
               (fun p => (/ ln 2 * (D (snd p) * M (fst p) / (N * J p) +
                                    -1))%R))
      by (intros p Hp; pose proof (ig_J_pos p Hp); field; repeat split; lra).
    rewrite Rsum_scale, Rsum_plus, Rsum_const, INR_IZR_INZ.
    unfold ps at 2. rewrite length_combine, same_length, Nat.min_id.
    fold N. field. lra. }
  pose proof ig_ratio_sum as Hsum.
  rewrite Hsplit, Hright in Hstep.
  assert (Hneg : ((Rsum (fun p => D (snd p) * M (fst p) / (N * J p)) ps - N)
                  / ln 2 <= 0)%R).
  { unfold Rdiv. apply Rinv_0_lt_compat in H2.
    replace 0%R with (0 * / ln 2)%R by ring.
    apply Rmult_le_compat_r; lra. }
  lra.
Qed.

(** The conditional entropy of the labels given the attribute is at most
    the entropy of the labels. *)
Lemma conditional_entropy_le_entropy :
  (fold_left
     (fun ce (item : string * dict string Z) =>
        (ce + IZR (sum_values (snd item)) / IZR (Z.of_nat (length decs)) *
              _calculate_entropy_from_counts (snd item))%R)
     (tally2 (combine col decs)) 0%R <=
   _calculate_entropy_from_counts (tally decs))%R.
Proof.
  pose proof ig_N_pos as HN.
  fold N. fold ps. rewrite ig_conditional_rows, ig_entropy_rows.
  pose proof ig_rows_inequality as Hrows.
  apply Rinv_0_lt_compat in HN as Hinv.
  nra.
Qed.
(** *** The gain against the split information *)

Lemma log2_mult (a b : R) :
  (0 < a)%R -> (0 < b)%R -> log2 (a * b) = (log2 a + log2 b)%R.
Proof.
  intros Ha Hb. unfold log2. rewrite ln_mult by assumption.
  pose proof ln_2_pos. field. lra.
Qed.

Lemma log2_le (a b : R) : (0 < a)%R -> (a <= b)%R -> (log2 a <= log2 b)%R.
Proof.
  intros Ha Hab. unfold log2. pose proof ln_2_pos as H2.
  assert (Hln : (ln a <= ln b)%R).
  { destruct (Rle_lt_or_eq_dec _ _ Hab) as [Hlt | ->]; [|lra].
    left. now apply ln_increasing. }
  unfold Rdiv. apply Rinv_0_lt_compat in H2.
  apply Rmult_le_compat_r; lra.
Qed.

Lemma count_filter_le (f : string * string -> bool)
  (qs : list (string * string)) (d : string) :
  (count (map snd (filter f qs)) d <= count (map snd qs) d)%Z.
Proof.
  induction qs as [|q qs IH]; cbn [filter map]; [lia|].
  destruct (f q); cbn [map]; rewrite ?count_cons;
    destruct (snd q =? d)%string; lia.
Qed.

Lemma ig_J_le_D (p : string * string) : (J p <= D (snd p))%R.
Proof.
  unfold J, D, L, labels_of. apply IZR_le.
  pose proof (count_filter_le (fun q => (fst q =? fst p)%string) ps (snd p))
    as Hle.
  rewrite ig_map_snd in Hle. exact Hle.
Qed.

(** The entropy of the values of the attribute, row by row. *)
Lemma ig_split_rows :
  _calculate_entropy_from_counts (tally col) =
  (- / N * Rsum (fun p => log2 (M (fst p) / N)) ps)%R.
Proof.
  assert (Hcol : col <> []).
  { intros Hnil. rewrite Hnil in same_length. apply not_empty.
    destruct decs; [reflexivity | discriminate]. }
  rewrite (entropy_tally_rows col Hcol), same_length. fold N. f_equal.
  rewrite <- (Rsum_map fst (fun v => log2 (M v / N)) ps), ig_map_fst.
  apply Rsum_ext_in. intros v _. now rewrite ig_M_count.
Qed.

(** The information gain of an attribute is at most the entropy of its
    values. *)
Lemma information_gain_le_split :
  (_calculate_entropy_from_counts (tally decs) -
   fold_left
     (fun ce (item : string * dict string Z) =>
        (ce + IZR (sum_values (snd item)) / IZR (Z.of_nat (length decs)) *
              _calculate_entropy_from_counts (snd item))%R)
     (tally2 (combine col decs)) 0%R <=
   _calculate_entropy_from_counts (tally col))%R.
Proof.
  pose proof ig_N_pos as HN.
  fold N. fold ps. rewrite ig_conditional_rows, ig_entropy_rows, ig_split_rows.
  assert (Hrows :
    (Rsum (fun p => log2 (J p / M (fst p)) + log2 (M (fst p) / N)) ps <=
     Rsum (fun p => log2 (D (snd p) / N)) ps)%R).
  { apply Rsum_le_in. intros p Hp.
    pose proof (ig_J_pos p Hp) as HJ. pose proof (ig_M_pos p Hp) as HM.
    pose proof (ig_J_le_D p) as HJD.
    assert (Ha : (0 < J p / M (fst p))%R) by now apply Rdiv_lt_0_compat.
    assert (Hb : (0 < M (fst p) / N)%R) by now apply Rdiv_lt_0_compat.
    rewrite <- (log2_mult _ _ Ha Hb).
    replace (J p / M (fst p) * (M (fst p) / N))%R with (J p / N)%R
      by (field; lra).
    apply log2_le; [now apply Rdiv_lt_0_compat|].
    unfold Rdiv. apply Rmult_le_compat_r; [|exact HJD].
    left. now apply Rinv_0_lt_compat. }
  rewrite Rsum_plus in Hrows.
  apply Rinv_0_lt_compat in HN as Hinv.
  nra.
Qed.
(** *** An attribute that decides the label *)

Lemma count_le_length (l : list string) (x : string) :
  (count l x <= Z.of_nat (length l))%Z.
Proof.
  induction l as [|a l IH]; [unfold count; simpl; lia|].
  rewrite count_cons. cbn [length]. destruct (a =? x)%string; lia.
Qed.

Lemma count_eq_length (l : list string) (x : string) :
  count l x = Z.of_nat (length l) <-> (forall y, In y l -> y = x).
Proof.
  induction l as [|a l IH].
  - split; [intros _ y [] | reflexivity].
  - rewrite count_cons. cbn [length]. pose proof (count_le_length l x) as Hle.
    destruct (a =? x)%string eqn:E.
    + apply String.eqb_eq in E. subst a. split.
      * intros Hc y [<-|Hy]; [reflexivity|].
        apply (proj1 IH); [lia | exact Hy].
      * intros Hall.
        assert (Hl : count l x = Z.of_nat (length l))
          by (apply IH; intros y Hy; apply Hall; now right).
        lia.
    + apply String.eqb_neq in E. split; [lia|].
      intros Hall. exfalso. apply E. apply Hall. now left.
Qed.

Lemma Rsum_nonpos_zero {A : Type} (f : A -> R) (l : list A) :
  (forall x, In x l -> (f x <= 0)%R) -> Rsum f l = 0%R ->
  forall x, In x l -> f x = 0%R.
Proof.
  induction l as [|a l IH]; intros Hf Hsum x Hx; [contradiction|].
  rewrite Rsum_cons in Hsum.
  assert (Hrest : (Rsum f l <= 0)%R).
  { pose proof (Rsum_le_in f (fun _ => 0%R) l
                  (fun y Hy => Hf y (or_intror Hy))) as Hle.
    rewrite Rsum_const in Hle. lra. }
  pose proof (Hf a (or_introl eq_refl)) as Ha.
  destruct Hx as [<-|Hx]; [lra|].
  apply IH; [intros y Hy; apply Hf; now right | lra | exact Hx].
Qed.

Lemma ig_group_In (v d : string) : In d (L v) <-> In (v, d) ps.
Proof.
  unfold L, labels_of. rewrite in_map_iff. split.
  - intros [p [<- Hp]]. apply filter_In in Hp. destruct Hp as [Hp Hv].
    apply String.eqb_eq in Hv. subst v. now destruct p.
  - intros Hp. exists (v, d). split; [reflexivity|].
    apply filter_In. split; [exact Hp | apply String.eqb_refl].
Qed.

Lemma ig_J_le_M (p : string * string) : (J p <= M (fst p))%R.
Proof. unfold J, M. apply IZR_le. apply count_le_length. Qed.

(** The conditional entropy is 0 exactly when no value of the attribute
    occurs with two labels. *)
Lemma conditional_entropy_zero_iff :
  fold_left
    (fun ce (item : string * dict string Z) =>
       (ce + IZR (sum_values (snd item)) / IZR (Z.of_nat (length decs)) *
             _calculate_entropy_from_counts (snd item))%R)
    (tally2 (combine col decs)) 0%R = 0%R <->
  (forall v d1 d2,
     In (v, d1) (combine col decs) -> In (v, d2) (combine col decs) ->
     d1 = d2).
Proof.
  pose proof ig_N_pos as HN.
  fold N. fold ps. rewrite ig_conditional_rows.
  assert (Hterm : forall p, In p ps -> (log2 (J p / M (fst p)) <= 0)%R).
  { intros p Hp. pose proof (ig_J_pos p Hp) as HJ.
    pose proof (ig_M_pos p Hp) as HM. pose proof (ig_J_le_M p) as HJM.
    apply log2_nonpos. split; [now apply Rdiv_lt_0_compat|].
    unfold Rdiv. rewrite <- (Rinv_r (M (fst p))) by lra.
    apply Rmult_le_compat_r; [|exact HJM].
    left. now apply Rinv_0_lt_compat. }
  assert (Hzero : forall p, In p ps ->
            (log2 (J p / M (fst p)) = 0%R <->
             forall d, In d (L (fst p)) -> d = snd p)).
  { intros p Hp. pose proof (ig_J_pos p Hp) as HJ.
    pose proof (ig_M_pos p Hp) as HM.
    rewrite <- count_eq_length. split.
    - intros Hl. apply log2_zero_one in Hl; [|now apply Rdiv_lt_0_compat].
      apply eq_IZR. fold (J p). fold (M (fst p)).
      apply (Rmult_eq_reg_r (/ M (fst p)));
        [|apply Rinv_neq_0_compat; lra].
      unfold Rdiv in Hl. rewrite Hl. field. lra.
    - intros Hc. unfold J, M in *. rewrite Hc.
      replace (IZR (Z.of_nat (length (L (fst p)))) /
               IZR (Z.of_nat (length (L (fst p)))))%R with 1%R
        by (field; lra).
      apply ln_1_over_ln_2. }
  split.
  - intros Hce v d1 d2 H1 H2.
    assert (Hsum : Rsum (fun p => log2 (J p / M (fst p))) ps = 0%R).
    { apply Rmult_integral in Hce. destruct Hce as [Hinv|Hs]; [|exact Hs].
      apply Rinv_0_lt_compat in HN. lra. }
    pose proof (Rsum_nonpos_zero _ _ Hterm Hsum (v, d2) H2) as H0.
    apply (proj1 (Hzero (v, d2) H2)) with (d := d1) in H0; [exact H0|].
    cbn [fst]. now apply ig_group_In.
  - intros Hdet.
    rewrite (Rsum_ext_in _ (fun _ => 0%R)); [rewrite Rsum_const; ring|].
    intros p Hp. apply (proj2 (Hzero p Hp)). intros d Hd.
    apply ig_group_In in Hd.
    apply (Hdet (fst p) d (snd p) Hd). now destruct p.
Qed.
End InformationGain.

(** *** The gains on loaded tables *)

Lemma all_positive_nonneg (d : dict string Z) :
  all_positive d -> Forall (fun c => (0 <= c)%Z) (dict_values d).
Proof.
  unfold all_positive. apply Forall_impl. intros c Hc. lia.
Qed.

Lemma tally2_all_positive (ps : list (string * string)) :
  Forall (fun item => all_positive (snd item)) (tally2 ps).
Proof.
  rewrite tally2_as_map. apply Forall_map. apply Forall_forall.
  intros v _. cbn [snd]. apply all_positive_tally.
Qed.

Lemma conditional_fold_nonneg (total : Z)
  (by_value : dict string (dict string Z)) :
  (0 < total)%Z ->
  Forall (fun item => all_positive (snd item)) by_value ->
  forall acc : R,
    (0 <= acc)%R ->
    (0 <= fold_left
            (fun ce (item : string * dict string Z) =>
               (ce + IZR (sum_values (snd item)) / IZR total *
                     _calculate_entropy_from_counts (snd item))%R)
            by_value acc)%R.
Proof.
  intros Ht. induction 1 as [|item l Hitem _ IH]; intros acc Hacc;
    cbn [fold_left]; [exact Hacc|].
  apply IH.
  pose proof (entropy_from_counts_nonneg _ (all_positive_nonneg _ Hitem))
    as Hent.
  destruct (Zsum_bounds _ (all_positive_nonneg _ Hitem)) as [Hs _].
  fold (sum_values (snd item)) in Hs.
  apply IZR_le in Hs. apply IZR_lt in Ht.
  assert (Hp : (0 <= IZR (sum_values (snd item)) / IZR total)%R).
  { apply Rmult_le_pos; [exact Hs|]. left. now apply Rinv_0_lt_compat. }
  pose proof (Rmult_le_pos _ _ Hp Hent). lra.
Qed.

Lemma labels_length (rows : list (list string)) :
  length (labels rows) = length rows.
Proof. unfold labels. apply length_map. Qed.

(** Information gain on the tables of a load: the call returns, and what it
    returns lies between 0 and the entropy of the labels, and is at most the
    entropy of the values of the attribute. *)
Lemma tables_information_gain `{PySet} (rows : list (list string))
  (root : option DecisionTreeNode) (a : nat) :
  rows <> [] -> (a < n_attributes rows)%nat ->
  exists ig,
    calculate_information_gain (tables rows root) a = Ok ig /\
    (0 <= ig <= calculate_entropy (tables rows root))%R /\
    (ig <= _calculate_entropy_from_counts
             (tally (column (map (@removelast string) rows) a)))%R.
Proof.
  intros Hne Ha.
  assert (Hlen : (0 < Z.of_nat (length (labels rows)))%Z)
    by (rewrite labels_length; destruct rows; [contradiction | simpl; lia]).
  assert (Hdecs : labels rows <> [])
    by (destruct rows; [contradiction | discriminate]).
  unfold calculate_information_gain, calculate_conditional_entropy,
    dict_lookup.
  rewrite (tables_attribute_decision_counts rows root a Ha). cbn [rbind].
  change (decisions (tables rows root)) with (labels rows).
  rewrite conditional_entropy_fold_Ok by lia. cbn [rbind].
  eexists. split; [reflexivity|].
  unfold calculate_entropy.
  change (decision_counts (tables rows root)) with (tally (labels rows)).
  pose proof (conditional_entropy_le_entropy
                (column (map (@removelast string) rows) a) (labels rows)
                (eq_trans (tables_column_length rows a)
                          (eq_sym (labels_length rows)))
                Hdecs) as Hle.
  pose proof (information_gain_le_split
                (column (map (@removelast string) rows) a) (labels rows)
                (eq_trans (tables_column_length rows a)
                          (eq_sym (labels_length rows)))
                Hdecs) as Hsplit.
  pose proof (conditional_fold_nonneg _ _ Hlen
                (tally2_all_positive
                   (combine (column (map (@removelast string) rows) a)
                            (labels rows)))
                0%R (Rle_refl 0)) as Hnn.
  repeat split; lra.
Qed.

(** Gain ratio on the tables of a load: the call returns a number between
    0 and 1. *)
Lemma tables_gain_ratio_bounds `{PySet} (rows : list (list string))
  (root : option DecisionTreeNode) (a : nat) :
  rows <> [] -> (a < n_attributes rows)%nat ->
  exists g,
    calculate_gain_ratio (tables rows root) a = Ok g /\ (0 <= g <= 1)%R.
Proof.
  intros Hne Ha.
  destruct (tables_information_gain rows root a Hne Ha)
    as [ig [Hig [[Hpos _] Hle]]].
  unfold calculate_gain_ratio, calculate_split_information, dict_lookup.
  rewrite Hig. cbn [rbind].
  rewrite (tables_value_occurrences rows root a Ha). cbn [rbind].
  pose proof (entropy_from_counts_nonneg _
                (all_positive_nonneg _
                   (all_positive_tally
                      (column (map (@removelast string) rows) a)))) as Hsplit.
  destruct (Reqb _ 0) eqn:E.
  - eexists. split; [reflexivity | lra].
  - eexists. split; [reflexivity|].
    assert (Hnz : _calculate_entropy_from_counts
                    (tally (column (map (@removelast string) rows) a)) <> 0%R).
    { intros Hz. apply Reqb_true in Hz. congruence. }
    assert (Hinv : (0 < / _calculate_entropy_from_counts
                           (tally (column (map (@removelast string) rows) a)))%R)
      by (apply Rinv_0_lt_compat; lra).
    split.
    + apply Rmult_le_pos; [exact Hpos | lra].
    + unfold Rdiv.
      rewrite <- (Rinv_r _ Hnz). apply Rmult_le_compat_r; lra.
Qed.

(** X15: after [load_data] on a well-formed table, for every attribute of
    the table, [calculate_information_gain] returns a number between 0 and
    the entropy of the labels, and [calculate_gain_ratio] returns a number
    between 0 and 1. *)
Theorem X15_gains_are_within_bounds `{PySet}
  (rows : list (list string)) (s0 : DecisionTree) (attr : nat) :
  wf_rows rows = true -> (attr < n_attributes rows)%nat ->
  exists s ig g,
    load_data rows s0 = (Ok tt, s) /\
    calculate_information_gain s attr = Ok ig /\
    (0 <= ig <= calculate_entropy s)%R /\
    calculate_gain_ratio s attr = Ok g /\ (0 <= g <= 1)%R.
Proof.
  intros Hwf Hattr. destruct (wf_rows_inv rows Hwf) as [Hne _].
  destruct (load_data_Ok rows s0 Hwf) as [root [_ Hload]].
  destruct (tables_information_gain rows (Some root) attr Hne Hattr)
    as [ig [Hig [Hbounds _]]].
  destruct (tables_gain_ratio_bounds rows (Some root) attr Hne Hattr)
    as [g [Hg Hpos]].
  exists (tables rows (Some root)), ig, g. auto.
Qed.

Lemma X15_witness :
  wf_rows scenario_rows = true /\ (1 < n_attributes scenario_rows)%nat /\
  exists s ig g,
    @load_data insertion_order scenario_rows init = (Ok tt, s) /\
    calculate_information_gain s 1 = Ok ig /\
    (0 <= ig <= calculate_entropy s)%R /\
    calculate_gain_ratio s 1 = Ok g /\ (0 <= g <= 1)%R.
Proof.
  split; [reflexivity|]. split; [vm_compute; lia|].
  apply (@X15_gains_are_within_bounds insertion_order scenario_rows init 1);
    [reflexivity | vm_compute; lia].
Defined.

(** ** The builder splits while an attribute is left *)

(** On the tables of a load the candidate loop picks an attribute as soon
    as one is unused: every gain ratio is above the initial [-1]. *)
Lemma tables_select_best_Some `{PySet} (rows : list (list string))
  (root : option DecisionTreeNode) (used : list nat) (a : nat) :
  rows <> [] -> (a < n_attributes rows)%nat -> ~ In a used ->
  exists b g, select_best (tables rows root) used = Ok (Some b, g).
Proof.
  intros Hne Ha Hnot.
  destruct (tables_select_best_Ok rows root used Hne) as [[[b|] g] Hsel];
    [eauto|].
  exfalso.
  destruct (select_best_None _ _ _ Hsel) as [_ Hall].
  assert (Hkey : In a (dict_keys (unique_attributes_values (tables rows root))))
    by (rewrite tables_keys; apply in_seq; lia).
  specialize (Hall a Hkey Hnot).
  destruct (tables_gain_ratio_bounds rows root a Hne Ha) as [ga [Hga Hpos]].
  rewrite (gain_ratio_Ok _ _ _ Hga) in Hall. lra.
Qed.

(** X16: after [load_data] on a well-formed table, a call of [_build_tree]
    on rows that carry more than one label, with an attribute of the table
    not yet in [used_attributes], returns an attribute node: it tests an
    attribute of the table that is not in [used_attributes] and has a child.
    The majority leaf of the exhausted case is returned only when every
    attribute is used. *)
Theorem X16_builder_splits_while_an_attribute_is_left `{PySet}
  (rows : list (list string)) (s0 s : DecisionTree)
  (idx used : list nat) (decs : list string) (node : DecisionTreeNode)
  (a : nat) :
  wf_rows rows = true ->
  load_data rows s0 = (Ok tt, s) ->
  (a < n_attributes rows)%nat -> ~ In a used ->
  rmap (index (decisions s)) idx = Ok decs ->
  length (set_iter decs) <> 1%nat ->
  _build_tree s idx used = Ok node ->
  exists b,
    (b < n_attributes rows)%nat /\ ~ In b used /\
    name node = ("Attribute a" ++ str (b + 1))%string /\
    attribute_index node = Some b /\ decision node = None /\
    children node <> [].
Proof.
  intros Hwf Hload Ha Hnot Hdecs Hmixed Hbuild.
  destruct (wf_rows_inv rows Hwf) as [Hne _].
  destruct (load_data_Ok rows s0 Hwf) as [root [_ Hload']].
  assert (Hs : s = tables rows (Some root)) by congruence. subst s.
  rewrite build_tree_unfold in Hbuild.
  destruct (build_body_inv _ _ _ _ _ Hbuild) as [decs' [Hdecs' Hcases]].
  assert (decs' = decs) by congruence. subst decs'.
  destruct Hcases as [[Hpure _]|[[_ [g [m [Hsel _]]]]|[_ Hsplit]]].
  - contradiction.
  - exfalso.
    destruct (tables_select_best_Some rows (Some root) used a Hne Ha Hnot)
      as [b [g' Hsome]].
    congruence.
  - destruct Hsplit as [b [g [values [kids [Hsel [Hvalues [Hkids ->]]]]]]].
    destruct (select_best_Some _ _ _ _ Hsel)
      as [l1 [l2 [Hkeys [Hnb _]]]].
    assert (Hb : (b < n_attributes rows)%nat).
    { assert (Hin : In b (dict_keys
                            (unique_attributes_values
                               (tables rows (Some root)))))
        by (rewrite Hkeys; apply in_or_app; right; now left).
      rewrite tables_keys in Hin. apply in_seq in Hin. lia. }
    exists b. cbn [name attribute_index decision children].
    repeat split; auto.
    unfold dict_lookup in Hvalues.
    rewrite (tables_value_occurrences rows (Some root) b Hb) in Hvalues.
    cbn in Hvalues. injection Hvalues as <-.
    rewrite tally_keys in Hkids.
    intros Hnil. rewrite Hnil in Hkids. inversion Hkids as [Hfs|].
    apply (column_nonempty rows b Hne). now symmetry.
Qed.

Lemma X16_witness :
  exists s node,
    wf_rows scenario_rows = true /\
    @load_data insertion_order scenario_rows init = (Ok tt, s) /\
    (1 < n_attributes scenario_rows)%nat /\ ~ In 1%nat [0%nat] /\
    rmap (index (decisions s)) [0; 1]%nat = Ok ["yes"; "no"]%string /\
    length (@set_iter insertion_order ["yes"; "no"]%string) <> 1%nat /\
    @_build_tree insertion_order s [0; 1]%nat [0%nat] = Ok node /\
    exists b,
      (b < n_attributes scenario_rows)%nat /\ ~ In b [0%nat] /\
      name node = ("Attribute a" ++ str (b + 1))%string /\
      attribute_index node = Some b /\ decision node = None /\
      children node <> [].
Proof.
  destruct (@load_data_Ok insertion_order scenario_rows init eq_refl)
    as [root [_ Hload]].
  assert (Hn : (1 < n_attributes scenario_rows)%nat) by (vm_compute; lia).
  assert (Hne : scenario_rows <> []) by discriminate.
  assert (Hnot : ~ In 1%nat [0%nat]) by (intros [H|[]]; discriminate).
  assert (Hdecs : rmap (index (decisions (@tables insertion_order
                                            scenario_rows (Some root))))
                       [0; 1]%nat = Ok ["yes"; "no"]%string) by reflexivity.
  assert (Hmixed : length (@set_iter insertion_order ["yes"; "no"]%string)
                   <> 1%nat) by (vm_compute; lia).
  destruct (@build_tree_Ok insertion_order scenario_rows (Some root) eq_refl
              (S (length (open_attributes
                            (@tables insertion_order scenario_rows (Some root))
                            [0%nat])))
              [0%nat] [0; 1]%nat (Nat.lt_succ_diag_r _))
    as [node Hnode];
    [discriminate | repeat constructor |].
  exists (@tables insertion_order scenario_rows (Some root)), node.
  split; [reflexivity|]. split; [exact Hload|]. split; [exact Hn|].
  split; [exact Hnot|]. split; [exact Hdecs|]. split; [exact Hmixed|].
  split; [exact Hnode|].
  exact (@X16_builder_splits_while_an_attribute_is_left insertion_order
           scenario_rows init _ [0; 1]%nat [0%nat] ["yes"; "no"]%string node
           1%nat eq_refl Hload Hn Hnot Hdecs Hmixed Hnode).
Defined.

(** ** An attribute that decides the label *)

(** X17: after [load_data] on a well-formed table, for every attribute of
    the table, [calculate_conditional_entropy] returns a number between 0
    and the entropy of the labels, and it returns 0 exactly when no value of
    the attribute occurs with two different labels in the table: the
    information gain of such an attribute, and of no other, is the whole
    entropy of the labels. *)
Theorem X17_conditional_entropy_zero_iff_attribute_decides `{PySet}
  (rows : list (list string)) (s0 : DecisionTree) (attr : nat) :
  wf_rows rows = true -> (attr < n_attributes rows)%nat ->
  exists s ce,
    load_data rows s0 = (Ok tt, s) /\
    calculate_conditional_entropy s attr = Ok ce /\
    (0 <= ce <= calculate_entropy s)%R /\
    calculate_information_gain s attr = Ok (calculate_entropy s - ce)%R /\
    (ce = 0%R <->
     forall v d1 d2,
       In (v, d1) (combine (column (attributes s) attr) (decisions s)) ->
       In (v, d2) (combine (column (attributes s) attr) (decisions s)) ->
       d1 = d2).
Proof.
  intros Hwf Hattr. destruct (wf_rows_inv rows Hwf) as [Hne _].
  destruct (load_data_Ok rows s0 Hwf) as [root [_ Hload]].
  assert (Hlen : (0 < Z.of_nat (length (labels rows)))%Z)
    by (rewrite labels_length; destruct rows; [contradiction | simpl; lia]).
  assert (Hdecs : labels rows <> [])
    by (destruct rows; [contradiction | discriminate]).
  pose proof (eq_trans (tables_column_length rows attr)
                       (eq_sym (labels_length rows))) as Hsame.
  eexists (tables rows (Some root)), _.
  split; [exact Hload|].
  unfold calculate_information_gain, calculate_conditional_entropy,
    dict_lookup.
  rewrite (tables_attribute_decision_counts rows (Some root) attr Hattr).
  cbn [rbind].
  change (decisions (tables rows (Some root))) with (labels rows).
  change (attributes (tables rows (Some root)))
    with (map (@removelast string) rows).
  rewrite conditional_entropy_fold_Ok by lia. cbn [rbind].
  split; [reflexivity|].
  unfold calculate_entropy.
  change (decision_counts (tables rows (Some root)))
    with (tally (labels rows)).
  split; [|split; [reflexivity|]].
  - pose proof (conditional_entropy_le_entropy _ _ Hsame Hdecs) as Hle.
    pose proof (conditional_fold_nonneg _ _ Hlen
                  (tally2_all_positive
                     (combine (column (map (@removelast string) rows) attr)
                              (labels rows)))
                  0%R (Rle_refl 0)) as Hnn.
    split; lra.
  - exact (conditional_entropy_zero_iff _ _ Hsame Hdecs).
Qed.

Lemma X17_witness :
  wf_rows scenario_rows = true /\ (0 < n_attributes scenario_rows)%nat /\
  exists s ce,
    @load_data insertion_order scenario_rows init = (Ok tt, s) /\
    calculate_conditional_entropy s 0 = Ok ce /\
    (0 <= ce <= calculate_entropy s)%R /\
    calculate_information_gain s 0 = Ok (calculate_entropy s - ce)%R /\
    (ce = 0%R <->
     forall v d1 d2,
       In (v, d1) (combine (column (attributes s) 0) (decisions s)) ->
       In (v, d2) (combine (column (attributes s) 0) (decisions s)) ->
       d1 = d2).
Proof.
  split; [reflexivity|]. split; [vm_compute; lia|].
  apply (@X17_conditional_entropy_zero_iff_attribute_decides insertion_order
           scenario_rows init 0);
    [reflexivity | vm_compute; lia].
Defined.

(** ** Reading the file *)

Lemma concat_cons_char (sep : string) (c : ascii) (piece : string)
  (rest : list string) :
  String.concat sep (String c piece :: rest) =
  String c (String.concat sep (piece :: rest)).
Proof. destruct rest; reflexivity. Qed.

Lemma split_pieces_join (sep : ascii) (s : string) :
  String.concat (String sep EmptyString)
         (fst (split_pieces sep s) :: snd (split_pieces sep s)) = s.
Proof.
  induction s as [|c s IH]; [reflexivity|].
  cbn [split_pieces]. destruct (split_pieces sep s) as [piece rest].
  cbn [fst snd] in IH.
  destruct (Ascii.eqb c sep) eqn:E; cbn [fst snd].
  - apply Ascii.eqb_eq in E. subst c.
    change (String.concat (String sep EmptyString) (EmptyString :: piece :: rest))
      with (String sep (String.concat (String sep EmptyString) (piece :: rest))).
    now rewrite IH.
  - now rewrite concat_cons_char, IH.
Qed.

Lemma split_pieces_no_sep (sep : ascii) (s : string) :
  has_char sep (fst (split_pieces sep s)) = false /\
  Forall (fun piece => has_char sep piece = false) (snd (split_pieces sep s)).
Proof.
  induction s as [|c s [IH1 IH2]]; [split; [reflexivity | constructor]|].
  cbn [split_pieces]. destruct (split_pieces sep s) as [piece rest].
  cbn [fst snd] in *.
  destruct (Ascii.eqb c sep) eqn:E; cbn [fst snd].
  - split; [reflexivity | now constructor].
  - split; [|exact IH2]. cbn [has_char]. now rewrite E, IH1.
Qed.

Lemma split_pieces_length (sep : ascii) (s : string) :
  length (snd (split_pieces sep s)) = count_char sep s.
Proof.
  induction s as [|c s IH]; [reflexivity|].
  cbn [split_pieces count_char]. destruct (split_pieces sep s) as [piece rest].
  cbn [snd] in IH.
  destruct (Ascii.eqb c sep); cbn [snd length]; lia.
Qed.

Lemma split_pieces_field (sep : ascii) (f : string) :
  has_char sep f = false -> split_pieces sep f = (f, []).
Proof.
  induction f as [|c f IH]; [reflexivity|].
  cbn [has_char split_pieces]. intros Hno.
  apply orb_false_iff in Hno. destruct Hno as [Hc Hf].
  now rewrite (IH Hf), Hc.
Qed.

Lemma split_pieces_app (sep : ascii) (f t : string) :
  has_char sep f = false ->
  split_pieces sep (f ++ String sep t) =
  (f, fst (split_pieces sep t) :: snd (split_pieces sep t)).
Proof.
  induction f as [|c f IH]; cbn [has_char append split_pieces]; intros Hno.
  - destruct (split_pieces sep t) as [piece rest].
    now rewrite Ascii.eqb_refl.
  - apply orb_false_iff in Hno. destruct Hno as [Hc Hf].
    now rewrite (IH Hf), Hc.
Qed.

Lemma str_split_join (sep : ascii) (fields : list string) :
  fields <> [] ->
  Forall (fun field => has_char sep field = false) fields ->
  str_split sep (String.concat (String sep EmptyString) fields) = fields.
Proof.
  intros Hne Hall. unfold str_split.
  induction Hall as [|f fs Hf Hfs IH]; [contradiction|].
  destruct fs as [|g fs].
  - cbn [String.concat]. now rewrite (split_pieces_field sep f Hf).
  - change (String.concat (String sep EmptyString) (f :: g :: fs))
      with (f ++ String sep (String.concat (String sep EmptyString) (g :: fs)))%string.
    rewrite (split_pieces_app sep f _ Hf).
    specialize (IH ltac:(discriminate)).
    destruct (split_pieces sep (String.concat (String sep EmptyString) (g :: fs)))
      as [piece rest].
    cbn [fst snd]. now rewrite IH.
Qed.

Lemma rstrip_space (s : string) (c : ascii) :
  isspace c = true -> rstrip (s ++ String c EmptyString) = rstrip s.
Proof.
  intros Hc. induction s as [|a s IH].
  - cbn [append rstrip]. now rewrite Hc.
  - cbn [append rstrip]. now rewrite IH.
Qed.

Lemma strip_space (s : string) (c : ascii) :
  isspace c = true -> strip (s ++ String c EmptyString) = strip s.
Proof.
  intros Hc. unfold strip. induction s as [|a s IH].
  - cbn [append lstrip]. now rewrite Hc.
  - cbn [append lstrip]. destruct (isspace a); [exact IH|].
    exact (rstrip_space (String a s) c Hc).
Qed.

Lemma lstrip_blank (s : string) :
  forallb isspace (list_ascii_of_string s) = true -> lstrip s = EmptyString.
Proof.
  induction s as [|c s IH]; [reflexivity|].
  cbn [list_ascii_of_string forallb lstrip]. intros Hall.
  apply andb_true_iff in Hall. destruct Hall as [Hc Hs].
  rewrite Hc. now apply IH.
Qed.

Lemma parse_line_length (line : string) :
  length (parse_line line) = S (count_char "," (strip line)).
Proof.
  unfold parse_line, str_split.
  pose proof (split_pieces_length "," (strip line)) as Hlen.
  destruct (split_pieces "," (strip line)) as [piece rest].
  cbn [snd] in Hlen. cbn [length]. now rewrite Hlen.
Qed.

Lemma parse_line_blank (line : string) :
  blank line = true -> parse_line line = [EmptyString].
Proof.
  intros Hblank. unfold parse_line, strip.
  now rewrite (lstrip_blank line Hblank).
Qed.

Lemma read_rows_not_empty (lines : list string) :
  Forall (fun row => row <> []) (read_rows lines).
Proof.
  unfold read_rows. apply Forall_map. apply Forall_forall. intros line _.
  intros Hnil. pose proof (parse_line_length line) as Hlen.
  rewrite Hnil in Hlen. discriminate.
Qed.

(** X18: [line.strip().split(",")] gives at least one field, one more field
    than the stripped line has commas; no field holds a comma; and the
    fields joined by commas are the stripped line again. So no row read from
    a file is empty. *)
Theorem X18_fields_of_a_line (line : string) :
  parse_line line <> [] /\
  length (parse_line line) = S (count_char "," (strip line)) /\
  Forall (fun field => has_char "," field = false) (parse_line line) /\
  String.concat "," (parse_line line) = strip line.
Proof.
  pose proof (parse_line_length line) as Hlen.
  split; [intros Hnil; rewrite Hnil in Hlen; discriminate|].
  split; [exact Hlen|].
  unfold parse_line, str_split.
  pose proof (split_pieces_no_sep "," (strip line)) as [Hfst Hsnd].
  pose proof (split_pieces_join "," (strip line)) as Hjoin.
  destruct (split_pieces "," (strip line)) as [piece rest].
  cbn [fst snd] in *. split; [now constructor | exact Hjoin].
Qed.

(** X19: a table written one row per line, the fields joined by commas and
    the line ended by a line feed, is read back as the same table, when
    every row has a field, no field holds a comma, and no joined line
    begins or ends with whitespace. *)
Theorem X19_written_table_reads_back (rows : list (list string)) :
  Forall (fun row =>
            row <> [] /\
            Forall (fun field => has_char "," field = false) row /\
            strip (String.concat "," row) = String.concat "," row) rows ->
  read_rows (map line_of rows) = rows.
Proof.
  induction 1 as [|row rows [Hne [Hfields Hstrip]] _ IH]; [reflexivity|].
  cbn [map read_rows] in *. f_equal; [|exact IH].
  unfold parse_line, line_of.
  rewrite strip_space by reflexivity.
  rewrite Hstrip. now apply str_split_join.
Qed.

Lemma X19_witness :
  Forall (fun row =>
            row <> [] /\
            Forall (fun field => has_char "," field = false) row /\
            strip (String.concat "," row) = String.concat "," row) scenario_rows /\
  read_rows (map line_of scenario_rows) = scenario_rows.
Proof.
  assert (Hrows :
    Forall (fun row =>
              row <> [] /\
              Forall (fun field => has_char "," field = false) row /\
              strip (String.concat "," row) = String.concat "," row) scenario_rows).
  { repeat constructor; discriminate. }
  split; [exact Hrows|].
  exact (X19_written_table_reads_back scenario_rows Hrows).
Defined.

(** X20: a file whose first line has a comma and that holds a line of
    whitespace only cannot be loaded: the blank line is read as a row with
    the one field [""], and [load_data] raises [IndexError] in its first
    counting pass, before any table or the tree is assigned. *)
Theorem X20_blank_line_raises_IndexError `{PySet}
  (line0 : string) (rest : list string) (s0 : DecisionTree) :
  (0 < count_char "," (strip line0))%nat ->
  Exists (fun line => blank line = true) rest ->
  exists s,
    load_file (line0 :: rest) s0 = (Raise IndexError, s) /\
    In [EmptyString] (data s) /\
    tree_root s = tree_root s0 /\
    unique_attributes_values s = unique_attributes_values s0 /\
    value_occurrences s = value_occurrences s0 /\
    decision_counts s = decision_counts s0 /\
    attribute_decision_counts s = attribute_decision_counts s0.
Proof.
  intros Hcomma Hblank. unfold load_file.
  apply Exists_exists in Hblank. destruct Hblank as [line [Hin Hline]].
  assert (Hrow : In [EmptyString] (read_rows (line0 :: rest))).
  { unfold read_rows. apply in_map_iff. exists line.
    split; [now apply parse_line_blank | now right]. }
  eexists. split.
  - apply load_data_short_row; [apply read_rows_not_empty|].
    apply Exists_exists. exists [EmptyString]. split; [exact Hrow|].
    cbn [read_rows map hd]. rewrite parse_line_length. cbn [length]. lia.
  - split; [exact Hrow | repeat split; reflexivity].
Qed.

Lemma X20_witness :
  (0 < count_char "," (strip (line_of ["a"; "yes"]%string)))%nat /\
  Exists (fun line => blank line = true)
         [line_of ["b"; "no"]%string; line_of [EmptyString]] /\
  exists s,
    @load_file insertion_order
      [line_of ["a"; "yes"]%string; line_of ["b"; "no"]%string;
       line_of [EmptyString]] init = (Raise IndexError, s) /\
    In [EmptyString] (data s) /\
    tree_root s = tree_root init /\
    unique_attributes_values s = unique_attributes_values init /\
    value_occurrences s = value_occurrences init /\
    decision_counts s = decision_counts init /\
    attribute_decision_counts s = attribute_decision_counts init.
Proof.
  assert (Hcomma : (0 < count_char "," (strip (line_of ["a"; "yes"]%string)))%nat)
    by (vm_compute; lia).
  assert (Hblank : Exists (fun line => blank line = true)
                     [line_of ["b"; "no"]%string; line_of [EmptyString]])
    by (apply Exists_cons_tl, Exists_cons_hd; reflexivity).
  split; [exact Hcomma|]. split; [exact Hblank|].
  exact (@X20_blank_line_raises_IndexError insertion_order _ _ init
           Hcomma Hblank).
Defined.

(** X21: a file with at least one line, every line of which has the same
    number [k] of commas once stripped, is loaded without an exception: the
    object then has the [k] attributes 0 to [k - 1], one label per line,
    and a tree. *)
Theorem X21_lines_with_equally_many_commas_load `{PySet}
  (lines : list string) (k : nat) (s0 : DecisionTree) :
  lines <> [] ->
  Forall (fun line => count_char "," (strip line) = k) lines ->
  exists s root,
    load_file lines s0 = (Ok tt, s) /\
    data s = read_rows lines /\
    dict_keys (unique_attributes_values s) = seq 0 k /\
    length (decisions s) = length lines /\
    tree_root s = Some root.
Proof.
  intros Hne Hall. unfold load_file.
  assert (Hlen : Forall (fun row => length row = S k) (read_rows lines)).
  { unfold read_rows. apply Forall_map.
    eapply Forall_impl; [|exact Hall]. cbv beta.
    intros line Hline. now rewrite parse_line_length, Hline. }
  assert (Hwf : wf_rows (read_rows lines) = true).
  { destruct lines as [|line0 rest]; [contradiction|].
    pose proof Hlen as Hlen'. rewrite Forall_forall in Hlen'.
    unfold wf_rows. cbn [read_rows map] in *.
    rewrite (Hlen' (parse_line line0) (or_introl eq_refl)).
    apply andb_true_iff. split; [reflexivity|].
    apply forallb_forall. intros row Hrow. apply Nat.eqb_eq.
    now apply Hlen'. }
  assert (Hn : n_attributes (read_rows lines) = k).
  { destruct lines as [|line0 rest]; [contradiction|].
    unfold n_attributes. cbn [read_rows map hd].
    rewrite length_removelast_pred, parse_line_length.
    inversion Hall; subst. reflexivity. }
  destruct (load_data_Ok (read_rows lines) s0 Hwf) as [root [_ Hload]].
  exists (tables (read_rows lines) (Some root)), root.
  split; [exact Hload|]. split; [reflexivity|].
  split; [now rewrite tables_keys, Hn|].
  split; [|reflexivity].
  change (decisions (tables (read_rows lines) (Some root)))
    with (labels (read_rows lines)).
  rewrite labels_length. unfold read_rows. apply length_map.
Qed.

Lemma X21_witness :
  map line_of scenario_rows <> [] /\
  Forall (fun line => count_char "," (strip line) = 2%nat)
         (map line_of scenario_rows) /\
  exists s root,
    @load_file insertion_order (map line_of scenario_rows) init = (Ok tt, s) /\
    data s = read_rows (map line_of scenario_rows) /\
    dict_keys (unique_attributes_values s) = seq 0 2 /\
    length (decisions s) = length (map line_of scenario_rows) /\
    tree_root s = Some root.
Proof.
  assert (Hne : map line_of scenario_rows <> []) by discriminate.
  assert (Hall : Forall (fun line => count_char "," (strip line) = 2%nat)
                        (map line_of scenario_rows))
    by (repeat constructor).
  split; [exact Hne|]. split; [exact Hall|].
  exact (@X21_lines_with_equally_many_commas_load insertion_order _ 2 init
           Hne Hall).
Defined.

(** ** An empty branch *)

(** On [vote_rows] the call for the rows 0, 1 and 2 with attribute 0 used
    tests attribute 1; none of these rows has the value [y], so the branch
    for [y] is the leaf with the majority label of the three rows, [no],
    although [yes] comes first in the set of their labels. *)
Example empty_branch_on_vote_rows :
  exists s node kid,
    @load_data insertion_order vote_rows init = (Ok tt, s) /\
    @_build_tree insertion_order s [0; 1; 2]%nat [0%nat] = Ok node /\
    attribute_index node = Some 1%nat /\
    subset_indices s [0; 1; 2]%nat 1 "y" = Ok [] /\
    @set_iter insertion_order ["yes"; "no"; "no"]%string =
      ["yes"; "no"]%string /\
    nth_error (children node) 1 = Some kid /\
    kid = mkNode ("y" ++ arrow ++ "Decision: no")%string None
                 (Some "no"%string) [].
Proof.
  destruct (@load_data_Ok insertion_order vote_rows init eq_refl)
    as [root [_ Hload]].
  assert (Hne : vote_rows <> []) by discriminate.
  destruct (@build_tree_Ok insertion_order vote_rows (Some root) eq_refl
              (S (length (open_attributes
                            (@tables insertion_order vote_rows (Some root))
                            [0%nat])))
              [0%nat] [0; 1; 2]%nat (Nat.lt_succ_diag_r _))
    as [node Hnode];
    [discriminate | repeat constructor |].
  pose proof Hnode as Hbody. rewrite (@build_tree_unfold insertion_order) in Hbody.
  destruct (build_body_inv _ _ _ _ _ Hbody) as [decs [Hdecs Hcases]].
  assert (Hd : decs = ["yes"; "no"; "no"]%string).
  { change (Ok ["yes"; "no"; "no"]%string = Ok decs) in Hdecs.
    now injection Hdecs. }
  subst decs.
  assert (Hb : forall b g,
            select_best (@tables insertion_order vote_rows (Some root))
                        [0%nat] = Ok (Some b, g) -> b = 1%nat).
  { intros b g Hsel.
    destruct (select_best_Some _ _ _ _ Hsel) as [l1 [l2 [Hkeys [Hnb _]]]].
    assert (Hin : In b (dict_keys (unique_attributes_values
                          (@tables insertion_order vote_rows (Some root)))))
      by (rewrite Hkeys; apply in_or_app; right; now left).
    rewrite tables_keys in Hin. apply in_seq in Hin.
    assert (Hn : n_attributes vote_rows = 2%nat) by reflexivity.
    destruct b as [|[|b]]; [exfalso; apply Hnb; now left | reflexivity | lia]. }
  destruct Hcases as [[Hpure _]|[[_ [g [m [Hsel _]]]]|[_ Hsplit]]].
  - vm_compute in Hpure. discriminate.
  - exfalso.
    destruct (@tables_select_best_Some insertion_order vote_rows (Some root)
                [0%nat] 1%nat Hne) as [b [g' Hsome]];
      [vm_compute; lia | intros [H0|[]]; discriminate | congruence].
  - destruct Hsplit as [b [g [values [kids [Hsel [Hvalues [Hkids Hn]]]]]]].
    pose proof (Hb b g Hsel) as ->.
    assert (Hv : values = [("x"%string, 3%Z); ("y"%string, 1%Z)]).
    { change (Ok [("x"%string, 3%Z); ("y"%string, 1%Z)] = Ok values)
        in Hvalues.
      now injection Hvalues. }
    subst values. cbn [dict_keys map fst] in Hkids.
    inversion Hkids as [|? k1 ? ks1 _ Hrest]; subst.
    inversion Hrest as [|? k2 ? ks2 Hy Hnil]; subst.
    inversion Hnil; subst.
    destruct Hy as [subset [Hsub Hkid]].
    change (Ok (@nil nat) = Ok subset) in Hsub. injection Hsub as <-.
    destruct Hkid as [[_ [m [Hm Hkid]]]|[Hcontra _]]; [|contradiction].
    change (Ok "no"%string = Ok m) in Hm. injection Hm as <-.
    exists (@tables insertion_order vote_rows (Some root)).
    eexists. exists k2.
    split; [exact Hload|]. split; [exact Hnode|].
    split; [reflexivity|]. split; [reflexivity|]. split; [reflexivity|].
    split; [reflexivity | exact Hkid].
Qed.
